(** * sihmodel: the fertilizer recommendation engine of [app.py]

    A shallow embedding of [interpret], [round_up],
    [recommend_for_farmer] and the endpoint [recommend], with the three
    module-level tables, and the properties of the engine proved over
    it; and of [allowed_file] of [app2.py], the one function of that
    server that does not call a collaborator that is not in the source.

    - A Python [float] is an IEEE 754 binary64: Rocq's primitive
      [float], whose operations are specified by [SpecFloat].  A float
      literal of the source is the same literal here.
    - A Python [int] is a [Z]; a [str] is a [string] of ASCII text
      ([strip] and [lower] act on ASCII); a [dict] is a [gmap].
    - A raised exception is the [Raise] case of [result].
    - The caller's [inputs] dictionary and the three global tables live
      in a [world] that every operation of the engine takes and hands
      back; the locals [fert_plan] and [messages] are values.

    [recommend_for_farmer] follows the source line by line.  [engine]
    is the same computation rule by rule, and [run_recommend] proves
    that a call returns exactly what [engine] gives. *)

From Stdlib Require Import ZArith QArith String Ascii List Floats DecimalString DecimalPos Lia.
From stdpp Require Import base option gmap strings.
Set Warnings "-inexact-float".
Import ListNotations.

(** ** Exceptions and results *)

Inductive exn : Type :=
  | ValueError (msg : string)
  | OverflowError (msg : string)
  | TypeError (msg : string)
  | KeyError (key : string).

Inductive result (A : Type) : Type :=
  | Ok (a : A)
  | Raise (e : exn).
Arguments Ok {A} a.
Arguments Raise {A} e.

Definition rbind {A B} (r : result A) (k : A -> result B) : result B :=
  match r with
  | Ok a => k a
  | Raise e => Raise e
  end.

Declare Scope result_scope.
Delimit Scope result_scope with result.
Notation "'try' x <- r ; k" := (rbind r (fun x => k))
  (at level 10, x name, r at level 100, k at level 200) : result_scope.
Notation "'try' ' p <- r ; k" := (rbind r (fun x => match x with p => k end))
  (at level 10, p pattern, r at level 100, k at level 200) : result_scope.

(** ** Python strings: [str.strip], [str.lower], [str(int)] *)

Module Str.
Local Open Scope Z_scope.

(** [str.isspace] on ASCII: TAB..CR, FS..US and the blank. *)
Definition is_space (c : ascii) : bool :=
  let n := Z.of_nat (nat_of_ascii c) in
  ((9 <=? n) && (n <=? 13)) || ((28 <=? n) && (n <=? 32)).

Definition lower_char (c : ascii) : ascii :=
  let n := nat_of_ascii c in
  if ((65 <=? n) && (n <=? 90))%nat then ascii_of_nat (n + 32) else c.

Fixpoint lower (s : string) : string :=
  match s with
  | String c s' => String (lower_char c) (lower s')
  | EmptyString => EmptyString
  end.

Fixpoint lstrip (s : string) : string :=
  match s with
  | String c s' => if is_space c then lstrip s' else s
  | EmptyString => EmptyString
  end.

Fixpoint rstrip (s : string) : string :=
  match s with
  | String c s' =>
      match rstrip s' with
      | EmptyString => if is_space c then EmptyString else String c EmptyString
      | t => String c t
      end
  | EmptyString => EmptyString
  end.

Definition strip (s : string) : string := rstrip (lstrip s).

(** [str(n)], also what an f-string prints for an [int]. *)
Definition of_int (n : Z) : string := NilZero.string_of_int (Z.to_int n).
End Str.

(** ** Python floats: [float(int)], [float(str)], [math.ceil] *)

Module Float.
Local Open Scope Z_scope.

(** [float(n)] for an [int]: the nearest binary64 (ties to even);
    OverflowError when that is beyond the largest finite float. *)
Definition of_int (n : Z) : result float :=
  match binary_normalize prec emax n 0 false with
  | S754_infinity _ => Raise (OverflowError "int too large to convert to float")
  | sf => Ok (SF2Prim sf)
  end.

Definition digit_of (c : ascii) : option Z :=
  let n := Z.of_nat (nat_of_ascii c) in
  if (48 <=? n) && (n <=? 57) then Some (n - 48) else None.

(** The rest of a [digitpart ::= digit (["_"] digit)*] after its first
    digit: the digits read and the unread text. *)
Fixpoint digitpart_tail (s : string) : list Z * string :=
  match s with
  | String c s' =>
      match digit_of c with
      | Some d => let '(ds, r) := digitpart_tail s' in (d :: ds, r)
      | None =>
          if Ascii.eqb c "_" then
            match s' with
            | String c' s'' =>
                match digit_of c' with
                | Some d => let '(ds, r) := digitpart_tail s'' in (d :: ds, r)
                | None => ([], s)
                end
            | EmptyString => ([], s)
            end
          else ([], s)
      end
  | EmptyString => ([], EmptyString)
  end.

Definition digitpart (s : string) : list Z * string :=
  match s with
  | String c s' =>
      match digit_of c with
      | Some d => let '(ds, r) := digitpart_tail s' in (d :: ds, r)
      | None => ([], s)
      end
  | EmptyString => ([], s)
  end.

Definition sign_of (s : string) : bool * string :=
  match s with
  | String "-" s' => (true, s')
  | String "+" s' => (false, s')
  | _ => (false, s)
  end.

Definition of_digits (ds : list Z) : Z := fold_left (fun a d => 10 * a + d) ds 0.

(** [exponent ::= ("e" | "E") [sign] digitpart], to the end of the text. *)
Definition exponent (s : string) : option Z :=
  match s with
  | EmptyString => Some 0
  | String c s' =>
      if Ascii.eqb (Str.lower_char c) "e" then
        let '(neg, s1) := sign_of s' in
        match digitpart s1 with
        | (d :: ds, EmptyString) =>
            Some (if neg then - of_digits (d :: ds) else of_digits (d :: ds))
        | _ => None
        end
      else None
  end.

(** [number ::= [digitpart] "." digitpart | digitpart ["."]], then the
    optional exponent: the digits as an integer [m] and the power of
    ten [e] with value [m * 10^e]. *)
Definition decimal (s : string) : option (Z * Z) :=
  let '(ip, s1) := digitpart s in
  let '(fp, s2) :=
    match s1 with
    | String "." s' => digitpart s'
    | _ => ([], s1)
    end in
  match ip ++ fp with
  | [] => None
  | ds =>
      match exponent s2 with
      | Some e => Some (of_digits ds, e - Z.of_nat (length fp))
      | None => None
      end
  end.

(** The binary64 nearest to [(-1)^neg * m * 10^e] (ties to even,
    overflow to an infinity, underflow to a subnormal or zero). *)
Definition round_decimal (neg : bool) (m e : Z) : spec_float :=
  match m with
  | Zpos p =>
      if 0 <=? e then
        binary_normalize prec emax (if neg then - (m * 10 ^ e) else m * 10 ^ e) 0 false
      else
        SFdiv prec emax (S754_finite neg p 0)
              (S754_finite false (Z.to_pos (10 ^ (- e))) 0)
  | _ => S754_zero neg
  end.

(** The whitespace [float(s)] skips around the number: C's [isspace],
    TAB..CR and the blank.  [str.strip] also takes FS..US, [float] does
    not. *)
Definition is_space (c : ascii) : bool :=
  let n := Z.of_nat (nat_of_ascii c) in
  ((9 <=? n) && (n <=? 13)) || (n =? 32).

Fixpoint lstrip (s : string) : string :=
  match s with
  | String c s' => if is_space c then lstrip s' else s
  | EmptyString => EmptyString
  end.

Fixpoint rstrip (s : string) : string :=
  match s with
  | String c s' =>
      match rstrip s' with
      | EmptyString => if is_space c then EmptyString else String c EmptyString
      | t => String c t
      end
  | EmptyString => EmptyString
  end.

Definition strip (s : string) : string := rstrip (lstrip s).

(** [float(s)] for a [str]: [None] stands for the ValueError. *)
Definition of_string (s : string) : option float :=
  let '(neg, body) := sign_of (strip s) in
  let word := Str.lower body in
  if String.eqb word "inf" || String.eqb word "infinity" then
    Some (if neg then neg_infinity else infinity)
  else if String.eqb word "nan" then Some nan
  else
    match decimal body with
    | Some (m, e) => Some (SF2Prim (round_decimal neg m e))
    | None => None
    end.

(** [math.ceil(x)], read off the sign, mantissa and exponent of [x]. *)
Definition ceil_sf (x : spec_float) : result Z :=
  match x with
  | S754_zero _ => Ok 0
  | S754_finite s m e =>
      let v := if s then Zneg m else Zpos m in
      Ok (if 0 <=? e then v * 2 ^ e else - ((- v) / 2 ^ (- e)))
  | S754_infinity _ => Raise (OverflowError "cannot convert float infinity to integer")
  | S754_nan => Raise (ValueError "cannot convert float NaN to integer")
  end.

Definition ceil (x : float) : result Z := ceil_sf (Prim2SF x).

(** The exact value of a float as a rational ([0] for infinities and NaN). *)
Definition SF2Q (x : spec_float) : Q :=
  match x with
  | S754_finite s m e =>
      let a := if 0 <=? e then inject_Z (Zpos m * 2 ^ e) else Zpos m # Z.to_pos (2 ^ (- e)) in
      if s then Qopp a else a
  | _ => 0%Q
  end.

Definition to_Q (x : float) : Q := SF2Q (Prim2SF x).

(** Python's truth value of a float: false for [0.0] and [-0.0] only. *)
Definition truthy (x : float) : bool := negb (x =? 0)%float.

(** [max(a, b)]: the first argument unless the second is greater. *)
Definition max (a b : float) : float := if (a <? b)%float then b else a.
End Float.

Local Open Scope float_scope.
Local Open Scope result_scope.

(** ** Values of a request body

    What [inputs.get(key)] can hand to [interpret]: JSON [null] (also an
    absent key), a boolean, an integer, a real number or a string. *)

Inductive raw : Type :=
  | RNone
  | RBool (b : bool)
  | RInt (n : Z)
  | RFloat (x : float)
  | RStr (s : string).

(** [str(value)].  [interpret] asks for it only when [value] is not a
    number; the digits Python prints for a float are not modelled. *)
Definition str (value : raw) : string :=
  match value with
  | RStr s => s
  | RNone => "None"
  | RBool b => if b then "True" else "False"
  | RInt n => Str.of_int n
  | RFloat _ => ""
  end.

(** [v in (a, b, ...)] for a tuple of strings. *)
Definition in_tuple (v : string) (t : list string) : bool :=
  existsb (String.eqb v) t.

(** ** [interpret] and [round_up] (app.py, lines 8 to 19) *)

Definition interpret (value : raw) (low high : float) : result (option float) :=
  match value with
  (* isinstance(value, (int, float)): return float(value) *)
  | RBool b => Ok (Some (if b then 1 else 0))
  | RInt n => try x <- Float.of_int n ; Ok (Some x)
  | RFloat x => Ok (Some x)
  | _ =>
      let v := Str.lower (Str.strip (str value)) in
      if in_tuple v ["low"; "l"] then Ok (Some (low * 0.8))
      else if in_tuple v ["medium"; "med"; "m"] then Ok (Some ((low + high) / 2))
      else if in_tuple v ["high"; "h"] then Ok (Some (high * 1.2))
      else
        (* try: return float(value) / except: return None *)
        match value with
        | RStr s => Ok (Float.of_string s)
        | _ => Ok None
        end
  end.

Definition round_up (x : float) : result Z := Float.ceil x.

(** ** The module-level tables (app.py, lines 21 to 43)

    The integer entries are written as the floats they are converted to
    wherever the engine uses them (each is exactly representable). *)

Definition baseline_npk : gmap string (float * float * float) :=
  list_to_map [
    ("wheat", (120, 60, 40));
    ("paddy", (150, 60, 40));
    ("maize", (150, 75, 50));
    ("cotton", (100, 50, 50));
    ("mustard", (80, 40, 30)) ].

(** An entry of [FERT_N_CONTENT]: a bare fraction, or a dictionary from
    nutrient to fraction. *)
Inductive content : Type :=
  | Fraction (x : float)
  | PerNutrient (d : gmap string float).

Definition FERT_N_CONTENT : gmap string content :=
  list_to_map [
    ("urea", Fraction 0.46);
    ("dap", PerNutrient (list_to_map [("N", 0.18); ("P2O5", 0.46)]));
    ("mop", PerNutrient (list_to_map [("K2O", 0.60)]));
    ("gypsum", PerNutrient (list_to_map [("S", 0.18)]));
    ("znso4", PerNutrient (list_to_map [("Zn", 0.21)]));
    ("borax", PerNutrient (list_to_map [("B", 0.11)]));
    ("compost", PerNutrient (list_to_map [("OC", 0.5)])) ].

Definition ref_thresholds : gmap string (float * float) :=
  list_to_map [
    ("N", (280, 500)); ("P", (10, 25)); ("K", (120, 280)); ("S", (10, 20));
    ("Zn", (0.6, 1.5)); ("Fe", (4.5, 10)); ("Cu", (0.2, 1)); ("Mn", (2, 5));
    ("B", (0.5, 1)); ("OC", (0.5, 0.8)); ("pH", (6.5, 7.5)); ("EC", (0, 4)) ].

(** ** The world of a call and the monad of the engine

    The objects a call of [recommend_for_farmer] shares with the rest of
    the program: the dictionary its [inputs] parameter refers to and the
    three global tables.  A computation takes the world and returns it
    with its result; an exception leaves the world as it was when it was
    raised. *)

Record world : Type := World {
  w_inputs : gmap string raw;
  w_baseline_npk : gmap string (float * float * float);
  w_FERT_N_CONTENT : gmap string content;
  w_ref_thresholds : gmap string (float * float) }.

(** The world in which the tables hold their module-level values. *)
Definition module_world (inputs : gmap string raw) : world :=
  World inputs baseline_npk FERT_N_CONTENT ref_thresholds.

Definition M (A : Type) : Type := world -> result A * world.

Definition ret {A} (a : A) : M A := fun w => (Ok a, w).
Definition raise {A} (e : exn) : M A := fun w => (Raise e, w).
Definition lift {A} (r : result A) : M A := fun w => (r, w).
Definition bind {A B} (m : M A) (k : A -> M B) : M B :=
  fun w =>
    match m w with
    | (Ok a, w') => k a w'
    | (Raise e, w') => (Raise e, w')
    end.

Declare Scope py_scope.
Delimit Scope py_scope with py.
Notation "'do' x <- m ; k" := (bind m (fun x => k))
  (at level 10, x name, m at level 100, k at level 200) : py_scope.
Notation "'do' ' p <- m ; k" := (bind m (fun x => match x with p => k end))
  (at level 10, p pattern, m at level 100, k at level 200) : py_scope.
Local Open Scope py_scope.

(** [key in table], [table[key]] and [inputs.get(key)]. *)
Definition contains {V} (table : world -> gmap string V) (key : string) : M bool :=
  fun w => (Ok (bool_decide (is_Some (table w !! key))), w).

Definition getitem {V} (table : world -> gmap string V) (key : string) : M V :=
  fun w =>
    match table w !! key with
    | Some v => (Ok v, w)
    | None => (Raise (KeyError key), w)
    end.

Definition inputs_get (key : string) : M raw :=
  fun w => (Ok (default RNone (w_inputs w !! key)), w).

(** [FERT_N_CONTENT[product]] used as a number, and
    [FERT_N_CONTENT[product][nutrient]]. *)
Definition fraction (product : string) : M float :=
  do c <- getitem w_FERT_N_CONTENT product ;
  match c with
  | Fraction x => ret x
  | PerNutrient _ => raise (TypeError "unsupported operand type(s) for /: 'float' and 'dict'")
  end.

Definition fraction_of (product nutrient : string) : M float :=
  do c <- getitem w_FERT_N_CONTENT product ;
  match c with
  | PerNutrient d =>
      match d !! nutrient with
      | Some x => ret x
      | None => raise (KeyError nutrient)
      end
  | Fraction _ => raise (TypeError "'float' object is not subscriptable")
  end.

(** [ref_thresholds[key][0]]. *)
Definition low_threshold (key : string) : M float :=
  do t <- getitem w_ref_thresholds key ; ret (fst t).

(** ** [recommend_for_farmer] (app.py, lines 45 to 133) *)

(** [interpret(inputs.get(key), *ref_thresholds[key])]. *)
Definition reading (key : string) : M (option float) :=
  do value <- inputs_get key ;
  do t <- getitem w_ref_thresholds key ;
  lift (interpret value (fst t) (snd t)).

(** [X if X else 0]: [None] and a zero reading are false. *)
Definition or_zero (X : option float) : float :=
  match X with
  | Some x => if Float.truthy x then x else 0
  | None => 0
  end.

(** [X and test(X)] for a test that reads nothing. *)
Definition holds (X : option float) (test : float -> bool) : bool :=
  match X with
  | Some x => Float.truthy x && test x
  | None => false
  end.

(** [if X and test(X): body(X)] over the locals [st]; [test] is not
    evaluated when [X] is false. *)
Definition when_ {A} (X : option float) (test : float -> M bool)
    (body : float -> A -> M A) (st : A) : M A :=
  match X with
  | Some x =>
      if Float.truthy x then
        do b <- test x ; if b then body x st else ret st
      else ret st
  | None => ret st
  end.

(** [x < ref_thresholds[key][0]]. *)
Definition below (key : string) (x : float) : M bool :=
  do low <- low_threshold key ; ret (x <? low).

Definition plan : Type := gmap string Z.

Definition recommend_for_farmer (crop_name : string) : M (list string * plan) :=
  let crop := Str.lower crop_name in
  do known <- contains w_baseline_npk crop ;
  if negb known then raise (ValueError ("Unsupported crop: " +:+ crop)) else
  (* Interpret all 12 parameters *)
  do N <- reading "N" ;
  do P <- reading "P" ;
  do K <- reading "K" ;
  do S <- reading "S" ;
  do Zn <- reading "Zn" ;
  do Fe <- reading "Fe" ;
  do Cu <- reading "Cu" ;
  do Mn <- reading "Mn" ;
  do B <- reading "B" ;
  do OC <- reading "OC" ;
  do pH <- reading "pH" ;
  do EC <- reading "EC" ;
  do '(base_N, base_P2O5, base_K2O) <- getitem w_baseline_npk crop ;
  (* Compute nutrient gaps *)
  let need_N := Float.max 0 (base_N - or_zero N) in
  let need_P2O5 := Float.max 0 (base_P2O5 - or_zero P) in
  let need_K2O := Float.max 0 (base_K2O - or_zero K) in
  do need_N <- when_ OC (below "OC") (fun _ need_N => ret (need_N * 1.1)) need_N ;
  let '(need_N, need_P2O5, need_K2O) :=
    if holds EC (fun ec => 4 <? ec) then
      (need_N * 0.8, need_P2O5 * 0.8, need_K2O * 0.8)
    else (need_N, need_P2O5, need_K2O) in
  let fert_plan : plan := ∅ in
  let messages : list string := [] in
  do '(N_from_dap, fert_plan, messages) <-
    (if 0 <? need_P2O5 then
       do c <- fraction_of "dap" "P2O5" ;
       do dap_needed <- lift (round_up (need_P2O5 / c)) ;
       do c_N <- fraction_of "dap" "N" ;
       do dap_float <- lift (Float.of_int dap_needed) ;
       ret (dap_float * c_N,
            <["DAP_kg/ha" := dap_needed]> fert_plan,
            messages ++ ["Apply " +:+ Str.of_int dap_needed +:+
              " kg/ha DAP because phosphorus is below recommended level for " +:+
              crop_name +:+ "."])
     else ret (0, fert_plan, messages)) ;
  let remaining_N := Float.max 0 (need_N - N_from_dap) in
  do '(fert_plan, messages) <-
    (if 0 <? remaining_N then
       do c <- fraction "urea" ;
       do urea_needed <- lift (round_up (remaining_N / c)) ;
       ret (<["Urea_kg/ha" := urea_needed]> fert_plan,
            messages ++ ["Apply " +:+ Str.of_int urea_needed +:+
              " kg/ha Urea because nitrogen is below recommended level for " +:+
              crop_name +:+ "."])
     else ret (fert_plan, messages)) ;
  do '(fert_plan, messages) <-
    (if 0 <? need_K2O then
       do c <- fraction_of "mop" "K2O" ;
       do mop_needed <- lift (round_up (need_K2O / c)) ;
       ret (<["MOP_kg/ha" := mop_needed]> fert_plan,
            messages ++ ["Apply " +:+ Str.of_int mop_needed +:+
              " kg/ha MOP because potassium is below recommended level for " +:+
              crop_name +:+ "."])
     else ret (fert_plan, messages)) ;
  do '(fert_plan, messages) <-
    when_ S (below "S")
      (fun s '(fert_plan, messages) =>
         do low <- low_threshold "S" ;
         do c <- fraction_of "gypsum" "S" ;
         do gypsum_needed <- lift (round_up ((low - s) / c)) ;
         ret (<["Gypsum_kg/ha" := gypsum_needed]> fert_plan,
              messages ++ ["Apply " +:+ Str.of_int gypsum_needed +:+
                " kg/ha Gypsum because soil sulphur is low for " +:+ crop_name +:+ "."]))
      (fert_plan, messages) ;
  do '(fert_plan, messages) <-
    when_ Zn (below "Zn")
      (fun zn '(fert_plan, messages) =>
         do low <- low_threshold "Zn" ;
         do c <- fraction_of "znso4" "Zn" ;
         do zn_needed <- lift (round_up ((low - zn) / c)) ;
         ret (<["ZnSO4_kg/ha" := zn_needed]> fert_plan,
              messages ++ ["Apply " +:+ Str.of_int zn_needed +:+
                " kg/ha Zinc Sulfate because soil zinc is below recommended levels."]))
      (fert_plan, messages) ;
  do '(fert_plan, messages) <-
    when_ B (below "B")
      (fun b '(fert_plan, messages) =>
         do low <- low_threshold "B" ;
         do c <- fraction_of "borax" "B" ;
         do borax_needed <- lift (round_up ((low - b) / c)) ;
         ret (<["Borax_kg/ha" := borax_needed]> fert_plan,
              messages ++ ["Apply " +:+ Str.of_int borax_needed +:+
                " kg/ha Borax because soil boron is below recommended levels."]))
      (fert_plan, messages) ;
  do '(fert_plan, messages) <-
    when_ OC (below "OC")
      (fun oc '(fert_plan, messages) =>
         do low <- low_threshold "OC" ;
         do c <- fraction_of "compost" "OC" ;
         do compost_needed <- lift (round_up ((low - oc) / c)) ;
         ret (<["Compost_kg/ha" := (compost_needed * 1000)%Z]> fert_plan,
              messages ++ ["Apply approx " +:+ Str.of_int compost_needed +:+
                " tons/ha Compost/FYM to improve soil organic matter."]))
      (fert_plan, messages) ;
  do messages <-
    when_ Fe (below "Fe")
      (fun _ messages => ret (messages ++
         ["Iron low: consider foliar Fe spray because soil Fe is insufficient."]))
      messages ;
  do messages <-
    when_ Cu (below "Cu")
      (fun _ messages => ret (messages ++
         ["Copper low: consider foliar Cu spray because soil Cu is insufficient."]))
      messages ;
  do messages <-
    when_ Mn (below "Mn")
      (fun _ messages => ret (messages ++
         ["Manganese low: consider foliar Mn spray because soil Mn is insufficient."]))
      messages ;
  let messages :=
    if holds pH (fun ph => ph <? 6.0) then
      messages ++ ["Soil acidic: apply lime to raise pH."]
    else if holds pH (fun ph => 8.5 <? ph) then
      messages ++ ["Soil alkaline: apply gypsum or acidifying measures to lower pH."]
    else messages in
  let messages :=
    if holds EC (fun ec => 4 <? ec) then
      messages ++ ["High salinity: grow salt-tolerant crops and improve irrigation."]
    else messages in
  ret (messages, fert_plan).

(** A call [recommend_for_farmer(inputs, crop_name)] as the endpoint
    makes it, with the tables at their module-level values: what it
    returns or raises. *)
Definition call (inputs : gmap string raw) (crop_name : string)
    : result (list string * plan) :=
  fst (recommend_for_farmer crop_name (module_world inputs)).

(** ** The engine rule by rule

    The same computation with the table entries read off and the
    locals [fert_plan] and [messages] assembled at the end:
    [call_evaluate] below proves that a call returns exactly this. *)

Record readings : Type := Readings {
  rd_N : option float; rd_P : option float; rd_K : option float;
  rd_S : option float; rd_Zn : option float; rd_Fe : option float;
  rd_Cu : option float; rd_Mn : option float; rd_B : option float;
  rd_OC : option float; rd_pH : option float; rd_EC : option float }.

Definition interpreted (inputs : gmap string raw) (key : string) : result (option float) :=
  match ref_thresholds !! key with
  | Some t => interpret (default RNone (inputs !! key)) (fst t) (snd t)
  | None => Raise (KeyError key)
  end.

Definition interpret_all (inputs : gmap string raw) : result readings :=
  try N <- interpreted inputs "N" ;
  try P <- interpreted inputs "P" ;
  try K <- interpreted inputs "K" ;
  try S <- interpreted inputs "S" ;
  try Zn <- interpreted inputs "Zn" ;
  try Fe <- interpreted inputs "Fe" ;
  try Cu <- interpreted inputs "Cu" ;
  try Mn <- interpreted inputs "Mn" ;
  try B <- interpreted inputs "B" ;
  try OC <- interpreted inputs "OC" ;
  try pH <- interpreted inputs "pH" ;
  try EC <- interpreted inputs "EC" ;
  Ok (Readings N P K S Zn Fe Cu Mn B OC pH EC).

(** [X and X < low]. *)
Definition is_low (X : option float) (low : float) : bool :=
  holds X (fun x => x <? low).

(** [EC and EC > 4]. *)
Definition saline (EC : option float) : bool := holds EC (fun ec => 4 <? ec).

(** The gaps after the organic-carbon and salinity adjustments. *)
Definition gaps (base : float * float * float) (rd : readings) : float * float * float :=
  let '(base_N, base_P2O5, base_K2O) := base in
  let need_N := Float.max 0 (base_N - or_zero (rd_N rd)) in
  let need_P2O5 := Float.max 0 (base_P2O5 - or_zero (rd_P rd)) in
  let need_K2O := Float.max 0 (base_K2O - or_zero (rd_K rd)) in
  let need_N := if is_low (rd_OC rd) 0.5 then need_N * 1.1 else need_N in
  if saline (rd_EC rd) then (need_N * 0.8, need_P2O5 * 0.8, need_K2O * 0.8)
  else (need_N, need_P2O5, need_K2O).

(** [round_up(gap / c)] when the rule fires. *)
Definition quantity (fires : bool) (gap c : float) : result (option Z) :=
  if fires then try q <- round_up (gap / c) ; Ok (Some q) else Ok None.

(** [round_up((low - X) / c)] when [X and X < low]. *)
Definition low_quantity (X : option float) (low c : float) : result (option Z) :=
  match X with
  | Some x => quantity (Float.truthy x && (x <? low)) (low - x) c
  | None => Ok None
  end.

(** [N_from_dap]. *)
Definition credit (dap : option Z) : result float :=
  match dap with
  | Some dap_needed => try dap_float <- Float.of_int dap_needed ; Ok (dap_float * 0.18)
  | None => Ok 0
  end.

Definition remaining (need_N N_from_dap : float) : float :=
  Float.max 0 (need_N - N_from_dap).

(** What each rule decided: the quantity of each product (for compost
    the tons, before the factor 1000) and whether each advisory fires. *)
Record outcome : Type := Outcome {
  o_dap : option Z; o_urea : option Z; o_mop : option Z; o_gypsum : option Z;
  o_znso4 : option Z; o_borax : option Z; o_compost : option Z;
  o_fe : bool; o_cu : bool; o_mn : bool;
  o_acidic : bool; o_alkaline : bool; o_saline : bool }.

Definition evaluate (base : float * float * float) (rd : readings) : result outcome :=
  let '(need_N, need_P2O5, need_K2O) := gaps base rd in
  try dap <- quantity (0 <? need_P2O5) need_P2O5 0.46 ;
  try N_from_dap <- credit dap ;
  let remaining_N := remaining need_N N_from_dap in
  try urea <- quantity (0 <? remaining_N) remaining_N 0.46 ;
  try mop <- quantity (0 <? need_K2O) need_K2O 0.60 ;
  try gypsum <- low_quantity (rd_S rd) 10 0.18 ;
  try znso4 <- low_quantity (rd_Zn rd) 0.6 0.21 ;
  try borax <- low_quantity (rd_B rd) 0.5 0.11 ;
  try compost <- low_quantity (rd_OC rd) 0.5 0.5 ;
  Ok (Outcome dap urea mop gypsum znso4 borax compost
        (is_low (rd_Fe rd) 4.5) (is_low (rd_Cu rd) 0.2) (is_low (rd_Mn rd) 2)
        (holds (rd_pH rd) (fun ph => ph <? 6.0))
        (holds (rd_pH rd) (fun ph => 8.5 <? ph))
        (saline (rd_EC rd))).

(** The rules in the order the engine evaluates them. *)
Inductive rule : Type :=
  | DAP | Urea | MOP | Gypsum | ZnSO4 | Borax | Compost | Fe | Cu | Mn | PH | EC.

Definition rule_order : list rule :=
  [DAP; Urea; MOP; Gypsum; ZnSO4; Borax; Compost; Fe; Cu; Mn; PH; EC].

Definition advisory (fires : bool) (text : string) : option string :=
  if fires then Some text else None.

(** The message a rule appends, if it fires. *)
Definition message (crop_name : string) (o : outcome) (r : rule) : option string :=
  match r with
  | DAP => (fun q => "Apply " +:+ Str.of_int q +:+
              " kg/ha DAP because phosphorus is below recommended level for " +:+
              crop_name +:+ ".") <$> o_dap o
  | Urea => (fun q => "Apply " +:+ Str.of_int q +:+
              " kg/ha Urea because nitrogen is below recommended level for " +:+
              crop_name +:+ ".") <$> o_urea o
  | MOP => (fun q => "Apply " +:+ Str.of_int q +:+
              " kg/ha MOP because potassium is below recommended level for " +:+
              crop_name +:+ ".") <$> o_mop o
  | Gypsum => (fun q => "Apply " +:+ Str.of_int q +:+
              " kg/ha Gypsum because soil sulphur is low for " +:+ crop_name +:+ ".")
              <$> o_gypsum o
  | ZnSO4 => (fun q => "Apply " +:+ Str.of_int q +:+
              " kg/ha Zinc Sulfate because soil zinc is below recommended levels.")
              <$> o_znso4 o
  | Borax => (fun q => "Apply " +:+ Str.of_int q +:+
              " kg/ha Borax because soil boron is below recommended levels.")
              <$> o_borax o
  | Compost => (fun q => "Apply approx " +:+ Str.of_int q +:+
              " tons/ha Compost/FYM to improve soil organic matter.") <$> o_compost o
  | Fe => advisory (o_fe o)
            "Iron low: consider foliar Fe spray because soil Fe is insufficient."
  | Cu => advisory (o_cu o)
            "Copper low: consider foliar Cu spray because soil Cu is insufficient."
  | Mn => advisory (o_mn o)
            "Manganese low: consider foliar Mn spray because soil Mn is insufficient."
  | PH => if o_acidic o then Some "Soil acidic: apply lime to raise pH."
          else advisory (o_alkaline o)
                 "Soil alkaline: apply gypsum or acidifying measures to lower pH."
  | EC => advisory (o_saline o)
            "High salinity: grow salt-tolerant crops and improve irrigation."
  end.

Definition messages_of (crop_name : string) (o : outcome) : list string :=
  omap (message crop_name o) rule_order.

(** [fert_plan[label] = q] if the rule fired. *)
Definition record (label : string) (q : option Z) (fert_plan : plan) : plan :=
  match q with
  | Some v => <[label := v]> fert_plan
  | None => fert_plan
  end.

Definition plan_of (o : outcome) : plan :=
  record "Compost_kg/ha" ((fun q => q * 1000)%Z <$> o_compost o)
    (record "Borax_kg/ha" (o_borax o)
      (record "ZnSO4_kg/ha" (o_znso4 o)
        (record "Gypsum_kg/ha" (o_gypsum o)
          (record "MOP_kg/ha" (o_mop o)
            (record "Urea_kg/ha" (o_urea o)
              (record "DAP_kg/ha" (o_dap o) ∅)))))).

(** The call, rule by rule. *)
Definition engine (inputs : gmap string raw) (crop_name : string)
    : result (list string * plan) :=
  match baseline_npk !! Str.lower crop_name with
  | None => Raise (ValueError ("Unsupported crop: " +:+ Str.lower crop_name))
  | Some base =>
      try rd <- interpret_all inputs ;
      try o <- evaluate base rd ;
      Ok (messages_of crop_name o, plan_of o)
  end.


(** ** Notions the properties are stated with *)

(** A computation [preserves] the world when it hands it back as it
    was, whatever it returns or raises. *)
Definition preserves {A} (m : M A) : Prop := forall w, snd (m w) = w.

(** The keys of [baseline_npk]. *)
Definition supported_crops : list string :=
  ["wheat"; "paddy"; "maize"; "cotton"; "mustard"].

(** The exception of line 48 for a crop (in lower case). *)
Definition UnsupportedCropError (crop : string) : exn :=
  ValueError ("Unsupported crop: " +:+ crop).

(** The entries of the plan of an outcome, label by label. *)
Definition entries (o : outcome) : list (string * option Z) :=
  [("DAP_kg/ha", o_dap o); ("Urea_kg/ha", o_urea o); ("MOP_kg/ha", o_mop o);
   ("Gypsum_kg/ha", o_gypsum o); ("ZnSO4_kg/ha", o_znso4 o);
   ("Borax_kg/ha", o_borax o);
   ("Compost_kg/ha", (fun q => q * 1000)%Z <$> o_compost o)].

(** A float that is neither zero nor NaN, with the sign [s]. *)
Definition signed_nonzero (s : bool) (x : spec_float) : Prop :=
  match x with
  | S754_finite s' _ _ | S754_infinity s' => s' = s
  | _ => False
  end.

(** [r1] is evaluated before [r2]. *)
Definition before (r1 r2 : rule) : Prop :=
  exists i j, (i < j)%nat /\ rule_order !! i = Some r1 /\ rule_order !! j = Some r2.

(** The condition under which each rule fires, on the gaps, the
    nitrogen credit of the DAP and the readings. *)
Definition fires (base : float * float * float) (rd : readings) (N_from_dap : float)
    (r : rule) : bool :=
  let '(need_N, need_P2O5, need_K2O) := gaps base rd in
  match r with
  | DAP => 0 <? need_P2O5
  | Urea => 0 <? remaining need_N N_from_dap
  | MOP => 0 <? need_K2O
  | Gypsum => is_low (rd_S rd) 10
  | ZnSO4 => is_low (rd_Zn rd) 0.6
  | Borax => is_low (rd_B rd) 0.5
  | Compost => is_low (rd_OC rd) 0.5
  | Fe => is_low (rd_Fe rd) 4.5
  | Cu => is_low (rd_Cu rd) 0.2
  | Mn => is_low (rd_Mn rd) 2
  | PH => holds (rd_pH rd) (fun ph => ph <? 6.0) || holds (rd_pH rd) (fun ph => 8.5 <? ph)
  | EC => saline (rd_EC rd)
  end.

(** A positive float below one: a content fraction. *)
Definition below_one (c : float) : bool :=
  match Prim2SF c with
  | S754_finite false m e => (Zpos (digits2_pos m) + e <=? 0)%Z
  | _ => false
  end.

(** A positive normal float: a low threshold. *)
Definition normal_positive (low : float) : bool :=
  match Prim2SF low with
  | S754_finite false m e => (Zpos (digits2_pos m) =? prec)%Z
  | _ => false
  end.

(** The gap a plan entry answers, the content fraction it is divided
    by, and the factor its quantity is recorded with. *)
Definition requirement (base : float * float * float) (rd : readings) (N_from_dap : float)
    (label : string) : option (float * float * Z) :=
  let '(need_N, need_P2O5, need_K2O) := gaps base rd in
  if String.eqb label "DAP_kg/ha" then Some (need_P2O5, 0.46, 1%Z)
  else if String.eqb label "Urea_kg/ha" then Some (remaining need_N N_from_dap, 0.46, 1%Z)
  else if String.eqb label "MOP_kg/ha" then Some (need_K2O, 0.60, 1%Z)
  else if String.eqb label "Gypsum_kg/ha" then (fun s => (10 - s, 0.18, 1%Z)) <$> rd_S rd
  else if String.eqb label "ZnSO4_kg/ha" then (fun zn => (0.6 - zn, 0.21, 1%Z)) <$> rd_Zn rd
  else if String.eqb label "Borax_kg/ha" then (fun b => (0.5 - b, 0.11, 1%Z)) <$> rd_B rd
  else if String.eqb label "Compost_kg/ha" then (fun oc => (0.5 - oc, 0.5, 1000%Z)) <$> rd_OC rd
  else None.

(** The only error of a supported crop: [float(n)] of an [int] beyond
    the floats, [math.ceil] of an infinite quotient. *)
Definition overflow (e : exn) : Prop := exists msg, e = OverflowError msg.


(** The request of the end-to-end scenario. *)
Definition scenario_inputs : gmap string raw :=
  list_to_map [("N", RInt 100); ("P", RInt 5); ("K", RInt 50);
               ("OC", RFloat 0.3); ("EC", RInt 1); ("pH", RInt 7)].

Definition scenario_plan : plan :=
  list_to_map [("DAP_kg/ha", 120%Z); ("Urea_kg/ha", 1%Z); ("Compost_kg/ha", 1000%Z)].

Definition scenario_messages : list string :=
  ["Apply 120 kg/ha DAP because phosphorus is below recommended level for wheat.";
   "Apply 1 kg/ha Urea because nitrogen is below recommended level for wheat.";
   "Apply approx 1 tons/ha Compost/FYM to improve soil organic matter."].

(** Requests with readings of exactly zero. *)
Definition zero_OC_inputs : gmap string raw := <["OC" := RInt 0]> ∅.

Definition zero_S_Zn_B_inputs : gmap string raw :=
  list_to_map [("S", RInt 0); ("Zn", RInt 0); ("B", RFloat 0)].

Definition zero_micro_inputs : gmap string raw :=
  list_to_map [("Fe", RInt 0); ("Cu", RInt 0); ("Mn", RInt 0); ("pH", RInt 0)].

(** Requests with one low reading that is not zero. *)
Definition low_S_inputs : gmap string raw := <["S" := RInt 3]> ∅.

Definition low_Fe_inputs : gmap string raw := <["Fe" := RInt 1]> ∅.

(** What the engine returns for "wheat" when no rule after MOP fires. *)
Definition bare_wheat_plan : plan :=
  list_to_map [("DAP_kg/ha", 131%Z); ("Urea_kg/ha", 210%Z); ("MOP_kg/ha", 67%Z)].

Definition bare_wheat_messages : list string :=
  ["Apply 131 kg/ha DAP because phosphorus is below recommended level for wheat.";
   "Apply 210 kg/ha Urea because nitrogen is below recommended level for wheat.";
   "Apply 67 kg/ha MOP because potassium is below recommended level for wheat."].

(** ** The endpoint [recommend] (app.py, lines 137 to 147)

    The body of the request is a JSON object ([data.get] is outside
    the [try]: another body is not answered by this function).  A value
    of it is a scalar, an object of scalars, or an array, of which only
    the type is ever asked.  The response is the document handed to
    [jsonify] and the status code. *)

Inductive json : Type :=
  | JScalar (value : raw)
  | JObject (fields : gmap string raw)
  | JArray.

(** [type(value).__name__]. *)
Definition type_name (value : json) : string :=
  match value with
  | JScalar RNone => "NoneType"
  | JScalar (RBool _) => "bool"
  | JScalar (RInt _) => "int"
  | JScalar (RFloat _) => "float"
  | JScalar (RStr _) => "str"
  | JObject _ => "dict"
  | JArray => "list"
  end.

(** What the [try] block of the endpoint can catch: an exception of
    the engine, or the AttributeError of a method call on a value that
    has no such method. *)
Inductive exception : Type :=
  | Raised (e : exn)
  | AttributeError (msg : string).

(** The AttributeError of [value.name]. *)
Definition no_attribute (value : json) (name : string) : exception :=
  AttributeError ("'" +:+ type_name value +:+ "' object has no attribute '" +:+ name +:+ "'").

(** [str(e)]: the message, and for a KeyError the key in quotes. *)
Definition exception_str (e : exception) : string :=
  match e with
  | Raised (ValueError msg) | Raised (OverflowError msg) | Raised (TypeError msg) => msg
  | Raised (KeyError key) => "'" +:+ key +:+ "'"
  | AttributeError msg => msg
  end.

(** [recommend_for_farmer(inputs, crop)] on the values the endpoint
    finds in the body: [crop.lower()] wants a [str], the crop is looked
    up, and then [inputs.get] wants a [dict]. *)
Definition recommend_for_farmer_on (inputs crop : json)
    : exception + (list string * plan) :=
  match crop with
  | JScalar (RStr crop_name) =>
      match inputs with
      | JObject fields =>
          match call fields crop_name with
          | Ok r => inr r
          | Raise e => inl (Raised e)
          end
      | _ =>
          if bool_decide (is_Some (baseline_npk !! Str.lower crop_name)) then
            inl (no_attribute inputs "get")
          else inl (Raised (ValueError ("Unsupported crop: " +:+ Str.lower crop_name)))
      end
  | _ => inl (no_attribute crop "lower")
  end.

(** The JSON document of a response. *)
Inductive response : Type :=
  | Recommendation (messages : list string) (fertilizer_plan : plan)
  | Error (error : string).

(** The endpoint: the response and its status code. *)
Definition recommend (data : gmap string json) : response * Z :=
  let crop := default (JScalar RNone) (data !! "crop") in
  let inputs := default (JObject ∅) (data !! "inputs") in
  match recommend_for_farmer_on inputs crop with
  | inr (msgs, plan) => (Recommendation msgs plan, 200%Z)
  | inl e => (Error (exception_str e), 400%Z)
  end.

(** ** [allowed_file] (app2.py, lines 40 and 49 to 52) *)

(** The set [ALLOWED_EXTENSIONS]. *)
Definition ALLOWED_EXTENSIONS : gset string := {[ "png"; "jpg"; "jpeg"; "webp" ]}.

(** [c in s] for a character. *)
Fixpoint has_char (c : ascii) (s : string) : bool :=
  match s with
  | String a s' => Ascii.eqb a c || has_char c s'
  | EmptyString => false
  end.

(** [s.rsplit(sep, 1)] for a separator of one character: the text
    before its last occurrence and the text after it, or the whole text
    alone when it does not occur. *)
Fixpoint rsplit1 (sep : ascii) (s : string) : list string :=
  match s with
  | String c s' =>
      match rsplit1 sep s' with
      | [a; b] => [String c a; b]
      | _ => if Ascii.eqb c sep then [EmptyString; s'] else [s]
      end
  | EmptyString => [EmptyString]
  end.

(** [None] stands for the IndexError of [[1]]. *)
Definition allowed_file (filename : string) : option bool :=
  if has_char "." filename then
    match rsplit1 "." filename !! 1%nat with
    | Some ext => Some (bool_decide (Str.lower ext ∈ ALLOWED_EXTENSIONS))
    | None => None
    end
  else Some false.

(** ** Notions of the further properties *)

(** The keys of [inputs] the engine reads. *)
Definition reading_names : list string :=
  ["N"; "P"; "K"; "S"; "Zn"; "Fe"; "Cu"; "Mn"; "B"; "OC"; "pH"; "EC"].

(** A reading as the conditions of the engine see it: a zero is as good
    as absent. *)
Definition nonzero (X : option float) : option float :=
  match X with
  | Some x => if Float.truthy x then Some x else None
  | None => None
  end.

(** What the engine makes of the reading [key] of a request. *)
Definition seen (inputs : gmap string raw) (key : string) : result (option float) :=
  try X <- interpreted inputs key ; Ok (nonzero X).

(** The readings with every zero taken out. *)
Definition without_zeros (rd : readings) : readings :=
  Readings (nonzero (rd_N rd)) (nonzero (rd_P rd)) (nonzero (rd_K rd)) (nonzero (rd_S rd))
    (nonzero (rd_Zn rd)) (nonzero (rd_Fe rd)) (nonzero (rd_Cu rd)) (nonzero (rd_Mn rd))
    (nonzero (rd_B rd)) (nonzero (rd_OC rd)) (nonzero (rd_pH rd)) (nonzero (rd_EC rd)).

(** A reading that is absent or not negative. *)
Definition not_negative (X : option float) : bool :=
  match X with
  | Some x => negb (x <? 0)
  | None => true
  end.

(** The readings a quantity is computed from are not negative. *)
Definition physical (rd : readings) : bool :=
  forallb not_negative
    [rd_N rd; rd_P rd; rd_K rd; rd_S rd; rd_Zn rd; rd_B rd; rd_OC rd].

(** A float of sign [s] that is a zero or finite and below [2^k] in absolute value. *)
Definition small (s : bool) (k : Z) (x : spec_float) : Prop :=
  match x with
  | S754_zero s' => s' = s
  | S754_finite s' m e => s' = s /\ (Zpos (digits2_pos m) + e <= k)%Z
  | _ => False
  end.

(** A positive float below [2^k]. *)
Definition positive_below (k : Z) (c : float) : bool :=
  match Prim2SF c with
  | S754_finite false m e => (Zpos (digits2_pos m) + e <=? k)%Z
  | _ => false
  end.

(** A positive float that is at least [2^(j-1)]. *)
Definition positive_from (j : Z) (c : float) : bool :=
  match Prim2SF c with
  | S754_finite false m e => (j <=? Zpos (digits2_pos m) + e)%Z
  | _ => false
  end.

(** A gap: [0.0], or a positive float below [2^k]. *)
Definition tame (k : Z) (x : float) : Prop := small false k (Prim2SF x).

(** The two texts of an OverflowError. *)
Definition overflow_texts : list string :=
  ["int too large to convert to float"; "cannot convert float infinity to integer"].

(** An OverflowError with one of them. *)
Definition overflows (e : exn) : Prop := exists msg, In msg overflow_texts /\ e = OverflowError msg.

(** The digits of a decimal numeral, the first one first. *)
Fixpoint digits_of_uint (d : Decimal.uint) : list Z :=
  match d with
  | Decimal.Nil => []
  | Decimal.D0 d => 0%Z :: digits_of_uint d
  | Decimal.D1 d => 1%Z :: digits_of_uint d
  | Decimal.D2 d => 2%Z :: digits_of_uint d
  | Decimal.D3 d => 3%Z :: digits_of_uint d
  | Decimal.D4 d => 4%Z :: digits_of_uint d
  | Decimal.D5 d => 5%Z :: digits_of_uint d
  | Decimal.D6 d => 6%Z :: digits_of_uint d
  | Decimal.D7 d => 7%Z :: digits_of_uint d
  | Decimal.D8 d => 8%Z :: digits_of_uint d
  | Decimal.D9 d => 9%Z :: digits_of_uint d
  end.

(** The request of the scenario with an explicit null and a key the
    engine does not know, and the body of a request for it. *)
Definition annotated_inputs : gmap string raw :=
  <["S" := RNone]> (<["farm" := RStr "north field"]> scenario_inputs).

Definition wheat_request : gmap string json :=
  list_to_map [("crop", JScalar (RStr "Wheat")); ("inputs", JObject scenario_inputs)].

(** The float just below ten, and a request for wheat that has enough
    nitrogen and phosphorus and this much potassium. *)
Definition below_ten : float := 0x1.3ffffffffffffp+3.

Definition below_ten_inputs : gmap string raw :=
  list_to_map [("N", RInt 120); ("P", RInt 60); ("K", RFloat below_ten)].



(** ** Binary64 arithmetic

    What the rounding of [SpecFloat] keeps: a positive result that is
    not below the subnormal range is not rounded to zero. *)

Section Binary64.
Local Open Scope Z_scope.

Lemma digits2_pos_bounds (m : positive) :
  2 ^ (Zpos (digits2_pos m) - 1) <= Zpos m < 2 ^ Zpos (digits2_pos m).
Proof.
  induction m as [m IH|m IH|]; cbn [digits2_pos].
  - rewrite Pos2Z.inj_succ. replace (Z.succ (Zpos (digits2_pos m)) - 1) with (Z.succ (Zpos (digits2_pos m) - 1)) by lia.
    rewrite !Z.pow_succ_r by lia. lia.
  - rewrite Pos2Z.inj_succ. replace (Z.succ (Zpos (digits2_pos m)) - 1) with (Z.succ (Zpos (digits2_pos m) - 1)) by lia.
    rewrite !Z.pow_succ_r by lia. lia.
  - cbn. lia.
Qed.

Lemma shr_1_m (r : shr_record) : 0 <= shr_m r -> shr_m (shr_1 r) = shr_m r / 2.
Proof.
  destruct r as [m rr s]. cbn [shr_m]. intros Hm.
  destruct m as [|[p|p|]|p]; cbn [shr_1 shr_m].
  - reflexivity.
  - apply Z.div_unique with (r := 1); lia.
  - apply Z.div_unique with (r := 0); lia.
  - reflexivity.
  - lia.
Qed.

Lemma iter_pos_shr_1_m (p : positive) (r : shr_record) :
  0 <= shr_m r -> shr_m (SpecFloat.iter_pos shr_1 p r) = shr_m r / 2 ^ Zpos p.
Proof.
  revert r. induction p as [p IH|p IH|]; intros r Hr; cbn [SpecFloat.iter_pos].
  - assert (H1 : 0 <= shr_m (shr_1 r)) by (rewrite shr_1_m by assumption; apply Z.div_pos; lia).
    assert (H2 : 0 <= shr_m (SpecFloat.iter_pos shr_1 p (shr_1 r))) by (rewrite IH by assumption; apply Z.div_pos; lia).
    rewrite IH, IH, shr_1_m by assumption.
    rewrite !Z.div_div by lia. f_equal.
    rewrite Pos2Z.inj_xI.
    replace (2 * Zpos p + 1) with (1 + Zpos p + Zpos p) by lia.
    rewrite !Z.pow_add_r by lia. lia.
  - assert (H2 : 0 <= shr_m (SpecFloat.iter_pos shr_1 p r)) by (rewrite IH by assumption; apply Z.div_pos; lia).
    rewrite IH, IH by assumption. rewrite Z.div_div by lia. f_equal.
    rewrite Pos2Z.inj_xO. rewrite <- Z.pow_add_r by lia. f_equal. lia.
  - rewrite shr_1_m by assumption. reflexivity.
Qed.

Lemma shr_record_of_loc_m (m : Z) (l : location) : shr_m (shr_record_of_loc m l) = m.
Proof. destruct l as [|[| |]]; reflexivity. Qed.

Lemma Zdigits2_bounds (m : Z) : 0 < m -> 2 ^ (Zdigits2 m - 1) <= m < 2 ^ Zdigits2 m.
Proof. destruct m as [|p|p]; try lia. intros _. apply digits2_pos_bounds. Qed.

Lemma Zdigits2_pos (m : Z) : 0 < m -> 0 < Zdigits2 m.
Proof. destruct m; cbn; lia. Qed.

Lemma fexp_emin (x : Z) : emin <= fexp prec emax x.
Proof. unfold fexp. lia. Qed.

(** Rounding keeps a mantissa above the subnormal range positive. *)
Lemma shr_fexp_positive (m e : Z) (l : location) :
  0 < m -> emin <= e ->
  0 < shr_m (fst (shr_fexp prec emax m e l)) /\ emin <= snd (shr_fexp prec emax m e l).
Proof.
  intros Hm He. unfold shr_fexp, shr.
  pose proof (Zdigits2_bounds m Hm) as Hd. pose proof (Zdigits2_pos m Hm) as Hd0.
  destruct (fexp prec emax (Zdigits2 m + e) - e) as [|n|n] eqn:Hn; cbn [fst snd];
    rewrite ?shr_record_of_loc_m; try (split; lia).
  rewrite iter_pos_shr_1_m by (rewrite shr_record_of_loc_m; lia).
  rewrite shr_record_of_loc_m.
  assert (Hf : fexp prec emax (Zdigits2 m + e) = Zdigits2 m + e - prec).
  { unfold fexp in *. lia. }
  assert (Hle : Zpos n <= Zdigits2 m - 1) by (unfold prec in *; lia).
  split.
  - apply Z.div_str_pos. split; [apply Z.pow_pos_nonneg; lia|].
    transitivity (2 ^ (Zdigits2 m - 1)); [apply Z.pow_le_mono_r; lia | lia].
  - pose proof (fexp_emin (Zdigits2 m + e)). lia.
Qed.

Lemma round_nearest_even_ge (m : Z) (l : location) : m <= round_nearest_even m l.
Proof. destruct l as [|[| |]]; cbn; try lia. destruct (Z.even m); lia. Qed.

Lemma binary_round_aux_nonzero (s : bool) (m e : Z) (l : location) :
  0 < m -> emin <= e -> signed_nonzero s (binary_round_aux prec emax s m e l).
Proof.
  intros Hm He. unfold binary_round_aux.
  destruct (shr_fexp_positive m e l Hm He) as [H1 H2].
  destruct (shr_fexp prec emax m e l) as [mrs' e']. cbn [fst snd] in H1, H2.
  pose proof (round_nearest_even_ge (shr_m mrs') (loc_of_shr_record mrs')) as Hr.
  destruct (shr_fexp_positive (round_nearest_even (shr_m mrs') (loc_of_shr_record mrs')) e'
              loc_Exact ltac:(lia) H2) as [H3 H4].
  destruct (shr_fexp prec emax _ e' loc_Exact) as [mrs'' e'']. cbn [fst snd] in H3, H4.
  destruct (shr_m mrs'') as [|p|p]; try lia.
  destruct (e'' <=? emax - prec); reflexivity.
Qed.

Lemma bounded_inv (m : positive) (e : Z) :
  bounded prec emax m e = true -> emin <= e /\ Zpos (digits2_pos m) <= prec.
Proof.
  unfold bounded, canonical_mantissa. intros H.
  apply andb_prop in H as [H _]. apply Z.eqb_eq in H. unfold fexp in H. lia.
Qed.

(** A positive float divided by a float below one is not rounded to zero. *)
Lemma SFdiv_nonzero (sx sy : bool) (mx my : positive) (ex ey : Z) :
  bounded prec emax mx ex = true ->
  Zpos (digits2_pos my) + ey <= 0 ->
  signed_nonzero (xorb sx sy)
    (SFdiv prec emax (S754_finite sx mx ex) (S754_finite sy my ey)).
Proof.
  intros Hx Hy. apply bounded_inv in Hx as [Hex Hdx].
  cbn [SFdiv]. unfold SFdiv_core_binary. cbn [Zdigits2].
  pose proof (digits2_pos_bounds mx) as Bx. pose proof (digits2_pos_bounds my) as By.
  set (dx := Zpos (digits2_pos mx)) in *. set (dy := Zpos (digits2_pos my)) in *.
  assert (Hdx0 : 0 < dx) by (unfold dx; lia). assert (Hdy0 : 0 < dy) by (unfold dy; lia).
  set (e' := Z.min (fexp prec emax (dx + ex - (dy + ey))) (ex - ey)).
  assert (He' : emin <= e') by (unfold e', fexp; lia).
  set (s := ex - ey - e').
  assert (Hs : dy - dx + 1 <= s) by (unfold s, e', fexp, prec, emin, emax in *; lia).
  set (m' := match s with Zpos _ => Z.shiftl (Zpos mx) s | 0 => Zpos mx | Zneg _ => 0 end).
  assert (Hm' : m' = Zpos mx * 2 ^ s).
  { unfold m'. destruct s as [|p|p] eqn:Es; [lia | now rewrite Z.shiftl_mul_pow2 by lia | lia]. }
  assert (Hge : Zpos my <= m').
  { assert (Hs0 : 0 <= s) by (unfold s, e'; lia).
    rewrite Hm'. transitivity (2 ^ dy); [lia|].
    transitivity (2 ^ ((dx - 1) + s)); [apply Z.pow_le_mono_r; lia|].
    rewrite Z.pow_add_r by lia.
    apply Z.mul_le_mono_nonneg_r; [apply Z.pow_nonneg; lia | lia]. }
  assert (Hq : 0 < m' / Zpos my) by (apply Z.div_str_pos; lia).
  unfold Z.div in Hq. destruct (Z.div_eucl m' (Zpos my)) as [q r].
  apply binary_round_aux_nonzero; assumption.
Qed.

Lemma Pos_iter_xO (m d : positive) : Zpos (Pos.iter xO m d) = Zpos m * 2 ^ Zpos d.
Proof.
  induction d as [|d IH] using Pos.peano_ind.
  - cbn. lia.
  - rewrite Pos.iter_succ, Pos2Z.inj_xO, IH, Pos2Z.inj_succ, Z.pow_succ_r by lia. lia.
Qed.

Lemma shl_align_value (m : positive) (e e' : Z) :
  e' <= e -> Zpos (fst (shl_align m e e')) = Zpos m * 2 ^ (e - e').
Proof.
  intros H. unfold shl_align. destruct (e' - e) as [|d|d] eqn:Hd; cbn [fst].
  - replace (e - e') with 0 by lia. lia.
  - lia.
  - rewrite Pos_iter_xO. f_equal. f_equal. lia.
Qed.

Lemma shl_align_exponent (m : positive) (e e' : Z) :
  emin <= e -> emin <= e' -> emin <= snd (shl_align m e e').
Proof. intros. unfold shl_align. destruct (e' - e); cbn [snd]; assumption. Qed.

Lemma binary_normalize_positive (D e : Z) :
  0 < D -> emin <= e -> signed_nonzero false (binary_normalize prec emax D e false).
Proof.
  intros HD He. destruct D as [|p|p]; try lia. cbn [binary_normalize]. unfold binary_round.
  pose proof (shl_align_exponent p e (fexp prec emax (Zpos (digits2_pos p) + e)) He (fexp_emin _)) as H.
  destruct (shl_align p e _) as [mz ez]. cbn [snd] in H.
  apply binary_round_aux_nonzero; [lia | assumption].
Qed.

(** [low - x] for [x < low]: the difference of two distinct floats is
    not rounded to zero. *)
Lemma SFsub_positive (ml : positive) (el : Z) (x : spec_float) :
  bounded prec emax ml el = true ->
  Zpos (digits2_pos ml) = prec ->
  valid_binary x = true ->
  SFltb x (S754_finite false ml el) = true ->
  signed_nonzero false (SFsub prec emax (S754_finite false ml el) x).
Proof.
  intros Hl Hdl Hx Hlt. apply bounded_inv in Hl as [Hel _].
  destruct x as [s|s| |sx mx ex]; cbn [SFsub].
  - reflexivity.
  - destruct s; [reflexivity | discriminate].
  - discriminate.
  - cbn [valid_binary] in Hx. apply bounded_inv in Hx as [Hex Hdx].
    pose proof (digits2_pos_bounds mx) as Bx. pose proof (digits2_pos_bounds ml) as Bl.
    rewrite Hdl in Bl.
    apply binary_normalize_positive; [|lia].
    rewrite !shl_align_value by lia.
    assert (Hpx : 0 < 2 ^ (ex - Z.min el ex)) by (apply Z.pow_pos_nonneg; lia).
    assert (Hpl : 0 < 2 ^ (el - Z.min el ex)) by (apply Z.pow_pos_nonneg; lia).
    destruct sx; cbn [cond_Zopp].
    + nia.
    + unfold SFltb, SFcompare in Hlt.
      destruct (Z.compare_spec ex el) as [Heq|Hlt'|Hgt]; try discriminate.
      * subst ex. rewrite Z.min_id, Z.sub_diag.
        change (Pos.compare_cont Eq mx ml) with (mx ?= ml)%positive in Hlt.
        destruct (Pos.compare_spec mx ml) as [?|Hm|?]; try discriminate. lia.
      * rewrite Z.min_r by lia. rewrite Z.sub_diag.
        assert (2 ^ 1 <= 2 ^ (el - ex)) by (apply Z.pow_le_mono_r; lia).
        assert (Zpos mx < 2 ^ prec).
        { eapply Z.lt_le_trans; [apply Bx|]. apply Z.pow_le_mono_r; lia. }
        change (2 ^ prec) with (2 * 2 ^ (prec - 1)) in *. change (2 ^ 1) with 2 in *. nia.
Qed.
End Binary64.

(** ** Running the monad *)

Section Run.
Context {A B : Type}.

Lemma run_bind (m : M A) (k : A -> M B) (w : world) (r : result A) :
  m w = (r, w) ->
  bind m k w = match r with Ok a => k a w | Raise e => (Raise e, w) end.
Proof. intros H. unfold bind. rewrite H. destruct r; reflexivity. Qed.

Lemma run_bind_ok (m : M A) (k : A -> M B) (w : world) (a : A) :
  m w = (Ok a, w) -> bind m k w = k a w.
Proof. intros H. unfold bind. rewrite H. reflexivity. Qed.
End Run.

(** Reading the tables at their module-level values. *)

Ltac world_fields :=
  cbn [module_world w_inputs w_baseline_npk w_FERT_N_CONTENT w_ref_thresholds].

Lemma omap_cons_app {X Y} (f : X -> option Y) (x : X) (l : list X) :
  omap f (x :: l) = option_list (f x) ++ omap f l.
Proof. cbn. destruct (f x); reflexivity. Qed.

Lemma advisory_app (b : bool) (l : list string) (text : string) :
  (if b then l ++ [text] else l) = l ++ option_list (advisory b text).
Proof. destruct b; cbn; [reflexivity | now rewrite app_nil_r]. Qed.

Lemma pH_advisory_app (a b : bool) (l : list string) (t1 t2 : string) :
  (if a then l ++ [t1] else if b then l ++ [t2] else l)
  = l ++ option_list (if a then Some t1 else advisory b t2).
Proof. destruct a, b; cbn; rewrite ?app_nil_r; reflexivity. Qed.

Section ModuleWorld.
Variable inputs : gmap string raw.
Local Abbreviation W := (module_world inputs).

Lemma run_contains (crop : string) :
  contains w_baseline_npk crop W = (Ok (bool_decide (is_Some (baseline_npk !! crop))), W).
Proof. reflexivity. Qed.

Lemma run_baseline (crop : string) (base : float * float * float) :
  baseline_npk !! crop = Some base -> getitem w_baseline_npk crop W = (Ok base, W).
Proof. intros H. unfold getitem. world_fields. rewrite H. reflexivity. Qed.

Lemma run_reading (key : string) : reading key W = (interpreted inputs key, W).
Proof.
  unfold reading, interpreted, bind, inputs_get, getitem, lift. world_fields.
  destruct (ref_thresholds !! key); reflexivity.
Qed.

Lemma run_below (key : string) (t : float * float) (x : float) :
  ref_thresholds !! key = Some t -> below key x W = (Ok (x <? fst t), W).
Proof.
  intros H. unfold below, low_threshold, bind, getitem, ret. world_fields.
  rewrite H. reflexivity.
Qed.

Lemma run_low_threshold (key : string) (t : float * float) :
  ref_thresholds !! key = Some t -> low_threshold key W = (Ok (fst t), W).
Proof.
  intros H. unfold low_threshold, bind, getitem, ret. world_fields.
  rewrite H. reflexivity.
Qed.

Lemma run_fraction_of (product nutrient : string) (d : gmap string float) (c : float) :
  FERT_N_CONTENT !! product = Some (PerNutrient d) -> d !! nutrient = Some c ->
  fraction_of product nutrient W = (Ok c, W).
Proof.
  intros H1 H2. unfold fraction_of, bind, getitem, ret. world_fields.
  rewrite H1, H2. reflexivity.
Qed.

Lemma run_fraction (product : string) (c : float) :
  FERT_N_CONTENT !! product = Some (Fraction c) -> fraction product W = (Ok c, W).
Proof.
  intros H. unfold fraction, bind, getitem, ret. world_fields. rewrite H. reflexivity.
Qed.

Lemma run_dap_P2O5 : fraction_of "dap" "P2O5" W = (Ok 0.46, W).
Proof. now apply run_fraction_of with (d := list_to_map [("N", 0.18); ("P2O5", 0.46)]). Qed.
Lemma run_dap_N : fraction_of "dap" "N" W = (Ok 0.18, W).
Proof. now apply run_fraction_of with (d := list_to_map [("N", 0.18); ("P2O5", 0.46)]). Qed.
Lemma run_urea : fraction "urea" W = (Ok 0.46, W).
Proof. now apply run_fraction. Qed.
Lemma run_mop : fraction_of "mop" "K2O" W = (Ok 0.60, W).
Proof. now apply run_fraction_of with (d := list_to_map [("K2O", 0.60)]). Qed.
Lemma run_gypsum : fraction_of "gypsum" "S" W = (Ok 0.18, W).
Proof. now apply run_fraction_of with (d := list_to_map [("S", 0.18)]). Qed.
Lemma run_znso4 : fraction_of "znso4" "Zn" W = (Ok 0.21, W).
Proof. now apply run_fraction_of with (d := list_to_map [("Zn", 0.21)]). Qed.
Lemma run_borax : fraction_of "borax" "B" W = (Ok 0.11, W).
Proof. now apply run_fraction_of with (d := list_to_map [("B", 0.11)]). Qed.
Lemma run_compost : fraction_of "compost" "OC" W = (Ok 0.5, W).
Proof. now apply run_fraction_of with (d := list_to_map [("OC", 0.5)]). Qed.

(** [if X and test(X): body(X)] with a body that can raise. *)
Lemma run_when {St} (X : option float) (test : float -> M bool) (t : float -> bool)
    (body : float -> St -> M St) (b : float -> St -> result St) (st : St) :
  (forall x, test x W = (Ok (t x), W)) ->
  (forall x, body x st W = (b x st, W)) ->
  when_ X test body st W =
    (match X with
     | Some x => if Float.truthy x && t x then b x st else Ok st
     | None => Ok st
     end, W).
Proof.
  intros Ht Hb. unfold when_. destruct X as [x|]; [|reflexivity].
  destruct (Float.truthy x); [|reflexivity].
  rewrite (run_bind_ok _ _ _ _ (Ht x)). cbn. destruct (t x); [apply Hb|reflexivity].
Qed.

(** ... and with a body that only updates the locals. *)
Lemma run_when_ret {St} (X : option float) (test : float -> M bool) (t : float -> bool)
    (g : St -> St) (st : St) :
  (forall x, test x W = (Ok (t x), W)) ->
  when_ X test (fun _ st => ret (g st)) st W = (Ok (if holds X t then g st else st), W).
Proof.
  intros Ht. rewrite (run_when X test t _ (fun _ st => Ok (g st)) st Ht) by reflexivity.
  unfold holds. destruct X as [x|]; [|reflexivity].
  destruct (Float.truthy x && t x); reflexivity.
Qed.

(** An advisory block. *)
Lemma run_advisory (X : option float) (key : string) (t : float * float)
    (text : string) (messages : list string) :
  ref_thresholds !! key = Some t ->
  when_ X (below key) (fun _ messages => ret (messages ++ [text])) messages W =
  (Ok (messages ++ option_list (advisory (is_low X (fst t)) text)), W).
Proof.
  intros Ht.
  rewrite (run_when_ret X (below key) (fun x => x <? fst t) _ _
             (fun x => run_below key t x Ht)).
  unfold is_low. now rewrite advisory_app.
Qed.

(** A product block: quantity, plan entry and message. *)
Lemma run_low_block (X : option float) (key product nutrient label : string)
    (t : float * float) (c : float) (scale : Z -> Z) (text : Z -> string)
    (fert_plan : plan) (messages : list string) :
  let low := fst t in
  ref_thresholds !! key = Some t ->
  fraction_of product nutrient W = (Ok c, W) ->
  when_ X (below key)
    (fun x '(fert_plan, messages) =>
       do low <- low_threshold key ;
       do c <- fraction_of product nutrient ;
       do needed <- lift (round_up ((low - x) / c)) ;
       ret (<[label := scale needed]> fert_plan, messages ++ [text needed]))
    (fert_plan, messages) W =
  (try q <- low_quantity X low c ;
   Ok (record label (scale <$> q) fert_plan, messages ++ option_list (text <$> q)), W).
Proof.
  intros low Ht Hc. subst low.
  pose proof (fun x => run_below key t x Ht) as Hb.
  pose proof (run_low_threshold key t Ht) as Hl.
  rewrite (run_when X (below key) (fun x => x <? fst t) _
    (fun x st => try needed <- round_up ((fst t - x) / c) ;
                 Ok (<[label := scale needed]> (fst st), snd st ++ [text needed]))
    (fert_plan, messages) Hb).
  - unfold low_quantity, quantity. destruct X as [x|]; cbn; [|now rewrite app_nil_r].
    destruct (Float.truthy x && (x <? fst t)); cbn; [|now rewrite app_nil_r].
    destruct (round_up ((fst t - x) / c)); reflexivity.
  - intros x. rewrite (run_bind_ok _ _ _ _ Hl), (run_bind_ok _ _ _ _ Hc).
    unfold bind, lift, ret. cbn. destruct (round_up ((fst t - x) / c)); reflexivity.
Qed.

(** The same for a gap tested against zero. *)
Lemma run_gap_block (gap c : float) (fr : M float) (label : string) (text : Z -> string)
    (fert_plan : plan) (messages : list string) :
  fr W = (Ok c, W) ->
  (if 0 <? gap then
     do c <- fr ;
     do needed <- lift (round_up (gap / c)) ;
     ret (<[label := needed]> fert_plan, messages ++ [text needed])
   else ret (fert_plan, messages)) W =
  (try q <- quantity (0 <? gap) gap c ;
   Ok (record label q fert_plan, messages ++ option_list (text <$> q)), W).
Proof.
  intros Hc. unfold quantity. destruct (0 <? gap); cbn; [|now rewrite app_nil_r].
  rewrite (run_bind_ok _ _ _ _ Hc). unfold bind, lift, ret. cbn.
  destruct (round_up (gap / c)); reflexivity.
Qed.

Lemma run_dap_block (need_P2O5 : float) (text : Z -> string)
    (fert_plan : plan) (messages : list string) :
  (if 0 <? need_P2O5 then
     do c <- fraction_of "dap" "P2O5" ;
     do dap_needed <- lift (round_up (need_P2O5 / c)) ;
     do c_N <- fraction_of "dap" "N" ;
     do dap_float <- lift (Float.of_int dap_needed) ;
     ret (dap_float * c_N, <["DAP_kg/ha" := dap_needed]> fert_plan,
          messages ++ [text dap_needed])
   else ret (0, fert_plan, messages)) W =
  (try q <- quantity (0 <? need_P2O5) need_P2O5 0.46 ;
   try N_from_dap <- credit q ;
   Ok (N_from_dap, record "DAP_kg/ha" q fert_plan, messages ++ option_list (text <$> q)), W).
Proof.
  unfold quantity. destruct (0 <? need_P2O5); cbn; [|now rewrite app_nil_r].
  rewrite (run_bind_ok _ _ _ _ run_dap_P2O5). unfold lift at 1.
  unfold bind at 1. destruct (round_up (need_P2O5 / 0.46)) as [q|e]; [|reflexivity].
  rewrite (run_bind_ok _ _ _ _ run_dap_N). cbn.
  unfold bind, lift, ret. destruct (Float.of_int q); reflexivity.
Qed.
End ModuleWorld.

(** ** The call returns what the rules give *)

Ltac read_key inputs k :=
  rewrite (run_bind _ _ _ _ (run_reading inputs k));
  destruct (interpreted inputs k) as [?|?]; cbn [rbind]; [|reflexivity].

(** Case analysis on the first result the right-hand side binds. *)
Ltac split_result :=
  lazymatch goal with
  | |- match rbind ?r _ with Ok _ => _ | Raise _ => _ end = _ =>
      destruct r as [?|?]; cbn [rbind]; [|reflexivity]
  end.

Ltac run_block tac :=
  erewrite run_bind; [|tac]; cbn [fst snd]; split_result; cbv beta iota.

Theorem run_recommend (inputs : gmap string raw) (crop_name : string) :
  recommend_for_farmer crop_name (module_world inputs)
  = (engine inputs crop_name, module_world inputs).
Proof.
  unfold recommend_for_farmer, engine.
  rewrite (run_bind_ok _ _ _ _ (run_contains inputs _)).
  destruct (baseline_npk !! Str.lower crop_name) as [[[base_N base_P2O5] base_K2O]|] eqn:Hbase.
  2: { reflexivity. }
  rewrite bool_decide_true by eauto. cbn [negb].
  unfold interpret_all.
  read_key inputs "N". read_key inputs "P". read_key inputs "K". read_key inputs "S".
  read_key inputs "Zn". read_key inputs "Fe". read_key inputs "Cu". read_key inputs "Mn".
  read_key inputs "B". read_key inputs "OC". read_key inputs "pH". read_key inputs "EC".
  rewrite (run_bind_ok _ _ _ _ (run_baseline inputs _ _ Hbase)).
  cbv beta iota.
  rewrite (run_bind_ok _ _ _ _
    (run_when_ret inputs _ _ (fun x => x <? 0.5) _ _
       (fun x => run_below inputs "OC" (0.5, 0.8) x eq_refl))).
  unfold evaluate, gaps, saline, is_low, remaining.
  cbn [rd_N rd_P rd_K rd_S rd_Zn rd_Fe rd_Cu rd_Mn rd_B rd_OC rd_pH rd_EC fst snd].
  destruct (if holds _ (fun ec => 4 <? ec) then _ else _) as [[need_N need_P2O5] need_K2O].
  run_block ltac:(apply (run_dap_block inputs)).
  split_result. cbv beta iota.
  run_block ltac:(eapply (run_gap_block inputs); apply run_urea).
  run_block ltac:(eapply (run_gap_block inputs); apply run_mop).
  run_block ltac:(eapply (run_low_block inputs) with (t := (10, 20)); [reflexivity | apply run_gypsum]).
  run_block ltac:(eapply (run_low_block inputs) with (t := (0.6, 1.5)); [reflexivity | apply run_znso4]).
  run_block ltac:(eapply (run_low_block inputs) with (t := (0.5, 1)); [reflexivity | apply run_borax]).
  run_block ltac:(eapply (run_low_block inputs) with (t := (0.5, 0.8)); [reflexivity | apply run_compost]).
  rewrite (run_bind_ok _ _ _ _ (run_advisory inputs _ "Fe" (4.5, 10) _ _ eq_refl)).
  rewrite (run_bind_ok _ _ _ _ (run_advisory inputs _ "Cu" (0.2, 1) _ _ eq_refl)).
  rewrite (run_bind_ok _ _ _ _ (run_advisory inputs _ "Mn" (2, 5) _ _ eq_refl)).
  cbn [fst]. rewrite advisory_app, pH_advisory_app.
  unfold ret. f_equal. f_equal. f_equal.
  - unfold messages_of, rule_order. rewrite !omap_cons_app. cbn [omap].
    rewrite !app_assoc, app_nil_r. reflexivity.
  - unfold plan_of. cbn [o_dap o_urea o_mop o_gypsum o_znso4 o_borax o_compost].
    repeat match goal with q : option Z |- _ => destruct q end; reflexivity.
Qed.

(** A call returns what the rules give. *)
Corollary call_engine (inputs : gmap string raw) (crop_name : string) :
  call inputs crop_name = engine inputs crop_name.
Proof. unfold call. now rewrite run_recommend. Qed.

(** ** The engine only reads the world *)

Section Preserves.
Context {A B : Type}.

Lemma preserves_ret (a : A) : preserves (ret a).
Proof. intros w. reflexivity. Qed.

Lemma preserves_raise (e : exn) : preserves (@raise A e).
Proof. intros w. reflexivity. Qed.

Lemma preserves_lift (r : result A) : preserves (lift r).
Proof. intros w. reflexivity. Qed.

Lemma preserves_bind (m : M A) (k : A -> M B) :
  preserves m -> (forall a, preserves (k a)) -> preserves (bind m k).
Proof.
  intros Hm Hk w. unfold bind. specialize (Hm w).
  destruct (m w) as [[a|e] w']; cbn in Hm; subst w'; [apply Hk | reflexivity].
Qed.

Lemma preserves_contains (table : world -> gmap string A) (key : string) :
  preserves (contains table key).
Proof. intros w. reflexivity. Qed.

Lemma preserves_getitem (table : world -> gmap string A) (key : string) :
  preserves (getitem table key).
Proof. intros w. unfold getitem. destruct (table w !! key); reflexivity. Qed.

End Preserves.

Lemma preserves_when {A} (X : option float) (test : float -> M bool)
    (body : float -> A -> M A) (st : A) :
  (forall x, preserves (test x)) -> (forall x, preserves (body x st)) ->
  preserves (when_ X test body st).
Proof.
  intros Ht Hb. unfold when_. destruct X as [x|]; [|apply preserves_ret].
  destruct (Float.truthy x); [|apply preserves_ret].
  apply preserves_bind; [apply Ht|]. intros [|]; [apply Hb | apply preserves_ret].
Qed.

Lemma preserves_inputs_get (key : string) : preserves (inputs_get key).
Proof. intros w. reflexivity. Qed.

Lemma preserves_fraction (product : string) : preserves (fraction product).
Proof.
  apply preserves_bind; [apply preserves_getitem|].
  intros [x|d]; [apply preserves_ret | apply preserves_raise].
Qed.

Lemma preserves_fraction_of (product nutrient : string) :
  preserves (fraction_of product nutrient).
Proof.
  apply preserves_bind; [apply preserves_getitem|].
  intros [x|d]; [apply preserves_raise|].
  destruct (d !! nutrient); [apply preserves_ret | apply preserves_raise].
Qed.

Lemma preserves_low_threshold (key : string) : preserves (low_threshold key).
Proof.
  apply preserves_bind; [apply preserves_getitem | intros; apply preserves_ret].
Qed.

Lemma preserves_below (key : string) (x : float) : preserves (below key x).
Proof.
  apply preserves_bind; [apply preserves_low_threshold | intros; apply preserves_ret].
Qed.

Lemma preserves_reading (key : string) : preserves (reading key).
Proof.
  apply preserves_bind; [apply preserves_inputs_get | intros].
  apply preserves_bind; [apply preserves_getitem | intros; apply preserves_lift].
Qed.

Create HintDb frame discriminated.
#[local] Hint Resolve preserves_ret preserves_raise preserves_lift preserves_contains
  preserves_getitem preserves_inputs_get preserves_fraction preserves_fraction_of
  preserves_low_threshold preserves_below preserves_reading : frame.

Ltac frame :=
  repeat first
    [ solve [auto with frame]
    | apply preserves_bind; [|intros]
    | apply preserves_when; intros
    | match goal with
      | |- preserves (if ?b then _ else _) => destruct b
      | |- preserves (match ?x with _ => _ end) => destruct x
      end ].

Lemma recommend_for_farmer_preserves (crop_name : string) :
  preserves (recommend_for_farmer crop_name).
Proof. unfold recommend_for_farmer. frame. Qed.

(** ** Reading a result back *)

Lemma rbind_Ok {A B} (r : result A) (k : A -> result B) (b : B) :
  rbind r k = Ok b -> exists a, r = Ok a /\ k a = Ok b.
Proof. destruct r as [a|e]; cbn; [eauto | discriminate]. Qed.

Lemma rbind_Raise {A B} (r : result A) (k : A -> result B) (e : exn) :
  rbind r k = Raise e -> r = Raise e \/ exists a, r = Ok a /\ k a = Raise e.
Proof. destruct r as [a|e']; cbn; [eauto | intros [= ->]; now left]. Qed.

Lemma quantity_Ok (fires : bool) (gap c : float) (q : option Z) :
  quantity fires gap c = Ok q ->
  if fires then exists n, round_up (gap / c) = Ok n /\ q = Some n else q = None.
Proof.
  unfold quantity. destruct fires; [|now intros [= <-]].
  intros H. apply rbind_Ok in H as (n & Hn & [= <-]). eauto.
Qed.

Lemma low_quantity_Ok (X : option float) (low c : float) (q : option Z) :
  low_quantity X low c = Ok q ->
  if is_low X low then
    exists x n, X = Some x /\ round_up ((low - x) / c) = Ok n /\ q = Some n
  else q = None.
Proof.
  unfold low_quantity, is_low, holds. destruct X as [x|]; [|now intros [= <-]].
  intros H. apply quantity_Ok in H. destruct (Float.truthy x && (x <? low)); [|exact H].
  destruct H as (n & Hn & ->). eauto.
Qed.

(** What [evaluate] returned, rule by rule. *)
Lemma evaluate_Ok (base : float * float * float) (rd : readings) (o : outcome) :
  evaluate base rd = Ok o ->
  exists N_from_dap,
    quantity (0 <? snd (fst (gaps base rd))) (snd (fst (gaps base rd))) 0.46 = Ok (o_dap o)
    /\ credit (o_dap o) = Ok N_from_dap
    /\ quantity (0 <? remaining (fst (fst (gaps base rd))) N_from_dap)
         (remaining (fst (fst (gaps base rd))) N_from_dap) 0.46 = Ok (o_urea o)
    /\ quantity (0 <? snd (gaps base rd)) (snd (gaps base rd)) 0.60 = Ok (o_mop o)
    /\ low_quantity (rd_S rd) 10 0.18 = Ok (o_gypsum o)
    /\ low_quantity (rd_Zn rd) 0.6 0.21 = Ok (o_znso4 o)
    /\ low_quantity (rd_B rd) 0.5 0.11 = Ok (o_borax o)
    /\ low_quantity (rd_OC rd) 0.5 0.5 = Ok (o_compost o)
    /\ o_fe o = is_low (rd_Fe rd) 4.5
    /\ o_cu o = is_low (rd_Cu rd) 0.2
    /\ o_mn o = is_low (rd_Mn rd) 2
    /\ o_acidic o = holds (rd_pH rd) (fun ph => ph <? 6.0)
    /\ o_alkaline o = holds (rd_pH rd) (fun ph => 8.5 <? ph)
    /\ o_saline o = saline (rd_EC rd).
Proof.
  unfold evaluate. destruct (gaps base rd) as [[need_N need_P2O5] need_K2O]. cbn [fst snd].
  intros H.
  apply rbind_Ok in H as (dap & Hdap & H).
  apply rbind_Ok in H as (N_from_dap & Hcredit & H).
  apply rbind_Ok in H as (urea & Hurea & H).
  apply rbind_Ok in H as (mop & Hmop & H).
  apply rbind_Ok in H as (gypsum & Hgypsum & H).
  apply rbind_Ok in H as (znso4 & Hznso4 & H).
  apply rbind_Ok in H as (borax & Hborax & H).
  apply rbind_Ok in H as (compost & Hcompost & H).
  injection H as <-. cbn. exists N_from_dap. repeat split; assumption.
Qed.

(** What a call that returned went through. *)
Lemma call_Ok (inputs : gmap string raw) (crop_name : string)
    (messages : list string) (fert_plan : plan) :
  call inputs crop_name = Ok (messages, fert_plan) ->
  exists base rd o,
    baseline_npk !! Str.lower crop_name = Some base
    /\ interpret_all inputs = Ok rd
    /\ evaluate base rd = Ok o
    /\ messages = messages_of crop_name o
    /\ fert_plan = plan_of o.
Proof.
  rewrite call_engine. unfold engine.
  destruct (baseline_npk !! Str.lower crop_name) as [base|]; [|discriminate].
  intros H. apply rbind_Ok in H as (rd & Hrd & H). apply rbind_Ok in H as (o & Ho & H).
  injection H as <- <-. exists base, rd, o. repeat split; assumption.
Qed.

(** The entries of the plan. *)
Lemma lookup_record (label key : string) (q : option Z) (fert_plan : plan) :
  record label q fert_plan !! key =
    match q with
    | Some v => if String.eqb label key then Some v else fert_plan !! key
    | None => fert_plan !! key
    end.
Proof.
  unfold record. destruct q as [v|]; [|reflexivity].
  destruct (String.eqb_spec label key) as [->|Hne].
  - apply lookup_insert_eq.
  - now apply lookup_insert_ne.
Qed.


(** ** Floats of the engine: comparisons with zero, gaps and quotients *)

Lemma gt0_spec (x : float) : (0 <? x) = true <-> signed_nonzero false (Prim2SF x).
Proof.
  rewrite FloatAxioms.ltb_spec. change (Prim2SF 0) with (S754_zero false).
  destruct (Prim2SF x) as [s|[|]| |[|] m e]; cbn; intuition congruence.
Qed.

(** [x <= 0] excludes [0 < x]. *)
Lemma le0_not_gt0 (x : float) : (x <=? 0) = true -> (0 <? x) = false.
Proof.
  rewrite FloatAxioms.leb_spec, FloatAxioms.ltb_spec. change (Prim2SF 0) with (S754_zero false).
  destruct (Prim2SF x) as [s|[|]| |[|] m e]; cbn; congruence.
Qed.

(** A truthy reading is not a zero. *)
Lemma truthy_spec (x : float) :
  Float.truthy x = true <-> forall s, Prim2SF x <> S754_zero s.
Proof.
  unfold Float.truthy. rewrite FloatAxioms.eqb_spec. change (Prim2SF 0) with (S754_zero false).
  destruct (Prim2SF x) as [s|[|]| |[|] m e]; cbn; split; try congruence;
    intros H; try reflexivity; exfalso; now apply (H s).
Qed.

(** [low - x] is positive for [x < low], for a normal positive [low]. *)
Lemma sub_gt0 (low x : float) (ml : positive) (el : Z) :
  Prim2SF low = S754_finite false ml el ->
  Zpos (digits2_pos ml) = prec ->
  (x <? low) = true -> (0 <? low - x) = true.
Proof.
  intros Hlow Hd Hlt. apply gt0_spec. rewrite sub_spec, Hlow.
  rewrite FloatAxioms.ltb_spec, Hlow in Hlt.
  apply SFsub_positive; [|assumption|apply Prim2SF_valid|assumption].
  pose proof (Prim2SF_valid low) as Hv. now rewrite Hlow in Hv.
Qed.

(** [gap / c] is positive for a positive [gap], for a positive [c] below one. *)
Lemma div_gt0 (gap c : float) (mc : positive) (ec : Z) :
  Prim2SF c = S754_finite false mc ec ->
  (Zpos (digits2_pos mc) + ec <= 0)%Z ->
  (0 <? gap) = true -> (0 <? gap / c) = true.
Proof.
  intros Hc Hd Hgap. apply gt0_spec. apply gt0_spec in Hgap. rewrite div_spec, Hc.
  pose proof (Prim2SF_valid gap) as Hv.
  destruct (Prim2SF gap) as [s|s| |s m e]; cbn in Hgap; try contradiction; subst s.
  - reflexivity.
  - now apply (SFdiv_nonzero false false).
Qed.

(** The ceiling of a positive float is at least one. *)
Lemma ceil_gt0 (x : float) (n : Z) : (0 <? x) = true -> Float.ceil x = Ok n -> (1 <= n)%Z.
Proof.
  intros Hx. apply gt0_spec in Hx. unfold Float.ceil.
  destruct (Prim2SF x) as [s|s| |s m e]; cbn in Hx; try contradiction; try discriminate.
  subst s. cbn. intros [= <-].
  destruct (Z.leb_spec 0 e).
  - assert (0 < 2 ^ e)%Z by (apply Z.pow_pos_nonneg; lia). nia.
  - assert (0 < 2 ^ (- e))%Z by (apply Z.pow_pos_nonneg; lia).
    assert (Z.neg m / 2 ^ (- e) < 0)%Z by (apply Z.div_lt_upper_bound; lia). lia.
Qed.

(** [math.ceil(x)] is the least integer that is not below [x]. *)
Lemma ceil_spec (x : float) (n : Z) :
  Float.ceil x = Ok n ->
  (Float.to_Q x <= inject_Z n)%Q /\ (inject_Z (n - 1) < Float.to_Q x)%Q.
Proof.
  unfold Float.ceil, Float.to_Q.
  destruct (Prim2SF x) as [s|s| |s m e]; cbn [Float.ceil_sf Float.SF2Q]; try discriminate.
  - intros [= <-]. split; [apply Qle_refl | reflexivity].
  - intros [= <-]. set (v := if s then Z.neg m else Z.pos m).
    destruct (Z.leb_spec 0 e) as [He|He].
    + assert (Hv : ((if s then - inject_Z (Z.pos m * 2 ^ e) else inject_Z (Z.pos m * 2 ^ e))
                    == inject_Z (v * 2 ^ e))%Q).
      { unfold v. destruct s; [|reflexivity]. rewrite <- inject_Z_opp. apply inject_Z_injective. lia. }
      rewrite Hv. split; [apply Qle_refl|]. rewrite <- Zlt_Qlt. lia.
    + assert (Hp : (0 < 2 ^ (- e))%Z) by (apply Z.pow_pos_nonneg; lia).
      assert (Hv : ((if s then - (Z.pos m # Z.to_pos (2 ^ (- e))) else Z.pos m # Z.to_pos (2 ^ (- e)))
                    == v # Z.to_pos (2 ^ (- e)))%Q).
      { unfold v. destruct s; reflexivity. }
      rewrite Hv.
      pose proof (Z.div_mod (- v) (2 ^ (- e)) ltac:(lia)) as Hdm.
      pose proof (Z.mod_pos_bound (- v) (2 ^ (- e)) Hp) as Hmod.
      unfold Qle, Qlt. cbn [Qnum Qden inject_Z]. rewrite Z2Pos.id by assumption.
      split; nia.
Qed.

Lemma fractions_below_one :
  below_one 0.46 = true /\ below_one 0.60 = true /\ below_one 0.18 = true
  /\ below_one 0.21 = true /\ below_one 0.11 = true /\ below_one 0.5 = true.
Proof. repeat split; vm_compute; exact eq_refl. Qed.

Lemma thresholds_normal :
  normal_positive 10 = true /\ normal_positive 0.6 = true /\ normal_positive 0.5 = true.
Proof. repeat split; vm_compute; exact eq_refl. Qed.

Lemma div_fraction_gt0 (gap c : float) :
  below_one c = true -> (0 <? gap) = true -> (0 <? gap / c) = true.
Proof.
  unfold below_one. destruct (Prim2SF c) as [| | |[|] m e] eqn:Hc; try discriminate.
  intros H. apply Z.leb_le in H. now apply (div_gt0 gap c m e).
Qed.

Lemma sub_threshold_gt0 (low x : float) :
  normal_positive low = true -> (x <? low) = true -> (0 <? low - x) = true.
Proof.
  unfold normal_positive. destruct (Prim2SF low) as [| | |[|] m e] eqn:Hl; try discriminate.
  intros H. apply Z.eqb_eq in H. now apply (sub_gt0 low x m e).
Qed.

(** A rounded-up quotient of a positive gap: at least the quotient, and
    at least one. *)
Lemma round_up_quotient (gap c : float) (n : Z) :
  below_one c = true -> (0 <? gap) = true -> round_up (gap / c) = Ok n ->
  (Float.to_Q (gap / c) <= inject_Z n)%Q /\ (1 <= n)%Z.
Proof.
  intros Hc Hgap Hn. split.
  - now apply ceil_spec.
  - apply (ceil_gt0 (gap / c)); [now apply div_fraction_gt0 | exact Hn].
Qed.

(** ** The entries of the plan *)

Lemma plan_of_entries (o : outcome) :
  plan_of o !! "DAP_kg/ha" = o_dap o
  /\ plan_of o !! "Urea_kg/ha" = o_urea o
  /\ plan_of o !! "MOP_kg/ha" = o_mop o
  /\ plan_of o !! "Gypsum_kg/ha" = o_gypsum o
  /\ plan_of o !! "ZnSO4_kg/ha" = o_znso4 o
  /\ plan_of o !! "Borax_kg/ha" = o_borax o
  /\ plan_of o !! "Compost_kg/ha" = (fun q => q * 1000)%Z <$> o_compost o.
Proof.
  unfold plan_of.
  repeat split; rewrite ?lookup_record; cbn [String.eqb Ascii.eqb Bool.eqb];
    rewrite ?lookup_empty;
    destruct (o_compost o), (o_borax o), (o_znso4 o), (o_gypsum o), (o_mop o),
      (o_urea o), (o_dap o); reflexivity.
Qed.

Lemma lookup_record_Some (label key : string) (q : option Z) (fert_plan : plan) (v : Z) :
  record label q fert_plan !! key = Some v ->
  (key = label /\ q = Some v) \/ fert_plan !! key = Some v.
Proof.
  rewrite lookup_record. destruct q as [n|]; [|now right].
  destruct (String.eqb_spec label key) as [->|Hne]; [intros [= ->]; now left | now right].
Qed.

(** Every entry of the plan is one of the seven. *)
Lemma plan_of_lookup_In (o : outcome) (key : string) (v : Z) :
  plan_of o !! key = Some v -> In (key, Some v) (entries o).
Proof.
  unfold plan_of, entries. intros H.
  repeat (apply lookup_record_Some in H as [[-> Hq]|H];
          [try rewrite <- Hq; cbn; tauto|]).
  discriminate H.
Qed.

(** ** What a call can raise *)

Lemma baseline_lookup_None (crop : string) :
  baseline_npk !! crop = None <-> ~ In crop supported_crops.
Proof.
  unfold baseline_npk. rewrite <- not_elem_of_list_to_map.
  cbn [fmap list_fmap fst]. now rewrite list_elem_of_In.
Qed.

Lemma round_up_raises (x : float) (e : exn) :
  (0 <? x) = true -> round_up x = Raise e -> overflow e.
Proof.
  intros Hx. apply gt0_spec in Hx. unfold round_up, Float.ceil.
  destruct (Prim2SF x) as [?|?| |? ? ?]; cbn [Float.ceil_sf]; try contradiction;
    intros H; try discriminate H.
  injection H as <-. now eexists.
Qed.

Lemma of_int_raises (n : Z) (e : exn) : Float.of_int n = Raise e -> overflow e.
Proof.
  unfold Float.of_int. destruct (binary_normalize prec emax n 0 false);
    intros H; try discriminate H. injection H as <-. now eexists.
Qed.

Lemma interpret_raises (value : raw) (low high : float) (e : exn) :
  interpret value low high = Raise e -> overflow e.
Proof.
  unfold interpret. destruct value as [|b|n|x|s]; try (intros H; discriminate H).
  - intros H. apply rbind_Raise in H as [H|(x & _ & H)]; [|discriminate H].
    now apply of_int_raises in H.
  - repeat match goal with |- context [if ?c then _ else _] => destruct c end;
      intros H; discriminate H.
Qed.

Lemma interpreted_raises (inputs : gmap string raw) (key : string) (e : exn) :
  is_Some (ref_thresholds !! key) -> interpreted inputs key = Raise e -> overflow e.
Proof.
  unfold interpreted. intros [t ->]. apply interpret_raises.
Qed.

Lemma interpret_all_raises (inputs : gmap string raw) (e : exn) :
  interpret_all inputs = Raise e -> overflow e.
Proof.
  unfold interpret_all. intros H.
  repeat (apply rbind_Raise in H as [H|(? & _ & H)];
          [apply interpreted_raises in H; [exact H | eexists; reflexivity]|]).
  discriminate.
Qed.

Lemma quantity_raises (gap c : float) (e : exn) :
  below_one c = true -> quantity (0 <? gap) gap c = Raise e -> overflow e.
Proof.
  intros Hc. unfold quantity. destruct (0 <? gap) eqn:Hgap; [|intros H; discriminate H].
  intros H. apply rbind_Raise in H as [H|(? & _ & H)]; [|discriminate H].
  apply round_up_raises in H; [exact H | now apply div_fraction_gt0].
Qed.

Lemma low_quantity_raises (X : option float) (low c : float) (e : exn) :
  normal_positive low = true -> below_one c = true ->
  low_quantity X low c = Raise e -> overflow e.
Proof.
  intros Hlow Hc. unfold low_quantity, quantity.
  destruct X as [x|]; [|intros H; discriminate H].
  destruct (Float.truthy x && (x <? low)) eqn:Hf; [|intros H; discriminate H].
  apply andb_prop in Hf as [_ Hlt].
  intros H. apply rbind_Raise in H as [H|(? & _ & H)]; [|discriminate H].
  apply round_up_raises in H; [exact H|].
  apply div_fraction_gt0; [exact Hc | now apply sub_threshold_gt0].
Qed.

Lemma credit_raises (dap : option Z) (e : exn) : credit dap = Raise e -> overflow e.
Proof.
  unfold credit. destruct dap; [|intros H; discriminate H].
  intros H. apply rbind_Raise in H as [H|(? & _ & H)]; [|discriminate H].
  now apply of_int_raises in H.
Qed.

Lemma evaluate_raises (base : float * float * float) (rd : readings) (e : exn) :
  evaluate base rd = Raise e -> overflow e.
Proof.
  destruct fractions_below_one as (F46 & F60 & F18 & F21 & F11 & F50).
  destruct thresholds_normal as (T10 & T06 & T05).
  unfold evaluate. destruct (gaps base rd) as [[need_N need_P2O5] need_K2O]. intros H.
  apply rbind_Raise in H as [H|(? & _ & H)]; [now apply quantity_raises in H|].
  apply rbind_Raise in H as [H|(? & _ & H)]; [now apply credit_raises in H|].
  apply rbind_Raise in H as [H|(? & _ & H)]; [now apply quantity_raises in H|].
  apply rbind_Raise in H as [H|(? & _ & H)]; [now apply quantity_raises in H|].
  repeat (apply rbind_Raise in H as [H|(? & _ & H)]; [now apply low_quantity_raises in H|]).
  discriminate.
Qed.

(** For a supported crop, only an OverflowError can be raised. *)
Lemma supported_raises (inputs : gmap string raw) (crop_name : string) (e : exn) :
  In (Str.lower crop_name) supported_crops ->
  call inputs crop_name = Raise e -> overflow e.
Proof.
  intros Hin. rewrite call_engine. unfold engine.
  destruct (baseline_npk !! Str.lower crop_name) as [base|] eqn:Hb.
  - intros H. apply rbind_Raise in H as [H|(rd & _ & H)]; [now apply interpret_all_raises in H|].
    apply rbind_Raise in H as [H|(? & _ & H)]; [|discriminate H].
    now apply evaluate_raises in H.
  - apply baseline_lookup_None in Hb. contradiction.
Qed.

Lemma unsupported_raises (inputs : gmap string raw) (crop_name : string) :
  ~ In (Str.lower crop_name) supported_crops ->
  call inputs crop_name = Raise (UnsupportedCropError (Str.lower crop_name)).
Proof.
  intros Hin. rewrite call_engine. unfold engine.
  apply baseline_lookup_None in Hin. now rewrite Hin.
Qed.

(** ** The claims *)

(** C1. For crop "wheat" with N=100, P=5, K=50, OC=0.3, EC=1, pH=7 and
    the other six readings absent, the engine returns the plan
    {DAP_kg/ha: 120, Urea_kg/ha: 1, Compost_kg/ha: 1000} and exactly the
    three messages for DAP, Urea and Compost, in that order. *)
Theorem C1_wheat_scenario :
  call scenario_inputs "wheat" = Ok (scenario_messages, scenario_plan).
Proof. vm_compute. exact eq_refl. Qed.

(** C3, as amended. The engine raises UnsupportedCropError, with the
    message "Unsupported crop: " followed by the crop in lower case, if
    and only if the crop name in lower case is none of wheat, paddy,
    maize, cotton, mustard; the error is the same whatever the readings;
    and for the five supported crops no UnsupportedCropError is raised:
    the only error there is an OverflowError. *)
Theorem C3_unsupported_crop (inputs : gmap string raw) (crop_name : string) :
  (call inputs crop_name = Raise (UnsupportedCropError (Str.lower crop_name))
     <-> ~ In (Str.lower crop_name) supported_crops)
  /\ (~ In (Str.lower crop_name) supported_crops ->
      forall inputs', call inputs' crop_name = call inputs crop_name)
  /\ (In (Str.lower crop_name) supported_crops ->
      forall crop e, call inputs crop_name = Raise e ->
        e <> UnsupportedCropError crop /\ overflow e).
Proof.
  assert (Hsup : In (Str.lower crop_name) supported_crops ->
            forall crop e, call inputs crop_name = Raise e ->
              e <> UnsupportedCropError crop /\ overflow e).
  { intros Hin crop e He. apply supported_raises in He; [|exact Hin].
    split; [|exact He]. intros ->. destruct He as [msg He]. discriminate He. }
  split; [split|split].
  - intros He Hin. destruct (Hsup Hin (Str.lower crop_name) _ He) as [Hne _]. now apply Hne.
  - apply unsupported_raises.
  - intros Hin inputs'. now rewrite !unsupported_raises.
  - exact Hsup.
Qed.

(** C3, the claim as stated fails: for the supported crop "wheat" and
    the reading N = "-inf", the call raises OverflowError. *)
Lemma C3_supported_crop_raises :
  In (Str.lower "wheat") supported_crops
  /\ call (<["N" := RStr "-inf"]> ∅) "wheat"
     = Raise (OverflowError "cannot convert float infinity to integer").
Proof. split; [now left | vm_compute; exact eq_refl]. Qed.

(** C10. A call hands back the caller's [inputs] and the three global
    tables as it found them, whether it returns or raises. *)
Theorem C10_world_unchanged (crop_name : string) (w : world) :
  snd (recommend_for_farmer crop_name w) = w.
Proof. apply recommend_for_farmer_preserves. Qed.

(** ** The order of the messages *)

Lemma omap_precedes {X Y} (f : X -> option Y) (l : list X) (i j : nat)
    (x1 x2 : X) (y1 y2 : Y) :
  (i < j)%nat -> l !! i = Some x1 -> l !! j = Some x2 -> f x1 = Some y1 -> f x2 = Some y2 ->
  exists l1 l2 l3, omap f l = l1 ++ y1 :: l2 ++ y2 :: l3.
Proof.
  intros Hij Hi Hj H1 H2.
  rewrite <- (take_drop_middle l i x1 Hi).
  assert (Hj' : drop (S i) l !! (j - S i)%nat = Some x2).
  { rewrite lookup_drop. rewrite <- Hj. f_equal. lia. }
  rewrite <- (take_drop_middle (drop (S i) l) (j - S i) x2 Hj').
  rewrite omap_app, omap_cons_app, H1, omap_app, omap_cons_app, H2. cbn.
  eauto.
Qed.

Lemma omap_length_filter {X Y} (f : X -> option Y) (g : X -> bool) (l : list X) :
  (forall x, is_Some (f x) <-> g x = true) ->
  length (omap f l) = length (List.filter g l).
Proof.
  intros H. induction l as [|x l IH]; [reflexivity|]. cbn.
  specialize (H x). destruct (f x) as [y|], (g x); cbn; try (now rewrite IH).
  - destruct H as [H _]. discriminate H. eauto.
  - destruct H as [_ H]. now destruct (H eq_refl).
Qed.

Lemma is_Some_fmap {X Y} (f : X -> Y) (o : option X) : is_Some (f <$> o) <-> is_Some o.
Proof. apply fmap_is_Some. Qed.

Lemma is_Some_advisory (b : bool) (text : string) : is_Some (advisory b text) <-> b = true.
Proof. destruct b; cbn; split; eauto; intros [? [=]] || discriminate. Qed.

Lemma quantity_fires (fires : bool) (gap c : float) (q : option Z) :
  quantity fires gap c = Ok q -> is_Some q <-> fires = true.
Proof.
  intros H. apply quantity_Ok in H. destruct fires.
  - destruct H as (n & _ & ->). split; eauto.
  - subst q. split; [intros [? [=]] | discriminate].
Qed.

Lemma low_quantity_fires (X : option float) (low c : float) (q : option Z) :
  low_quantity X low c = Ok q -> is_Some q <-> is_low X low = true.
Proof.
  intros H. apply low_quantity_Ok in H. destruct (is_low X low).
  - destruct H as (x & n & _ & _ & ->). split; eauto.
  - subst q. split; [intros [? [=]] | discriminate].
Qed.

(** A rule appends a message exactly when its condition holds. *)
Lemma message_fires (crop_name : string) (base : float * float * float) (rd : readings)
    (o : outcome) (N_from_dap : float) (r : rule) :
  evaluate base rd = Ok o -> credit (o_dap o) = Ok N_from_dap ->
  is_Some (message crop_name o r) <-> fires base rd N_from_dap r = true.
Proof.
  intros Ho Hc. apply evaluate_Ok in Ho as (c & Hdap & Hc' & Hurea & Hmop & Hgyp & Hzn & Hbor
    & Hcomp & Hfe & Hcu & Hmn & Hac & Hal & Hsa).
  rewrite Hc in Hc'. injection Hc' as <-.
  unfold fires. destruct (gaps base rd) as [[need_N need_P2O5] need_K2O]. cbn [fst snd] in *.
  destruct r; cbn [message]; rewrite ?is_Some_fmap, ?is_Some_advisory.
  - now apply quantity_fires in Hdap.
  - now apply quantity_fires in Hurea.
  - now apply quantity_fires in Hmop.
  - now apply low_quantity_fires in Hgyp.
  - now apply low_quantity_fires in Hzn.
  - now apply low_quantity_fires in Hbor.
  - now apply low_quantity_fires in Hcomp.
  - now rewrite Hfe.
  - now rewrite Hcu.
  - now rewrite Hmn.
  - rewrite <- Hac, <- Hal. destruct (o_acidic o); cbn; [split; eauto|].
    apply is_Some_advisory.
  - now rewrite Hsa.
Qed.

(** C9. The messages are those of the rules that fire, in the order
    DAP, Urea, MOP, Gypsum, ZnSO4, Borax, Compost, Fe, Cu, Mn, pH, EC:
    the message of an earlier rule precedes that of a later one, and
    each rule that fires contributes exactly one message. *)
Theorem C9_message_order (inputs : gmap string raw) (crop_name : string)
    (messages : list string) (fert_plan : plan) :
  call inputs crop_name = Ok (messages, fert_plan) ->
  exists base rd o N_from_dap,
    baseline_npk !! Str.lower crop_name = Some base
    /\ interpret_all inputs = Ok rd
    /\ evaluate base rd = Ok o
    /\ credit (fert_plan !! "DAP_kg/ha") = Ok N_from_dap
    /\ (forall r, is_Some (message crop_name o r) <-> fires base rd N_from_dap r = true)
    /\ messages = omap (message crop_name o) rule_order
    /\ (forall r1 r2 m1 m2, before r1 r2 ->
          message crop_name o r1 = Some m1 -> message crop_name o r2 = Some m2 ->
          exists l1 l2 l3, messages = l1 ++ m1 :: l2 ++ m2 :: l3)
    /\ length messages = length (List.filter (fires base rd N_from_dap) rule_order).
Proof.
  intros H. apply call_Ok in H as (base & rd & o & Hbase & Hrd & Ho & -> & ->).
  destruct (evaluate_Ok _ _ _ Ho) as (c & _ & Hc & _).
  destruct (plan_of_entries o) as (-> & _).
  exists base, rd, o, c. repeat split; try assumption.
  - now apply message_fires.
  - now apply message_fires.
  - intros r1 r2 m1 m2 (i & j & Hij & Hi & Hj) H1 H2.
    unfold messages_of. now apply (omap_precedes _ _ i j r1 r2).
  - unfold messages_of. apply omap_length_filter. intros r. now apply message_fires.
Qed.

(** C9 on the end-to-end scenario. *)
Lemma C9_message_order_scenario :
  exists base rd o N_from_dap,
    baseline_npk !! Str.lower "wheat" = Some base
    /\ interpret_all scenario_inputs = Ok rd
    /\ evaluate base rd = Ok o
    /\ credit (scenario_plan !! "DAP_kg/ha") = Ok N_from_dap
    /\ (forall r, is_Some (message "wheat" o r) <-> fires base rd N_from_dap r = true)
    /\ scenario_messages = omap (message "wheat" o) rule_order
    /\ (forall r1 r2 m1 m2, before r1 r2 ->
          message "wheat" o r1 = Some m1 -> message "wheat" o r2 = Some m2 ->
          exists l1 l2 l3, scenario_messages = l1 ++ m1 :: l2 ++ m2 :: l3)
    /\ length scenario_messages = length (List.filter (fires base rd N_from_dap) rule_order).
Proof.
  apply (C9_message_order scenario_inputs "wheat" scenario_messages scenario_plan).
  vm_compute. reflexivity.
Defined.

(** ** The quantities of the plan *)

Lemma gap_entry (gap c : float) (q : Z) :
  below_one c = true -> quantity (0 <? gap) gap c = Ok (Some q) ->
  (0 <? gap) = true /\ round_up (gap / c) = Ok q
  /\ (Float.to_Q (gap / c) <= inject_Z q)%Q /\ (1 <= q)%Z.
Proof.
  intros Hc H. apply quantity_Ok in H. destruct (0 <? gap) eqn:Hgap; [|discriminate H].
  destruct H as (n & Hn & [= ->]).
  destruct (round_up_quotient gap c n Hc Hgap Hn). auto.
Qed.

Lemma low_entry (X : option float) (low c : float) (q : Z) :
  normal_positive low = true -> below_one c = true ->
  low_quantity X low c = Ok (Some q) ->
  exists x, X = Some x /\ Float.truthy x = true /\ (x <? low) = true
    /\ (0 <? low - x) = true /\ round_up ((low - x) / c) = Ok q
    /\ (Float.to_Q ((low - x) / c) <= inject_Z q)%Q /\ (1 <= q)%Z.
Proof.
  intros Hlow Hc H. apply low_quantity_Ok in H.
  destruct (is_low X low) eqn:Hfires; [|discriminate H].
  destruct H as (x & n & -> & Hn & [= ->]).
  unfold is_low, holds in Hfires. apply andb_prop in Hfires as [Ht Hlt].
  pose proof (sub_threshold_gt0 low x Hlow Hlt) as Hgap.
  destruct (round_up_quotient (low - x) c n Hc Hgap Hn).
  exists x. auto 10.
Qed.

(** C6. If need_P2O5 > 0 the plan records DAP_kg/ha = ceil(need_P2O5 /
    0.46) and the nitrogen credit is that quantity times 0.18; if
    need_P2O5 <= 0 there is no DAP entry and the credit is 0; the
    remaining nitrogen is max(0, need_N - credit), and Urea_kg/ha =
    ceil(remaining_N / 0.46) is recorded exactly when it is positive. *)
Theorem C6_phosphorus_and_nitrogen (inputs : gmap string raw) (crop_name : string)
    (messages : list string) (fert_plan : plan) :
  call inputs crop_name = Ok (messages, fert_plan) ->
  exists base rd N_from_dap,
    baseline_npk !! Str.lower crop_name = Some base
    /\ interpret_all inputs = Ok rd
    /\ let '(need_N, need_P2O5, need_K2O) := gaps base rd in
       let remaining_N := Float.max 0 (need_N - N_from_dap) in
       (if 0 <? need_P2O5 then
          exists dap_needed dap_float,
            round_up (need_P2O5 / 0.46) = Ok dap_needed
            /\ fert_plan !! "DAP_kg/ha" = Some dap_needed
            /\ Float.of_int dap_needed = Ok dap_float
            /\ N_from_dap = dap_float * 0.18
        else fert_plan !! "DAP_kg/ha" = None /\ N_from_dap = 0)
       /\ ((need_P2O5 <=? 0) = true ->
           fert_plan !! "DAP_kg/ha" = None /\ N_from_dap = 0)
       /\ (if 0 <? remaining_N then
             exists urea_needed,
               round_up (remaining_N / 0.46) = Ok urea_needed
               /\ fert_plan !! "Urea_kg/ha" = Some urea_needed
           else fert_plan !! "Urea_kg/ha" = None).
Proof.
  intros H. apply call_Ok in H as (base & rd & o & Hbase & Hrd & Ho & -> & ->).
  apply evaluate_Ok in Ho as (c & Hdap & Hc & Hurea & _).
  destruct (plan_of_entries o) as (-> & -> & _).
  exists base, rd, c. split; [assumption|]. split; [assumption|].
  unfold remaining in Hurea.
  destruct (gaps base rd) as [[need_N need_P2O5] need_K2O]. cbn [fst snd] in *.
  apply quantity_Ok in Hdap, Hurea.
  assert (Hfirst :
    if 0 <? need_P2O5 then
      exists dap_needed dap_float,
        round_up (need_P2O5 / 0.46) = Ok dap_needed /\ o_dap o = Some dap_needed
        /\ Float.of_int dap_needed = Ok dap_float /\ c = dap_float * 0.18
    else o_dap o = None /\ c = 0).
  { destruct (0 <? need_P2O5).
    - destruct Hdap as (n & Hn & Hq). rewrite Hq in Hc. cbn [credit] in Hc.
      apply rbind_Ok in Hc as (f & Hf & [= <-]). eauto 10.
    - rewrite Hdap in Hc. injection Hc as <-. auto. }
  split; [exact Hfirst|]. split.
  - intros Hle. apply le0_not_gt0 in Hle. now rewrite Hle in Hfirst.
  - destruct (0 <? Float.max 0 (need_N - c)); [|exact Hurea].
    destruct Hurea as (n & Hn & ->). eauto.
Qed.

(** C6 on the end-to-end scenario. *)
Lemma C6_phosphorus_and_nitrogen_scenario :
  exists base rd N_from_dap,
    baseline_npk !! Str.lower "wheat" = Some base
    /\ interpret_all scenario_inputs = Ok rd
    /\ let '(need_N, need_P2O5, need_K2O) := gaps base rd in
       let remaining_N := Float.max 0 (need_N - N_from_dap) in
       (if 0 <? need_P2O5 then
          exists dap_needed dap_float,
            round_up (need_P2O5 / 0.46) = Ok dap_needed
            /\ scenario_plan !! "DAP_kg/ha" = Some dap_needed
            /\ Float.of_int dap_needed = Ok dap_float
            /\ N_from_dap = dap_float * 0.18
        else scenario_plan !! "DAP_kg/ha" = None /\ N_from_dap = 0)
       /\ ((need_P2O5 <=? 0) = true ->
           scenario_plan !! "DAP_kg/ha" = None /\ N_from_dap = 0)
       /\ (if 0 <? remaining_N then
             exists urea_needed,
               round_up (remaining_N / 0.46) = Ok urea_needed
               /\ scenario_plan !! "Urea_kg/ha" = Some urea_needed
           else scenario_plan !! "Urea_kg/ha" = None).
Proof.
  apply (C6_phosphorus_and_nitrogen scenario_inputs "wheat" scenario_messages scenario_plan).
  vm_compute. reflexivity.
Defined.

(** C8, as amended. Every quantity of the returned plan is an integer,
    the ceiling of a positive gap divided by the content fraction of its
    product (times 1000 for compost), taken on the quotient as the code
    computes it in binary64: it is at least that quotient, which
    rounding can leave below the exact one; its gap is greater than
    zero, and it is at least one. *)
Theorem C8_quantities (inputs : gmap string raw) (crop_name : string)
    (messages : list string) (fert_plan : plan) (label : string) (q : Z) :
  call inputs crop_name = Ok (messages, fert_plan) ->
  fert_plan !! label = Some q ->
  exists base rd N_from_dap gap c scale k,
    baseline_npk !! Str.lower crop_name = Some base
    /\ interpret_all inputs = Ok rd
    /\ credit (fert_plan !! "DAP_kg/ha") = Ok N_from_dap
    /\ requirement base rd N_from_dap label = Some (gap, c, scale)
    /\ (0 <? gap) = true
    /\ round_up (gap / c) = Ok k
    /\ q = (k * scale)%Z
    /\ (Float.to_Q (gap / c) <= inject_Z q)%Q
    /\ (1 <= q)%Z.
Proof.
  intros H Hq. apply call_Ok in H as (base & rd & o & Hbase & Hrd & Ho & -> & ->).
  apply evaluate_Ok in Ho as (cr & Hdap & Hc & Hurea & Hmop & Hgyp & Hzn & Hbor & Hcomp & _).
  destruct (plan_of_entries o) as (-> & _).
  apply plan_of_lookup_In in Hq.
  destruct fractions_below_one as (F46 & F60 & F18 & F21 & F11 & F50).
  destruct thresholds_normal as (T10 & T06 & T05).
  exists base, rd, cr. unfold requirement.
  destruct (gaps base rd) as [[need_N need_P2O5] need_K2O]. cbn [fst snd] in *.
  cbn [entries In] in Hq.
  destruct Hq as [[= <- E]|[[= <- E]|[[= <- E]|[[= <- E]|[[= <- E]|[[= <- E]|[[= <- E]|[]]]]]]]];
    cbn [String.eqb Ascii.eqb Bool.eqb].
  - rewrite E in Hdap. apply gap_entry in Hdap as (? & ? & ? & ?); [|assumption].
    exists need_P2O5, 0.46, 1%Z, q. rewrite Z.mul_1_r. auto 10.
  - rewrite E in Hurea. apply gap_entry in Hurea as (? & ? & ? & ?); [|assumption].
    exists (remaining need_N cr), 0.46, 1%Z, q. rewrite Z.mul_1_r. auto 10.
  - rewrite E in Hmop. apply gap_entry in Hmop as (? & ? & ? & ?); [|assumption].
    exists need_K2O, 0.60, 1%Z, q. rewrite Z.mul_1_r. auto 10.
  - rewrite E in Hgyp. apply low_entry in Hgyp as (x & -> & ? & ? & ? & ? & ? & ?); try assumption.
    exists (10 - x), 0.18, 1%Z, q. rewrite Z.mul_1_r. auto 10.
  - rewrite E in Hzn. apply low_entry in Hzn as (x & -> & ? & ? & ? & ? & ? & ?); try assumption.
    exists (0.6 - x), 0.21, 1%Z, q. rewrite Z.mul_1_r. auto 10.
  - rewrite E in Hbor. apply low_entry in Hbor as (x & -> & ? & ? & ? & ? & ? & ?); try assumption.
    exists (0.5 - x), 0.11, 1%Z, q. rewrite Z.mul_1_r. auto 10.
  - destruct (o_compost o) as [k|] eqn:Ek; [|discriminate E]. injection E as <-.
    apply low_entry in Hcomp as (x & -> & ? & ? & ? & ? & Hle & ?); try assumption.
    exists (0.5 - x), 0.5, 1000%Z, k. repeat split; try assumption; [|lia].
    eapply Qle_trans; [exact Hle|]. rewrite <- Zle_Qle. lia.
Qed.

(** ** [float(n)] is exact on the integers of at most 53 bits *)

Section Exact.
Local Open Scope Z_scope.

Lemma digits2_pos_unique (m : positive) (k : Z) :
  2 ^ (k - 1) <= Zpos m < 2 ^ k -> Zpos (digits2_pos m) = k.
Proof.
  intros [H1 H2]. pose proof (digits2_pos_bounds m) as [B1 B2].
  set (d := Zpos (digits2_pos m)) in *. assert (0 < d) by (unfold d; lia).
  assert (0 < k). { destruct (Z.ltb_spec 0 k); [assumption|]. rewrite Z.pow_neg_r in H1 by lia.
    assert (2 ^ k <= 2 ^ 0) by (destruct (Z.eq_dec k 0) as [->|]; [lia|rewrite Z.pow_neg_r by lia; lia]).
    change (2 ^ 0) with 1 in *. lia. }
  destruct (Z.lt_trichotomy d k) as [Hlt|[Heq|Hgt]]; [|assumption|].
  - assert (2 ^ d <= 2 ^ (k - 1)) by (apply Z.pow_le_mono_r; lia). lia.
  - assert (2 ^ k <= 2 ^ (d - 1)) by (apply Z.pow_le_mono_r; lia). lia.
Qed.

Lemma shl_align_exponent_eq (m : positive) (e e' : Z) :
  e' <= e -> snd (shl_align m e e') = e'.
Proof. intros H. unfold shl_align. destruct (e' - e) eqn:E; cbn [snd]; lia. Qed.

Lemma binary_round_small (s : bool) (p : positive) :
  Zpos p < 2 ^ prec ->
  exists mz ez,
    binary_round prec emax s p 0 = S754_finite s mz ez
    /\ bounded prec emax mz ez = true
    /\ ez <= 0 /\ Zpos mz = Zpos p * 2 ^ (- ez).
Proof.
  intros Hp. pose proof (digits2_pos_bounds p) as [B1 B2].
  set (d := Zpos (digits2_pos p)) in *. assert (Hd0 : 0 < d) by (unfold d; lia).
  assert (Hd : d <= prec).
  { destruct (Z.leb_spec d prec); [assumption|].
    assert (2 ^ prec <= 2 ^ (d - 1)) by (apply Z.pow_le_mono_r; lia). lia. }
  unfold binary_round. fold d.
  assert (Hf : fexp prec emax (d + 0) = d - prec) by (unfold fexp, emin, prec, emax in *; lia).
  rewrite Hf.
  pose proof (shl_align_value p 0 (d - prec) ltac:(lia)) as Hm.
  pose proof (shl_align_exponent_eq p 0 (d - prec) ltac:(lia)) as He.
  destruct (shl_align p 0 (d - prec)) as [mz ez]. cbn [fst snd] in Hm, He. subst ez.
  replace (0 - (d - prec)) with (prec - d) in Hm by lia.
  assert (Hdz : Zpos (digits2_pos mz) = prec).
  { apply digits2_pos_unique. rewrite Hm.
    assert (Hpow : 2 ^ (d - 1) * 2 ^ (prec - d) = 2 ^ (prec - 1)).
    { rewrite <- Z.pow_add_r by lia. f_equal. lia. }
    assert (Hpow' : 2 ^ d * 2 ^ (prec - d) = 2 ^ prec).
    { rewrite <- Z.pow_add_r by lia. f_equal. lia. }
    assert (0 < 2 ^ (prec - d)) by (apply Z.pow_pos_nonneg; lia).
    split; [rewrite <- Hpow | rewrite <- Hpow']; nia. }
  assert (Hshift : fexp prec emax (Zdigits2 (Zpos mz) + (d - prec)) - (d - prec) = 0).
  { cbn [Zdigits2]. rewrite Hdz. unfold fexp, emin, prec, emax in *. lia. }
  exists mz, (d - prec). split; [|split; [|split]].
  - unfold binary_round_aux, shr_fexp. rewrite Hshift. cbn [shr shr_record_of_loc shr_m
      loc_of_shr_record round_nearest_even]. rewrite Hshift. cbn [shr shr_m].
    destruct (Z.leb_spec (d - prec) (emax - prec)); [reflexivity|].
    unfold prec, emax in *. lia.
  - unfold bounded, canonical_mantissa. rewrite Hdz.
    apply andb_true_intro. split; [apply Z.eqb_eq | apply Z.leb_le];
      unfold fexp, emin, prec, emax in *; lia.
  - lia.
  - rewrite Hm. f_equal. f_equal. lia.
Qed.

Lemma of_int_exact (n : Z) :
  Z.abs n < 2 ^ 53 ->
  exists x, Float.of_int n = Ok x /\ (Float.to_Q x == inject_Z n)%Q.
Proof.
  intros Hn. unfold Float.of_int, Float.to_Q.
  destruct n as [|p|p]; cbn [binary_normalize].
  - exists 0%float. split; reflexivity.
  - destruct (binary_round_small false p ltac:(unfold prec; lia)) as (mz & ez & -> & Hb & Hez & Hm).
    eexists. split; [reflexivity|]. rewrite Prim2SF_SF2Prim by exact Hb.
    cbn [Float.SF2Q]. destruct (Z.leb_spec 0 ez).
    + assert (ez = 0) by lia. subst ez. cbn in Hm. rewrite Z.mul_1_r in *. now rewrite Hm.
    + assert (0 < 2 ^ (- ez)) by (apply Z.pow_pos_nonneg; lia).
      unfold Qeq. cbn [Qnum Qden inject_Z]. rewrite Z2Pos.id by assumption. lia.
  - destruct (binary_round_small true p ltac:(unfold prec; lia)) as (mz & ez & -> & Hb & Hez & Hm).
    eexists. split; [reflexivity|]. rewrite Prim2SF_SF2Prim by exact Hb.
    cbn [Float.SF2Q]. destruct (Z.leb_spec 0 ez).
    + assert (ez = 0) by lia. subst ez. cbn in Hm. rewrite Z.mul_1_r in *.
      rewrite Hm. reflexivity.
    + assert (0 < 2 ^ (- ez)) by (apply Z.pow_pos_nonneg; lia).
      unfold Qeq, Qopp. cbn [Qnum Qden inject_Z]. rewrite Z2Pos.id by assumption. lia.
Qed.
End Exact.

(** ** [interpret] *)


(** C8 on the end-to-end scenario, for the DAP entry. *)
Lemma C8_quantities_scenario :
  exists base rd N_from_dap gap c scale k,
    baseline_npk !! Str.lower "wheat" = Some base
    /\ interpret_all scenario_inputs = Ok rd
    /\ credit (scenario_plan !! "DAP_kg/ha") = Ok N_from_dap
    /\ requirement base rd N_from_dap "DAP_kg/ha" = Some (gap, c, scale)
    /\ (0 <? gap) = true
    /\ round_up (gap / c) = Ok k
    /\ 120%Z = (k * scale)%Z
    /\ (Float.to_Q (gap / c) <= inject_Z 120)%Q
    /\ (1 <= 120)%Z.
Proof.
  apply (C8_quantities scenario_inputs "wheat" scenario_messages scenario_plan "DAP_kg/ha" 120).
  - vm_compute. reflexivity.
  - vm_compute. reflexivity.
Defined.

(** ** Readings of exactly zero *)

(** C4, at OC = 0. The reading is present, it is below 0.5, and the
    nitrogen gap stays 120 (it is not multiplied by 1.1): the plan has
    210 kg/ha of urea and no compost. *)
Theorem C4_zero_OC_not_scaled :
  interpreted zero_OC_inputs "OC" = Ok (Some 0)
  /\ (0 <? 0.5) = true
  /\ (exists rd, interpret_all zero_OC_inputs = Ok rd
                 /\ gaps (120, 60, 40) rd = (120, 60, 40))
  /\ call zero_OC_inputs "wheat" = Ok (bare_wheat_messages, bare_wheat_plan).
Proof.
  split; [vm_compute; reflexivity|]. split; [vm_compute; reflexivity|]. split.
  - eexists. split; vm_compute; reflexivity.
  - vm_compute. reflexivity.
Qed.

(** C5, at S = 0, Zn = 0 and B = 0. The readings are present and below
    their thresholds, the quantities of the claim would be 56, 3 and 5,
    and the plan has no entry for gypsum, zinc sulfate or borax. *)
Theorem C5_zero_readings_no_entry :
  interpreted zero_S_Zn_B_inputs "S" = Ok (Some 0)
  /\ interpreted zero_S_Zn_B_inputs "Zn" = Ok (Some 0)
  /\ interpreted zero_S_Zn_B_inputs "B" = Ok (Some 0)
  /\ round_up ((10 - 0) / 0.18) = Ok 56%Z
  /\ round_up ((0.6 - 0) / 0.21) = Ok 3%Z
  /\ round_up ((0.5 - 0) / 0.11) = Ok 5%Z
  /\ call zero_S_Zn_B_inputs "wheat" = Ok (bare_wheat_messages, bare_wheat_plan)
  /\ bare_wheat_plan !! "Gypsum_kg/ha" = None
  /\ bare_wheat_plan !! "ZnSO4_kg/ha" = None
  /\ bare_wheat_plan !! "Borax_kg/ha" = None.
Proof. repeat split; vm_compute; reflexivity. Qed.

(** C7, at Fe = 0, Cu = 0, Mn = 0 and pH = 0. The readings are present
    and below 4.5, 0.2, 2 and 6.0, and the messages are those of DAP,
    Urea and MOP only: no foliar-spray and no liming advisory. *)
Theorem C7_zero_readings_no_advisory :
  interpreted zero_micro_inputs "Fe" = Ok (Some 0)
  /\ interpreted zero_micro_inputs "Cu" = Ok (Some 0)
  /\ interpreted zero_micro_inputs "Mn" = Ok (Some 0)
  /\ interpreted zero_micro_inputs "pH" = Ok (Some 0)
  /\ (0 <? 4.5) = true /\ (0 <? 0.2) = true /\ (0 <? 2) = true /\ (0 <? 6.0) = true
  /\ call zero_micro_inputs "wheat" = Ok (bare_wheat_messages, bare_wheat_plan).
Proof. repeat split; vm_compute; reflexivity. Qed.

(** ** Readings that are present and not zero *)

Lemma interpret_all_Ok (inputs : gmap string raw) (rd : readings) :
  interpret_all inputs = Ok rd ->
  interpreted inputs "N" = Ok (rd_N rd) /\ interpreted inputs "P" = Ok (rd_P rd)
  /\ interpreted inputs "K" = Ok (rd_K rd) /\ interpreted inputs "S" = Ok (rd_S rd)
  /\ interpreted inputs "Zn" = Ok (rd_Zn rd) /\ interpreted inputs "Fe" = Ok (rd_Fe rd)
  /\ interpreted inputs "Cu" = Ok (rd_Cu rd) /\ interpreted inputs "Mn" = Ok (rd_Mn rd)
  /\ interpreted inputs "B" = Ok (rd_B rd) /\ interpreted inputs "OC" = Ok (rd_OC rd)
  /\ interpreted inputs "pH" = Ok (rd_pH rd) /\ interpreted inputs "EC" = Ok (rd_EC rd).
Proof.
  unfold interpret_all. intros H.
  repeat (apply rbind_Ok in H as (? & ? & H)). injection H as <-. cbn.
  repeat split; assumption.
Qed.

(** A float above a positive float is not a zero. *)
Lemma gt_positive_truthy (t x : float) :
  (0 <? t) = true -> (t <? x) = true -> Float.truthy x = true.
Proof.
  intros Ht Hx. apply gt0_spec in Ht. apply truthy_spec. intros s Hs.
  rewrite FloatAxioms.ltb_spec, Hs in Hx.
  destruct (Prim2SF t) as [?|[|]| |[|] m e]; cbn in Ht, Hx; congruence.
Qed.

(** A pH above 8.5 is not below 6.0. *)
Lemma alkaline_not_acidic (x : float) : (8.5 <? x) = true -> (x <? 6.0) = false.
Proof.
  rewrite !FloatAxioms.ltb_spec.
  change (Prim2SF 8.5) with (S754_finite false 4785074604081152 (-49)).
  change (Prim2SF 6.0) with (S754_finite false 6755399441055744 (-50)).
  destruct (Prim2SF x) as [?|[|]| |[|] m e]; cbv beta iota delta [SFltb SFcompare];
    try congruence.
  destruct (Z.compare_spec (-49) e), (Z.compare_spec e (-50)); try congruence; lia.
Qed.

Lemma is_low_true (x low : float) :
  Float.truthy x = true -> (x <? low) = true -> is_low (Some x) low = true.
Proof. intros Ht Hl. unfold is_low, holds. now rewrite Ht, Hl. Qed.

Lemma In_messages_of (crop_name : string) (o : outcome) (r : rule) (text : string) :
  message crop_name o r = Some text -> In text (messages_of crop_name o).
Proof.
  intros H. apply list_elem_of_In. unfold messages_of. apply list_elem_of_omap.
  exists r. split; [|exact H]. apply list_elem_of_In. unfold rule_order.
  destruct r; cbn; tauto.
Qed.

Lemma low_quantity_Some (x low c : float) (q : option Z) :
  Float.truthy x = true -> (x <? low) = true -> low_quantity (Some x) low c = Ok q ->
  exists n, round_up ((low - x) / c) = Ok n /\ q = Some n.
Proof.
  intros Ht Hl H. apply low_quantity_Ok in H. rewrite is_low_true in H by assumption.
  destruct H as (x' & n & [= <-] & Hn & ->). eauto.
Qed.

(** For a call that returns: a sulphur, zinc or boron reading that is
    present, not zero and below its low threshold puts the ceiling of
    its gap over the content fraction in the plan. *)
Theorem low_reading_entries (inputs : gmap string raw) (crop_name : string)
    (messages : list string) (fert_plan : plan) :
  call inputs crop_name = Ok (messages, fert_plan) ->
  (forall s, interpreted inputs "S" = Ok (Some s) ->
     Float.truthy s = true -> (s <? 10) = true ->
     exists q, round_up ((10 - s) / 0.18) = Ok q /\ fert_plan !! "Gypsum_kg/ha" = Some q)
  /\ (forall zn, interpreted inputs "Zn" = Ok (Some zn) ->
     Float.truthy zn = true -> (zn <? 0.6) = true ->
     exists q, round_up ((0.6 - zn) / 0.21) = Ok q /\ fert_plan !! "ZnSO4_kg/ha" = Some q)
  /\ (forall b, interpreted inputs "B" = Ok (Some b) ->
     Float.truthy b = true -> (b <? 0.5) = true ->
     exists q, round_up ((0.5 - b) / 0.11) = Ok q /\ fert_plan !! "Borax_kg/ha" = Some q).
Proof.
  intros H. apply call_Ok in H as (base & rd & o & Hbase & Hrd & Ho & -> & ->).
  apply evaluate_Ok in Ho as (cr & _ & _ & _ & _ & Hgyp & Hzn & Hbor & _).
  apply interpret_all_Ok in Hrd as (_ & _ & _ & HS & HZn & _ & _ & _ & HB & _).
  destruct (plan_of_entries o) as (_ & _ & _ & -> & -> & -> & _).
  repeat split.
  - intros s Hs Ht Hl. rewrite HS in Hs. injection Hs as Hs. rewrite Hs in Hgyp.
    destruct (low_quantity_Some _ _ _ _ Ht Hl Hgyp) as (n & Hn & ->). eauto.
  - intros s Hs Ht Hl. rewrite HZn in Hs. injection Hs as Hs. rewrite Hs in Hzn.
    destruct (low_quantity_Some _ _ _ _ Ht Hl Hzn) as (n & Hn & ->). eauto.
  - intros s Hs Ht Hl. rewrite HB in Hs. injection Hs as Hs. rewrite Hs in Hbor.
    destruct (low_quantity_Some _ _ _ _ Ht Hl Hbor) as (n & Hn & ->). eauto.
Qed.

Lemma low_reading_entries_low_S :
  exists q, round_up ((10 - 3) / 0.18) = Ok q
            /\ (<["Gypsum_kg/ha" := 39%Z]> bare_wheat_plan) !! "Gypsum_kg/ha" = Some q.
Proof.
  refine (proj1 (low_reading_entries low_S_inputs "wheat"
            (bare_wheat_messages ++
               ["Apply 39 kg/ha Gypsum because soil sulphur is low for wheat."])
            (<["Gypsum_kg/ha" := 39%Z]> bare_wheat_plan) _) 3 _ _ _);
    vm_compute; reflexivity.
Defined.

(** For a call that returns: an iron, copper or manganese reading that
    is present, not zero and below its low threshold gives its
    foliar-spray advisory; a pH that is present, not zero and below 6.0
    gives the liming advisory; a pH above 8.5 the alkaline-soil
    advisory; an EC above 4 the salinity advisory; and the plan has no
    entry besides the seven products. *)
Theorem advisories (inputs : gmap string raw) (crop_name : string)
    (messages : list string) (fert_plan : plan) :
  call inputs crop_name = Ok (messages, fert_plan) ->
  (forall fe, interpreted inputs "Fe" = Ok (Some fe) ->
     Float.truthy fe = true -> (fe <? 4.5) = true ->
     In "Iron low: consider foliar Fe spray because soil Fe is insufficient." messages)
  /\ (forall cu, interpreted inputs "Cu" = Ok (Some cu) ->
     Float.truthy cu = true -> (cu <? 0.2) = true ->
     In "Copper low: consider foliar Cu spray because soil Cu is insufficient." messages)
  /\ (forall mn, interpreted inputs "Mn" = Ok (Some mn) ->
     Float.truthy mn = true -> (mn <? 2) = true ->
     In "Manganese low: consider foliar Mn spray because soil Mn is insufficient." messages)
  /\ (forall ph, interpreted inputs "pH" = Ok (Some ph) ->
     Float.truthy ph = true -> (ph <? 6.0) = true ->
     In "Soil acidic: apply lime to raise pH." messages)
  /\ (forall ph, interpreted inputs "pH" = Ok (Some ph) -> (8.5 <? ph) = true ->
     In "Soil alkaline: apply gypsum or acidifying measures to lower pH." messages)
  /\ (forall ec, interpreted inputs "EC" = Ok (Some ec) -> (4 <? ec) = true ->
     In "High salinity: grow salt-tolerant crops and improve irrigation." messages)
  /\ (forall label q, fert_plan !! label = Some q ->
     In label ["DAP_kg/ha"; "Urea_kg/ha"; "MOP_kg/ha"; "Gypsum_kg/ha"; "ZnSO4_kg/ha";
               "Borax_kg/ha"; "Compost_kg/ha"]).
Proof.
  intros H. apply call_Ok in H as (base & rd & o & Hbase & Hrd & Ho & -> & ->).
  apply evaluate_Ok in Ho as (cr & _ & _ & _ & _ & _ & _ & _ & _
    & Hfe & Hcu & Hmn & Hac & Hal & Hsa).
  apply interpret_all_Ok in Hrd as (_ & _ & _ & _ & _ & HFe & HCu & HMn & _ & _ & HpH & HEC).
  repeat split.
  - intros x Hx Ht Hl. rewrite HFe in Hx. injection Hx as Hx.
    apply (In_messages_of _ _ Fe). cbn. now rewrite Hfe, Hx, is_low_true.
  - intros x Hx Ht Hl. rewrite HCu in Hx. injection Hx as Hx.
    apply (In_messages_of _ _ Cu). cbn. now rewrite Hcu, Hx, is_low_true.
  - intros x Hx Ht Hl. rewrite HMn in Hx. injection Hx as Hx.
    apply (In_messages_of _ _ Mn). cbn. now rewrite Hmn, Hx, is_low_true.
  - intros x Hx Ht Hl. rewrite HpH in Hx. injection Hx as Hx.
    apply (In_messages_of _ _ PH). cbn. rewrite Hac, Hx. cbn. now rewrite Ht, Hl.
  - intros x Hx Hl. rewrite HpH in Hx. injection Hx as Hx.
    assert (Ht : Float.truthy x = true) by (now apply (gt_positive_truthy 8.5)).
    apply (In_messages_of _ _ PH). cbn. rewrite Hac, Hal, Hx. cbn.
    now rewrite Ht, Hl, (alkaline_not_acidic x Hl).
  - intros x Hx Hl. rewrite HEC in Hx. injection Hx as Hx.
    assert (Ht : Float.truthy x = true) by (now apply (gt_positive_truthy 4)).
    apply (In_messages_of _ _ EC). cbn. rewrite Hsa, Hx. unfold saline. cbn.
    now rewrite Ht, Hl.
  - intros label q Hq. apply plan_of_lookup_In in Hq. cbn in Hq.
    repeat (destruct Hq as [[= <- _]|Hq]; [cbn; tauto|]). contradiction.
Qed.

Lemma advisories_low_Fe :
  In "Iron low: consider foliar Fe spray because soil Fe is insufficient."
     (bare_wheat_messages ++
        ["Iron low: consider foliar Fe spray because soil Fe is insufficient."]).
Proof.
  refine (proj1 (advisories low_Fe_inputs "wheat"
            (bare_wheat_messages ++
               ["Iron low: consider foliar Fe spray because soil Fe is insufficient."])
            bare_wheat_plan _) 1 _ _ _);
    vm_compute; reflexivity.
Defined.

(** ** The gaps *)

(** Subtracting a zero reading is subtracting [0]. *)
Lemma sub_falsy (b x : float) (s : bool) (m : positive) (e : Z) :
  Prim2SF b = S754_finite s m e -> Float.truthy x = false -> b - x = b - 0.
Proof.
  intros Hb Hx. apply Prim2SF_inj. rewrite !sub_spec, Hb.
  change (Prim2SF 0) with (S754_zero false).
  unfold Float.truthy in Hx. apply negb_false_iff in Hx.
  rewrite FloatAxioms.eqb_spec in Hx. change (Prim2SF 0) with (S754_zero false) in Hx.
  destruct (Prim2SF x) as [?|[|]| |[|] ? ?]; cbn in Hx; try discriminate; reflexivity.
Qed.

Lemma sub_or_zero (b : float) (X : option float) (s : bool) (m : positive) (e : Z) :
  Prim2SF b = S754_finite s m e -> b - or_zero X = b - default 0 X.
Proof.
  intros Hb. destruct X as [x|]; cbn; [|reflexivity].
  destruct (Float.truthy x) eqn:Hx; [reflexivity|]. symmetry. now apply (sub_falsy b x s m e).
Qed.

Lemma baseline_finite (crop : string) (base_N base_P2O5 base_K2O : float) :
  baseline_npk !! crop = Some (base_N, base_P2O5, base_K2O) ->
  (exists m e, Prim2SF base_N = S754_finite false m e)
  /\ (exists m e, Prim2SF base_P2O5 = S754_finite false m e)
  /\ (exists m e, Prim2SF base_K2O = S754_finite false m e).
Proof.
  unfold baseline_npk. intros H. apply elem_of_list_to_map_2 in H.
  apply list_elem_of_In in H. cbn in H.
  repeat (destruct H as [[= _ <- <- <-]|H];
          [repeat split; eexists _, _; vm_compute; reflexivity|]).
  contradiction.
Qed.

(** For a supported crop the gaps are max(0, baseline - (reading if
    present else 0)); the nitrogen gap is multiplied by 1.1 when OC is
    present, not zero and below 0.5; then all three are multiplied by
    0.8 when EC is present and above 4. *)
Theorem gaps_of_readings (crop : string) (base_N base_P2O5 base_K2O : float) (rd : readings) :
  baseline_npk !! crop = Some (base_N, base_P2O5, base_K2O) ->
  let need_N := Float.max 0 (base_N - default 0 (rd_N rd)) in
  let need_P2O5 := Float.max 0 (base_P2O5 - default 0 (rd_P rd)) in
  let need_K2O := Float.max 0 (base_K2O - default 0 (rd_K rd)) in
  let low_OC :=
    match rd_OC rd with Some oc => Float.truthy oc && (oc <? 0.5) | None => false end in
  let high_EC := match rd_EC rd with Some ec => 4 <? ec | None => false end in
  let need_N := if low_OC then need_N * 1.1 else need_N in
  gaps (base_N, base_P2O5, base_K2O) rd =
    if high_EC then (need_N * 0.8, need_P2O5 * 0.8, need_K2O * 0.8)
    else (need_N, need_P2O5, need_K2O).
Proof.
  intros H. apply baseline_finite in H as ((mN & eN & HN) & (mP & eP & HP) & (mK & eK & HK)).
  cbv zeta. unfold gaps, is_low, saline, holds.
  rewrite (sub_or_zero base_N _ _ _ _ HN), (sub_or_zero base_P2O5 _ _ _ _ HP),
    (sub_or_zero base_K2O _ _ _ _ HK).
  assert (HEC : match rd_EC rd with Some x => Float.truthy x && (4 <? x) | None => false end
                = match rd_EC rd with Some ec => 4 <? ec | None => false end).
  { destruct (rd_EC rd) as [ec|]; [|reflexivity]. destruct (4 <? ec) eqn:Hec.
    - rewrite (gt_positive_truthy 4 ec); [reflexivity | vm_compute; reflexivity | exact Hec].
    - apply andb_false_r. }
  rewrite HEC. reflexivity.
Qed.

Lemma gaps_of_readings_scenario :
  gaps (120, 60, 40) (Readings (Some 100) (Some 5) (Some 50) None None None None None None
                        (Some 0.3) (Some 7) (Some 1))
  = (22, 55, 0).
Proof.
  refine (eq_trans (gaps_of_readings "wheat" 120 60 40 _ _) _); vm_compute; reflexivity.
Defined.


(** ** Binary64 arithmetic: what stays below a power of two *)

Section Magnitude.
Local Open Scope Z_scope.

Lemma Zdigits2_le (m j : Z) : 0 <= m -> 0 <= j -> m < 2 ^ j -> Zdigits2 m <= j.
Proof.
  intros Hm Hj H. destruct (Z.eq_dec m 0) as [->|Hne]; [cbn; lia|].
  pose proof (Zdigits2_bounds m ltac:(lia)) as [B _].
  destruct (Z.le_gt_cases (Zdigits2 m) j) as [|Hgt]; [assumption|].
  assert (2 ^ j <= 2 ^ (Zdigits2 m - 1)) by (apply Z.pow_le_mono_r; lia). lia.
Qed.

Lemma Zdigits2_nonneg (m : Z) : 0 <= Zdigits2 m.
Proof. destruct m; cbn; lia. Qed.

Lemma round_nearest_even_le (m : Z) (l : location) : round_nearest_even m l <= m + 1.
Proof. destruct l as [|[| |]]; cbn; try lia. destruct (Z.even m); lia. Qed.

(** One more unit in the last place is at most one more digit. *)
Lemma Zdigits2_succ (m m' : Z) : 0 <= m -> m <= m' <= m + 1 -> Zdigits2 m' <= Zdigits2 m + 1.
Proof.
  intros Hm Hm'. pose proof (Zdigits2_nonneg m) as Hd.
  apply Zdigits2_le; [lia | lia |].
  rewrite Z.pow_add_r by lia. change (2 ^ 1) with 2.
  destruct (Z.eq_dec m 0) as [->|Hne]; [cbn in *; lia|].
  pose proof (Zdigits2_bounds m ltac:(lia)). lia.
Qed.

Lemma shr_fexp_small (m e k : Z) (l : location) :
  0 <= m -> Zdigits2 m + e <= k -> emin <= k ->
  0 <= shr_m (fst (shr_fexp prec emax m e l))
  /\ Zdigits2 (shr_m (fst (shr_fexp prec emax m e l))) + snd (shr_fexp prec emax m e l) <= k.
Proof.
  intros Hm Hk Hmin. unfold shr_fexp, shr.
  destruct (fexp prec emax (Zdigits2 m + e) - e) as [|n|n] eqn:Hn; cbn [fst snd];
    rewrite ?shr_record_of_loc_m; try (split; lia).
  rewrite iter_pos_shr_1_m by (rewrite shr_record_of_loc_m; lia).
  rewrite shr_record_of_loc_m.
  assert (Hp : 0 < 2 ^ Zpos n) by (apply Z.pow_pos_nonneg; lia).
  assert (Hq : 0 <= m / 2 ^ Zpos n) by (apply Z.div_pos; lia).
  split; [assumption|].
  destruct (Z.eq_dec (m / 2 ^ Zpos n) 0) as [E|E].
  - rewrite E. cbn [Zdigits2]. unfold fexp, emin, prec, emax in *. lia.
  - assert (Hm0 : 0 < m) by (destruct (Z.eq_dec m 0) as [->|]; [rewrite Z.div_0_l in E; lia | lia]).
    pose proof (Zdigits2_bounds m Hm0) as [_ B].
    assert (Zdigits2 (m / 2 ^ Zpos n) <= Zdigits2 m - Zpos n); [|lia].
    pose proof (Zdigits2_bounds (m / 2 ^ Zpos n) ltac:(lia)) as [B1 _].
    pose proof (Zdigits2_nonneg (m / 2 ^ Zpos n)).
    assert (Hle : 2 ^ Zpos n * (m / 2 ^ Zpos n) <= m) by (apply Z.mul_div_le; lia).
    destruct (Z.le_gt_cases (Zdigits2 (m / 2 ^ Zpos n)) (Zdigits2 m - Zpos n)) as [|Hgt]; [assumption|].
    assert (2 ^ (Zdigits2 m - Zpos n) <= 2 ^ (Zdigits2 (m / 2 ^ Zpos n) - 1)).
    { apply Z.pow_le_mono_r; lia. }
    assert (Zdigits2 m - Zpos n >= 0 \/ Zdigits2 m - Zpos n < 0) as [Hc|Hc] by lia.
    + assert (2 ^ Zdigits2 m = 2 ^ (Zdigits2 m - Zpos n) * 2 ^ Zpos n).
      { rewrite <- Z.pow_add_r by lia. f_equal. lia. }
      nia.
    + assert (m < 2 ^ Zpos n).
      { eapply Z.lt_le_trans; [exact B|]. apply Z.pow_le_mono_r; lia. }
      rewrite Z.div_small in E by lia. lia.
Qed.

(** Rounding a value below [2^k] gives a zero or a finite float, at most [2^k]. *)
Lemma binary_round_aux_small (s : bool) (m e k : Z) (l : location) :
  0 <= m -> Zdigits2 m + e <= k -> emin <= k <= emax - prec ->
  small s (k + 1) (binary_round_aux prec emax s m e l).
Proof.
  intros Hm Hk [Hmin Hmax]. unfold binary_round_aux.
  destruct (shr_fexp_small m e k l Hm Hk Hmin) as [H1 H2].
  destruct (shr_fexp prec emax m e l) as [mrs' e']. cbn [fst snd] in H1, H2.
  pose proof (round_nearest_even_ge (shr_m mrs') (loc_of_shr_record mrs')) as Hr1.
  pose proof (round_nearest_even_le (shr_m mrs') (loc_of_shr_record mrs')) as Hr2.
  set (m1 := round_nearest_even (shr_m mrs') (loc_of_shr_record mrs')) in *.
  pose proof (Zdigits2_succ (shr_m mrs') m1 H1 ltac:(lia)) as Hd.
  destruct (shr_fexp_small m1 e' (k + 1) loc_Exact ltac:(lia) ltac:(lia) ltac:(lia)) as [H3 H4].
  destruct (shr_fexp prec emax m1 e' loc_Exact) as [mrs'' e'']. cbn [fst snd] in H3, H4.
  destruct (shr_m mrs'') as [|p|p]; cbn [small]; try lia; [reflexivity|].
  cbn [Zdigits2] in H4.
  destruct (Z.leb_spec e'' (emax - prec)); cbn [small]; [split; [reflexivity | lia]|].
  lia.
Qed.

(** The sign of a rounded value is the sign given. *)
Lemma binary_round_aux_signed (s s' : bool) (m e : Z) (l : location) :
  signed_nonzero s' (binary_round_aux prec emax s m e l) -> s = s'.
Proof.
  unfold binary_round_aux.
  destruct (shr_fexp prec emax m e l) as [mrs' e'].
  destruct (shr_fexp prec emax _ e' loc_Exact) as [mrs'' e''].
  destruct (shr_m mrs''); cbn; try contradiction.
  destruct (e'' <=? emax - prec); cbn; auto.
Qed.

Lemma digits2_pos_mul (a b : positive) :
  Zpos (digits2_pos (a * b)) <= Zpos (digits2_pos a) + Zpos (digits2_pos b).
Proof.
  pose proof (digits2_pos_bounds a) as [_ Ba]. pose proof (digits2_pos_bounds b) as [_ Bb].
  apply (Zdigits2_le (Zpos (a * b))); [lia | lia |].
  rewrite Z.pow_add_r by lia. rewrite Pos2Z.inj_mul. nia.
Qed.

(** A product of small floats is small. *)
Lemma SFmul_small (sx sy : bool) (kx ky : Z) (x y : spec_float) :
  small sx kx x -> small sy ky y -> emin <= kx + ky <= emax - prec ->
  small (xorb sx sy) (kx + ky + 1) (SFmul prec emax x y).
Proof.
  intros Hx Hy Hk.
  destruct x as [sx'|?| |sx' mx ex], y as [sy'|?| |sy' my ey]; cbn [small] in Hx, Hy;
    try contradiction; cbn [SFmul small].
  - now subst.
  - destruct Hy as [-> _]. now subst.
  - destruct Hx as [-> _]. now subst.
  - destruct Hx as [-> Hx], Hy as [-> Hy].
    apply binary_round_aux_small; [lia | | assumption].
    cbn [Zdigits2]. pose proof (digits2_pos_mul mx my). lia.
Qed.

(** A small float divided by a float that is at least [2^(j-1)] is small. *)
Lemma SFdiv_small (sx sy : bool) (kx j : Z) (x : spec_float) (my : positive) (ey : Z) :
  small sx kx x -> j <= Zpos (digits2_pos my) + ey ->
  emin <= kx - j + 1 <= emax - prec ->
  small (xorb sx sy) (kx - j + 2) (SFdiv prec emax x (S754_finite sy my ey)).
Proof.
  intros Hx Hy Hk.
  destruct x as [sx'|?| |sx' mx ex]; cbn [small] in Hx; try contradiction; cbn [SFdiv small].
  - now subst.
  - destruct Hx as [-> Hx]. unfold SFdiv_core_binary. cbn [Zdigits2].
    pose proof (digits2_pos_bounds mx) as Bx. pose proof (digits2_pos_bounds my) as By.
    set (dx := Zpos (digits2_pos mx)) in *. set (dy := Zpos (digits2_pos my)) in *.
    assert (Hdx0 : 0 < dx) by (unfold dx; lia). assert (Hdy0 : 0 < dy) by (unfold dy; lia).
    set (e' := Z.min (fexp prec emax (dx + ex - (dy + ey))) (ex - ey)).
    set (s := ex - ey - e').
    assert (Hs0 : 0 <= s) by (unfold s, e'; lia).
    set (m' := match s with Zpos _ => Z.shiftl (Zpos mx) s | 0 => Zpos mx | Zneg _ => 0 end).
    assert (Hm' : m' = Zpos mx * 2 ^ s).
    { unfold m'. destruct s as [|p|p] eqn:Es; [lia | now rewrite Z.shiftl_mul_pow2 by lia | lia]. }
    assert (Hps : 0 < 2 ^ s) by (apply Z.pow_pos_nonneg; lia).
    assert (Hq0 : 0 <= m' / Zpos my) by (apply Z.div_pos; nia).
    assert (Hqd : Zdigits2 (m' / Zpos my) + e' <= kx - j + 1).
    { destruct (Z.eq_dec (m' / Zpos my) 0) as [E|E].
      - rewrite E. cbn [Zdigits2]. unfold e', fexp, emin, prec, emax in *. lia.
      - pose proof (Zdigits2_bounds (m' / Zpos my) ltac:(lia)) as [B _].
        pose proof (Z.mul_div_le m' (Zpos my) ltac:(lia)) as Hle.
        set (q := m' / Zpos my) in *. set (dq := Zdigits2 q) in *.
        assert (dq <= dx + s - dy + 1); [|unfold s in *; lia].
        destruct (Z.le_gt_cases dq (dx + s - dy + 1)) as [|Hgt]; [assumption|].
        assert (H1 : 2 ^ (dx + s - dy + 1) <= 2 ^ (dq - 1)).
        { apply Z.pow_le_mono_r; lia. }
        assert (dx + s - dy + 1 >= 0 \/ dx + s - dy + 1 < 0) as [Hc|Hc] by lia.
        + assert (H2 : 2 ^ (dx + s - dy + 1) * 2 ^ (dy - 1) = 2 ^ dx * 2 ^ s).
          { rewrite <- !Z.pow_add_r by lia. f_equal. lia. }
          assert (0 < 2 ^ (dy - 1)) by (apply Z.pow_pos_nonneg; lia).
          assert (0 < 2 ^ (dx + s - dy + 1)) by (apply Z.pow_pos_nonneg; lia).
          nia.
        + assert (H2 : 2 ^ (dx + s) <= 2 ^ (dy - 1)) by (apply Z.pow_le_mono_r; lia).
          rewrite Z.pow_add_r in H2 by lia.
          assert (m' < Zpos my) by nia.
          unfold q in E. rewrite Z.div_small in E by lia. lia. }
    unfold Z.div in Hq0, Hqd. destruct (Z.div_eucl m' (Zpos my)) as [q r].
    replace (kx - j + 2) with (kx - j + 1 + 1) by lia.
    apply binary_round_aux_small; assumption.
Qed.

Lemma digits2_pos_shl_align (m : positive) (e e' : Z) :
  Zpos (digits2_pos (fst (shl_align m e e'))) + snd (shl_align m e e')
  = Zpos (digits2_pos m) + e.
Proof.
  unfold shl_align. destruct (e' - e) as [|d|d] eqn:Hd; cbn [fst snd]; try reflexivity.
  pose proof (Pos_iter_xO m d) as Hv.
  pose proof (digits2_pos_bounds m) as [B1 B2].
  assert (Hp : 0 < 2 ^ Zpos d) by (apply Z.pow_pos_nonneg; lia).
  rewrite (digits2_pos_unique (Pos.iter xO m d) (Zpos (digits2_pos m) + Zpos d)); [lia|].
  rewrite Hv. replace (Zpos (digits2_pos m) + Zpos d - 1) with (Zpos (digits2_pos m) - 1 + Zpos d) by lia.
  rewrite !Z.pow_add_r by lia. nia.
Qed.

Lemma binary_round_small_mag (s : bool) (m : positive) (e k : Z) :
  Zpos (digits2_pos m) + e <= k -> emin <= k <= emax - prec ->
  small s (k + 1) (binary_round prec emax s m e).
Proof.
  intros Hk Hb. unfold binary_round.
  pose proof (digits2_pos_shl_align m e (fexp prec emax (Zpos (digits2_pos m) + e))) as H.
  destruct (shl_align m e _) as [mz ez]. cbn [fst snd] in H.
  apply binary_round_aux_small; [lia | cbn [Zdigits2]; lia | assumption].
Qed.

Lemma binary_round_signed (s s' : bool) (m : positive) (e : Z) :
  signed_nonzero s' (binary_round prec emax s m e) -> s = s'.
Proof.
  unfold binary_round. destruct (shl_align m e _) as [mz ez]. apply binary_round_aux_signed.
Qed.

(** A positive difference of a small positive float and a float that is
    not negative is small. *)
Lemma SFsub_small (mx : positive) (ex k : Z) (y : spec_float) :
  Zpos (digits2_pos mx) + ex <= k -> emin <= k <= emax - prec ->
  SFltb y (S754_zero false) = false ->
  signed_nonzero false (SFsub prec emax (S754_finite false mx ex) y) ->
  small false (k + 1) (SFsub prec emax (S754_finite false mx ex) y).
Proof.
  intros Hk Hb Hy.
  destruct y as [sy|sy| |sy my ey]; cbn [SFsub small signed_nonzero].
  - intros _. split; [reflexivity | lia].
  - destruct sy; [discriminate Hy | intros H; discriminate H].
  - contradiction.
  - destruct sy; [discriminate Hy|]. cbn [cond_Zopp].
    pose proof (digits2_pos_shl_align mx ex (Z.min ex ey)) as Hd.
    assert (Hs : snd (shl_align mx ex (Z.min ex ey)) = Z.min ex ey)
      by (apply shl_align_exponent_eq; lia).
    rewrite Hs in Hd.
    set (D := Zpos (fst (shl_align mx ex (Z.min ex ey))) - Zpos (fst (shl_align my ey (Z.min ex ey)))).
    assert (HD : D < Zpos (fst (shl_align mx ex (Z.min ex ey)))) by (unfold D; lia).
    destruct D as [|p|p] eqn:ED; cbn [binary_normalize].
    + contradiction.
    + intros _. apply binary_round_small_mag; [|assumption].
      pose proof (digits2_pos_bounds (fst (shl_align mx ex (Z.min ex ey)))) as [_ B].
      pose proof (Zdigits2_le (Zpos p) (Zpos (digits2_pos (fst (shl_align mx ex (Z.min ex ey)))))
                    ltac:(lia) ltac:(lia) ltac:(lia)) as H.
      cbn [Zdigits2] in H. lia.
    + intros H. apply binary_round_signed in H. discriminate H.
Qed.

End Magnitude.


(** ** Gaps of readings that are not negative *)

Section Tame.
Local Open Scope Z_scope.

Lemma small_mono (s : bool) (k k' : Z) (x : spec_float) : k <= k' -> small s k x -> small s k' x.
Proof. intros H. destruct x; cbn; try tauto. intros [-> ?]. split; [reflexivity | lia]. Qed.

Lemma tame_0 (k : Z) : tame k 0.
Proof. reflexivity. Qed.

Lemma positive_below_tame (k : Z) (c : float) : positive_below k c = true -> tame k c.
Proof.
  unfold positive_below, tame. destruct (Prim2SF c) as [| | |[|] m e]; try discriminate.
  intros H. apply Z.leb_le in H. now split.
Qed.

Lemma not_negative_spec (y : float) :
  (y <? 0)%float = false -> SFltb (Prim2SF y) (S754_zero false) = false.
Proof. now rewrite FloatAxioms.ltb_spec. Qed.

(** [max(0.0, b - y)] for a positive [b] below [2^k] and a [y] that is
    not negative. *)
Lemma max_sub_tame (k : Z) (b y : float) :
  positive_below k b = true -> emin <= k <= emax - prec -> (y <? 0)%float = false ->
  tame (k + 1) (Float.max 0 (b - y)).
Proof.
  unfold positive_below. intros Hb Hk Hy.
  destruct (Prim2SF b) as [| | |[|] mb eb] eqn:Eb; try discriminate. apply Z.leb_le in Hb.
  unfold Float.max. destruct (0 <? b - y)%float eqn:Hd; [|apply tame_0].
  apply gt0_spec in Hd. unfold tame. rewrite sub_spec, Eb in *.
  apply SFsub_small; auto using not_negative_spec.
Qed.

(** [max(0.0, g - y)] for a gap [g]. *)
Lemma remaining_tame (k : Z) (g y : float) :
  tame k g -> emin <= k <= emax - prec -> (y <? 0)%float = false ->
  tame (k + 1) (remaining g y).
Proof.
  intros Hg Hk Hy. unfold tame in Hg.
  destruct (Prim2SF g) as [s| | |s mg eg] eqn:Eg; cbn [small] in Hg; try contradiction.
  - subst s. unfold remaining, Float.max.
    destruct (0 <? g - y)%float eqn:Hd; [|apply tame_0].
    apply gt0_spec in Hd. rewrite sub_spec, Eg in Hd.
    apply not_negative_spec in Hy.
    destruct (Prim2SF y) as [[|]|[|]| |[|] ? ?]; cbn in Hd, Hy; try contradiction; discriminate.
  - destruct Hg as [-> Hg]. apply max_sub_tame; try assumption.
    unfold positive_below. rewrite Eg. now apply Z.leb_le.
Qed.

Lemma mul_tame (k j : Z) (g c : float) :
  tame k g -> positive_below j c = true -> emin <= k + j <= emax - prec ->
  tame (k + j + 1) (g * c).
Proof.
  intros Hg Hc Hk. apply positive_below_tame in Hc. unfold tame in *. rewrite mul_spec.
  now apply (SFmul_small false false).
Qed.

Lemma div_tame (k j : Z) (g c : float) :
  tame k g -> positive_from j c = true -> emin <= k - j + 1 <= emax - prec ->
  tame (k - j + 2) (g / c).
Proof.
  unfold positive_from, tame. intros Hg Hc Hk. rewrite div_spec.
  destruct (Prim2SF c) as [| | |[|] mc ec]; try discriminate. apply Z.leb_le in Hc.
  now apply (SFdiv_small false false).
Qed.

(** [math.ceil] of a gap returns, and at most [2^k]. *)
Lemma ceil_tame (k : Z) (x : float) :
  tame k x -> 0 <= k -> exists n, Float.ceil x = Ok n /\ n <= 2 ^ k.
Proof.
  unfold tame, Float.ceil. intros Hx Hk.
  assert (H2k : 0 < 2 ^ k) by (apply Z.pow_pos_nonneg; lia).
  destruct (Prim2SF x) as [s| | |s m e]; cbn [small Float.ceil_sf] in *; try contradiction.
  - exists 0. split; [reflexivity | lia].
  - destruct Hx as [-> Hx]. eexists. split; [reflexivity|].
    pose proof (digits2_pos_bounds m) as [_ B].
    assert (Hd : 0 < Zpos (digits2_pos m)) by lia.
    destruct (Z.leb_spec 0 e) as [He|He].
    + assert (2 ^ (Zpos (digits2_pos m) + e) <= 2 ^ k) by (apply Z.pow_le_mono_r; lia).
      rewrite Z.pow_add_r in * by lia. assert (0 < 2 ^ e) by (apply Z.pow_pos_nonneg; lia). nia.
    + assert (Hp : 0 < 2 ^ (- e)) by (apply Z.pow_pos_nonneg; lia).
      assert (2 ^ Zpos (digits2_pos m) <= 2 ^ (k + - e)) by (apply Z.pow_le_mono_r; lia).
      rewrite Z.pow_add_r in * by lia.
      assert (- 2 ^ k <= - Zpos m / 2 ^ (- e)); [|lia].
      apply Z.div_le_lower_bound; [assumption | nia].
Qed.

End Tame.

Lemma to_Q_positive (x : float) :
  (0 < Float.to_Q x)%Q -> exists m e, Prim2SF x = S754_finite false m e.
Proof.
  unfold Float.to_Q. destruct (Prim2SF x) as [s|s| |[|] m e]; cbn [Float.SF2Q]; eauto;
    intros H; exfalso; try (now apply (Qlt_irrefl 0)).
  unfold Qlt in H. destruct (Z.leb_spec 0 e); cbn in H; [|lia].
  assert (0 < 2 ^ e)%Z by (apply Z.pow_pos_nonneg; lia). nia.
Qed.

(** A product by a positive float is not negative. *)
Lemma mul_not_negative (x c : float) (mx mc : positive) (ex ec : Z) :
  Prim2SF x = S754_finite false mx ex -> Prim2SF c = S754_finite false mc ec ->
  (x * c <? 0) = false.
Proof.
  intros Hx Hc. rewrite FloatAxioms.ltb_spec, mul_spec, Hx, Hc. unfold SF64mul. cbn [SFmul xorb].
  change (Prim2SF 0) with (S754_zero false).
  unfold binary_round_aux.
  destruct (shr_fexp prec emax (Zpos (mx * mc)) (ex + ec) loc_Exact) as [mrs' e'].
  destruct (shr_fexp prec emax (round_nearest_even (shr_m mrs') (loc_of_shr_record mrs')) e'
              loc_Exact) as [mrs'' e''].
  destruct (shr_m mrs''); try reflexivity.
  destruct (e'' <=? emax - prec)%Z; reflexivity.
Qed.

(** The nitrogen credit of a quantity of DAP is computed, and is not
    negative. *)
Lemma credit_not_negative (dap : option Z) :
  (forall n, dap = Some n -> (1 <= n < 2 ^ 53)%Z) ->
  exists N_from_dap, credit dap = Ok N_from_dap /\ (N_from_dap <? 0) = false.
Proof.
  intros H. destruct dap as [n|]; cbn [credit]; [|exists 0; split; reflexivity].
  specialize (H n eq_refl).
  destruct (of_int_exact n ltac:(lia)) as (x & -> & Hq). cbn [rbind].
  eexists. split; [reflexivity|].
  destruct (to_Q_positive x) as (m & e & Hx).
  { rewrite Hq. change 0%Q with (inject_Z 0). rewrite <- Zlt_Qlt. lia. }
  eapply mul_not_negative; [exact Hx | vm_compute; reflexivity].
Qed.

(** The quantity of a gap is computed: none for a gap of zero, at
    least one and at most [2^(k-j+2)] otherwise. *)
Lemma quantity_tame (k j : Z) (gap c : float) :
  tame k gap -> positive_from j c = true -> below_one c = true ->
  (emin <= k - j + 1 <= emax - prec)%Z -> (0 <= k - j + 2)%Z ->
  exists q, quantity (0 <? gap) gap c = Ok q
            /\ forall n, q = Some n -> (1 <= n <= 2 ^ (k - j + 2))%Z.
Proof.
  intros Hg Hj Hc Hk Hk'. unfold quantity.
  destruct (0 <? gap) eqn:Hgap; [|exists None; split; [reflexivity | discriminate]].
  destruct (ceil_tame (k - j + 2) (gap / c)) as (n & Hn & Hle);
    [now apply div_tame | assumption |].
  unfold round_up. rewrite Hn. cbn [rbind]. exists (Some n). split; [reflexivity|].
  intros ? [= <-]. split; [|assumption].
  apply (ceil_gt0 (gap / c)); [now apply div_fraction_gt0 | exact Hn].
Qed.

(** The quantity for a low reading that is not negative is computed. *)
Lemma low_quantity_tame (k j : Z) (X : option float) (low c : float) :
  not_negative X = true -> positive_below k low = true -> normal_positive low = true ->
  positive_from j c = true ->
  (emin <= k <= emax - prec)%Z -> (emin <= k + 1 - j + 1 <= emax - prec)%Z ->
  (0 <= k + 1 - j + 2)%Z ->
  exists q, low_quantity X low c = Ok q.
Proof.
  intros HX Hlow Hn Hc Hk Hk' Hk''. unfold low_quantity, quantity.
  destruct X as [x|]; [|eauto]. cbn [not_negative] in HX. apply negb_true_iff in HX.
  destruct (Float.truthy x && (x <? low)) eqn:Hf; [|eauto].
  apply andb_prop in Hf as [_ Hlt].
  assert (Ht : tame (k + 1) (low - x)).
  { pose proof (max_sub_tame k low x Hlow Hk HX) as H. unfold Float.max in H.
    now rewrite (sub_threshold_gt0 low x Hn Hlt) in H. }
  destruct (ceil_tame (k + 1 - j + 2) ((low - x) / c)) as (n & Hn' & _);
    [now apply div_tame | assumption |].
  unfold round_up. rewrite Hn'. cbn [rbind]. eauto.
Qed.

Lemma baseline_below (crop : string) (base_N base_P2O5 base_K2O : float) :
  baseline_npk !! crop = Some (base_N, base_P2O5, base_K2O) ->
  positive_below 8 base_N = true /\ positive_below 8 base_P2O5 = true
  /\ positive_below 8 base_K2O = true.
Proof.
  unfold baseline_npk. intros H. apply elem_of_list_to_map_2 in H.
  apply list_elem_of_In in H. cbn in H.
  repeat (destruct H as [[= _ <- <- <-]|H]; [repeat split; vm_compute; reflexivity|]).
  contradiction.
Qed.

Lemma or_zero_not_negative (X : option float) :
  not_negative X = true -> (or_zero X <? 0) = false.
Proof.
  destruct X as [x|]; cbn; [|reflexivity].
  intros H. apply negb_true_iff in H. now destruct (Float.truthy x).
Qed.

Lemma tame_mono (k k' : Z) (x : float) : (k <= k')%Z -> tame k x -> tame k' x.
Proof. apply small_mono. Qed.

(** The gaps of readings that are not negative are below [2^12]. *)
Lemma gaps_tame (base_N base_P2O5 base_K2O : float) (rd : readings) :
  positive_below 8 base_N = true -> positive_below 8 base_P2O5 = true ->
  positive_below 8 base_K2O = true ->
  not_negative (rd_N rd) = true -> not_negative (rd_P rd) = true ->
  not_negative (rd_K rd) = true ->
  tame 12 (fst (fst (gaps (base_N, base_P2O5, base_K2O) rd)))
  /\ tame 12 (snd (fst (gaps (base_N, base_P2O5, base_K2O) rd)))
  /\ tame 12 (snd (gaps (base_N, base_P2O5, base_K2O) rd)).
Proof.
  intros BN BP BK HN HP HK. unfold gaps.
  assert (Hb : (emin <= 8 <= emax - prec)%Z) by (vm_compute; split; discriminate).
  pose proof (max_sub_tame 8 base_N _ BN Hb (or_zero_not_negative _ HN)) as TN.
  pose proof (max_sub_tame 8 base_P2O5 _ BP Hb (or_zero_not_negative _ HP)) as TP.
  pose proof (max_sub_tame 8 base_K2O _ BK Hb (or_zero_not_negative _ HK)) as TK.
  set (need_N := Float.max 0 (base_N - or_zero (rd_N rd))) in *.
  set (need_P2O5 := Float.max 0 (base_P2O5 - or_zero (rd_P rd))) in *.
  set (need_K2O := Float.max 0 (base_K2O - or_zero (rd_K rd))) in *.
  assert (TN' : tame 11 (if is_low (rd_OC rd) 0.5 then need_N * 1.1 else need_N)).
  { destruct (is_low (rd_OC rd) 0.5).
    - apply (mul_tame (8 + 1) 1); [exact TN | vm_compute; reflexivity |].
      vm_compute; split; discriminate.
    - revert TN. apply tame_mono. lia. }
  set (need_N' := if is_low (rd_OC rd) 0.5 then need_N * 1.1 else need_N) in *.
  assert (H08 : positive_below 0 0.8 = true) by (vm_compute; reflexivity).
  destruct (saline (rd_EC rd)); cbn [fst snd].
  - split; [|split].
    + apply (mul_tame 11 0); [exact TN' | exact H08 | vm_compute; split; discriminate].
    + apply (tame_mono (8 + 1 + 0 + 1)); [lia|].
      apply (mul_tame (8 + 1) 0); [exact TP | exact H08 | vm_compute; split; discriminate].
    + apply (tame_mono (8 + 1 + 0 + 1)); [lia|].
      apply (mul_tame (8 + 1) 0); [exact TK | exact H08 | vm_compute; split; discriminate].
  - split; [|split]; [revert TN' | revert TP | revert TK]; apply tame_mono; lia.
Qed.

(** With readings that are not negative every rule is evaluated without
    an error. *)
Lemma evaluate_physical (crop : string) (base : float * float * float) (rd : readings) :
  baseline_npk !! crop = Some base -> physical rd = true ->
  exists o, evaluate base rd = Ok o.
Proof.
  destruct base as [[base_N base_P2O5] base_K2O]. intros Hbase Hrd.
  apply baseline_below in Hbase as (BN & BP & BK).
  unfold physical in Hrd. cbn [forallb] in Hrd.
  repeat (apply andb_prop in Hrd as [? Hrd]).
  destruct (gaps_tame base_N base_P2O5 base_K2O rd) as (TN & TP & TK); try assumption.
  unfold evaluate.
  destruct (gaps (base_N, base_P2O5, base_K2O) rd) as [[need_N need_P2O5] need_K2O].
  cbn [fst snd] in TN, TP, TK.
  destruct fractions_below_one as (F46 & F60 & F18 & F21 & F11 & F50).
  destruct thresholds_normal as (T10 & T06 & T05).
  destruct (quantity_tame 12 (-1) need_P2O5 0.46) as (dap & -> & Hdap);
    [assumption | vm_compute; reflexivity | assumption | vm_compute; split; discriminate
    | lia |].
  cbn [rbind].
  destruct (credit_not_negative dap) as (N_from_dap & -> & Hcredit).
  { intros n Hn. apply Hdap in Hn. change (12 - -1 + 2)%Z with 15%Z in Hn.
    assert (2 ^ 15 < 2 ^ 53)%Z by (vm_compute; reflexivity). lia. }
  cbn [rbind].
  pose proof (remaining_tame 12 need_N N_from_dap TN ltac:(vm_compute; split; discriminate)
                Hcredit) as TR.
  destruct (quantity_tame (12 + 1) (-1) (remaining need_N N_from_dap) 0.46) as (urea & -> & _);
    [assumption | vm_compute; reflexivity | assumption | vm_compute; split; discriminate
    | lia |].
  cbn [rbind].
  destruct (quantity_tame 12 0 need_K2O 0.60) as (mop & -> & _);
    [assumption | vm_compute; reflexivity | assumption | vm_compute; split; discriminate
    | lia |].
  cbn [rbind].
  destruct (low_quantity_tame 4 (-2) (rd_S rd) 10 0.18) as (gypsum & ->);
    [assumption | vm_compute; reflexivity | assumption | vm_compute; reflexivity
    | vm_compute; split; discriminate | vm_compute; split; discriminate | lia |].
  cbn [rbind].
  destruct (low_quantity_tame 0 (-2) (rd_Zn rd) 0.6 0.21) as (znso4 & ->);
    [assumption | vm_compute; reflexivity | assumption | vm_compute; reflexivity
    | vm_compute; split; discriminate | vm_compute; split; discriminate | lia |].
  cbn [rbind].
  destruct (low_quantity_tame 0 (-3) (rd_B rd) 0.5 0.11) as (borax & ->);
    [assumption | vm_compute; reflexivity | assumption | vm_compute; reflexivity
    | vm_compute; split; discriminate | vm_compute; split; discriminate | lia |].
  cbn [rbind].
  destruct (low_quantity_tame 0 0 (rd_OC rd) 0.5 0.5) as (compost & ->);
    [assumption | vm_compute; reflexivity | assumption | vm_compute; reflexivity
    | vm_compute; split; discriminate | vm_compute; split; discriminate | lia |].
  cbn [rbind]. eauto.
Qed.

(** For a supported crop, a request whose readings are read without an
    error and are not negative where a quantity is computed from them
    (N, P, K, S, Zn, B, OC) gets its plan: the call raises nothing. *)
Theorem physical_readings_never_fail (inputs : gmap string raw) (crop_name : string)
    (rd : readings) :
  In (Str.lower crop_name) supported_crops ->
  interpret_all inputs = Ok rd ->
  physical rd = true ->
  exists messages fert_plan, call inputs crop_name = Ok (messages, fert_plan).
Proof.
  intros Hin Hrd Hphys. rewrite call_engine. unfold engine.
  destruct (baseline_npk !! Str.lower crop_name) as [base|] eqn:Hbase.
  - rewrite Hrd. cbn [rbind].
    destruct (evaluate_physical _ base rd Hbase Hphys) as (o & ->). cbn [rbind]. eauto.
  - apply baseline_lookup_None in Hbase. contradiction.
Qed.

Lemma physical_readings_never_fail_scenario :
  exists messages fert_plan, call scenario_inputs "wheat" = Ok (messages, fert_plan).
Proof.
  refine (physical_readings_never_fail scenario_inputs "wheat"
            (Readings (Some 100) (Some 5) (Some 50) None None None None None None
               (Some 0.3) (Some 7) (Some 1)) _ _ _).
  - vm_compute. tauto.
  - vm_compute. reflexivity.
  - vm_compute. reflexivity.
Defined.

(** [round_up] returns the least integer that is not below a finite
    float; it raises OverflowError for an infinity and ValueError for a
    NaN. *)
Theorem round_up_spec (x : float) :
  match Prim2SF x with
  | S754_nan => round_up x = Raise (ValueError "cannot convert float NaN to integer")
  | S754_infinity _ =>
      round_up x = Raise (OverflowError "cannot convert float infinity to integer")
  | _ => exists n, round_up x = Ok n
                   /\ (Float.to_Q x <= inject_Z n)%Q /\ (inject_Z (n - 1) < Float.to_Q x)%Q
  end.
Proof.
  pose proof (ceil_spec x) as H. unfold round_up, Float.ceil in *.
  destruct (Prim2SF x) as [s|s| |s m e] eqn:E; cbn [Float.ceil_sf] in *; try reflexivity;
    eexists; (split; [reflexivity | now apply H]).
Qed.

(** ** What a call depends on *)

(** Two spellings of a crop name give the same plan and the same
    error; the messages quote the name as it was written. *)
Theorem crop_name_case (inputs : gmap string raw) (c1 c2 : string) :
  Str.lower c1 = Str.lower c2 ->
  (forall e, call inputs c1 = Raise e -> call inputs c2 = Raise e)
  /\ (forall messages fert_plan, call inputs c1 = Ok (messages, fert_plan) ->
        exists o, messages = messages_of c1 o
                  /\ call inputs c2 = Ok (messages_of c2 o, fert_plan)).
Proof.
  intros H. rewrite !call_engine. unfold engine. rewrite H.
  destruct (baseline_npk !! Str.lower c2) as [base|]; [|split; [auto | discriminate]].
  destruct (interpret_all inputs) as [rd|e]; cbn [rbind]; [|split; [auto | discriminate]].
  destruct (evaluate base rd) as [o|e]; cbn [rbind]; [|split; [auto | discriminate]].
  split; [discriminate|]. intros messages fert_plan [= <- <-]. eauto.
Qed.

Lemma crop_name_case_wheat :
  (forall e, call scenario_inputs "Wheat" = Raise e -> call scenario_inputs "WHEAT" = Raise e)
  /\ (forall messages fert_plan, call scenario_inputs "Wheat" = Ok (messages, fert_plan) ->
        exists o, messages = messages_of "Wheat" o
                  /\ call scenario_inputs "WHEAT" = Ok (messages_of "WHEAT" o, fert_plan)).
Proof. apply (crop_name_case scenario_inputs "Wheat" "WHEAT"). reflexivity. Defined.

Lemma interpreted_default (inputs inputs' : gmap string raw) (key : string) :
  default RNone (inputs !! key) = default RNone (inputs' !! key) ->
  interpreted inputs key = interpreted inputs' key.
Proof. unfold interpreted. now intros ->. Qed.

(** The engine reads the twelve readings and nothing else of [inputs]:
    two requests that agree on them, an explicit null counting as an
    absent key, get the same answer. *)
Theorem only_the_readings_matter (inputs inputs' : gmap string raw) (crop_name : string) :
  (forall key, In key reading_names ->
     default RNone (inputs !! key) = default RNone (inputs' !! key)) ->
  call inputs crop_name = call inputs' crop_name.
Proof.
  intros H. rewrite !call_engine. unfold engine.
  destruct (baseline_npk !! Str.lower crop_name) as [base|]; [|reflexivity].
  assert (E : interpret_all inputs = interpret_all inputs'); [|now rewrite E].
  unfold interpret_all.
  rewrite !(interpreted_default inputs inputs') by (apply H; cbn; tauto).
  reflexivity.
Qed.

Lemma only_the_readings_matter_annotated :
  call scenario_inputs "wheat" = call annotated_inputs "wheat".
Proof.
  apply only_the_readings_matter. intros key Hkey. cbn in Hkey.
  repeat (destruct Hkey as [<-|Hkey]; [vm_compute; reflexivity|]). contradiction.
Defined.

(** Every entry of the plan has its message, which quotes the quantity
    of the entry; the compost message quotes it in tons, a thousandth of
    the entry. *)
Theorem plan_entries_have_messages (inputs : gmap string raw) (crop_name : string)
    (messages : list string) (fert_plan : plan) :
  call inputs crop_name = Ok (messages, fert_plan) ->
  (forall q, fert_plan !! "DAP_kg/ha" = Some q ->
     In ("Apply " +:+ Str.of_int q +:+
         " kg/ha DAP because phosphorus is below recommended level for " +:+
         crop_name +:+ ".") messages)
  /\ (forall q, fert_plan !! "Urea_kg/ha" = Some q ->
     In ("Apply " +:+ Str.of_int q +:+
         " kg/ha Urea because nitrogen is below recommended level for " +:+
         crop_name +:+ ".") messages)
  /\ (forall q, fert_plan !! "MOP_kg/ha" = Some q ->
     In ("Apply " +:+ Str.of_int q +:+
         " kg/ha MOP because potassium is below recommended level for " +:+
         crop_name +:+ ".") messages)
  /\ (forall q, fert_plan !! "Gypsum_kg/ha" = Some q ->
     In ("Apply " +:+ Str.of_int q +:+
         " kg/ha Gypsum because soil sulphur is low for " +:+ crop_name +:+ ".") messages)
  /\ (forall q, fert_plan !! "ZnSO4_kg/ha" = Some q ->
     In ("Apply " +:+ Str.of_int q +:+
         " kg/ha Zinc Sulfate because soil zinc is below recommended levels.") messages)
  /\ (forall q, fert_plan !! "Borax_kg/ha" = Some q ->
     In ("Apply " +:+ Str.of_int q +:+
         " kg/ha Borax because soil boron is below recommended levels.") messages)
  /\ (forall q, fert_plan !! "Compost_kg/ha" = Some q ->
     exists tons, q = (tons * 1000)%Z
       /\ In ("Apply approx " +:+ Str.of_int tons +:+
              " tons/ha Compost/FYM to improve soil organic matter.") messages).
Proof.
  intros H. apply call_Ok in H as (base & rd & o & _ & _ & _ & -> & ->).
  destruct (plan_of_entries o) as (-> & -> & -> & -> & -> & -> & ->).
  repeat split.
  - intros q Hq. apply (In_messages_of _ _ DAP). cbn [message]. now rewrite Hq.
  - intros q Hq. apply (In_messages_of _ _ Urea). cbn [message]. now rewrite Hq.
  - intros q Hq. apply (In_messages_of _ _ MOP). cbn [message]. now rewrite Hq.
  - intros q Hq. apply (In_messages_of _ _ Gypsum). cbn [message]. now rewrite Hq.
  - intros q Hq. apply (In_messages_of _ _ ZnSO4). cbn [message]. now rewrite Hq.
  - intros q Hq. apply (In_messages_of _ _ Borax). cbn [message]. now rewrite Hq.
  - intros q Hq. destruct (o_compost o) as [tons|] eqn:E; [|discriminate Hq].
    injection Hq as <-. exists tons. split; [reflexivity|].
    apply (In_messages_of _ _ Compost). cbn [message]. now rewrite E.
Qed.

Lemma plan_entries_have_messages_scenario :
  In "Apply 120 kg/ha DAP because phosphorus is below recommended level for wheat."
     scenario_messages.
Proof.
  refine (proj1 (plan_entries_have_messages scenario_inputs "wheat" scenario_messages
                   scenario_plan _) 120%Z _); vm_compute; reflexivity.
Defined.


(** ** The endpoint *)

Lemma round_up_overflows (x : float) (e : exn) :
  (0 <? x) = true -> round_up x = Raise e -> overflows e.
Proof.
  intros Hx. apply gt0_spec in Hx. unfold round_up, Float.ceil.
  destruct (Prim2SF x) as [?|?| |? ? ?]; cbn [Float.ceil_sf]; try contradiction;
    intros H; try discriminate H.
  injection H as <-. eexists. split; [|reflexivity]. cbn. tauto.
Qed.

Lemma of_int_overflows (n : Z) (e : exn) : Float.of_int n = Raise e -> overflows e.
Proof.
  unfold Float.of_int. destruct (binary_normalize prec emax n 0 false);
    intros H; try discriminate H. injection H as <-. eexists. split; [|reflexivity].
  cbn. tauto.
Qed.

Lemma interpreted_overflows (inputs : gmap string raw) (key : string) (e : exn) :
  is_Some (ref_thresholds !! key) -> interpreted inputs key = Raise e -> overflows e.
Proof.
  unfold interpreted. intros [t ->]. unfold interpret.
  destruct (default RNone (inputs !! key)) as [|b|n|x|s]; try (intros H; discriminate H).
  - intros H. apply rbind_Raise in H as [H|(x & _ & H)]; [|discriminate H].
    now apply of_int_overflows in H.
  - repeat match goal with |- context [if ?c then _ else _] => destruct c end;
      intros H; discriminate H.
Qed.

Lemma quantity_overflows (gap c : float) (e : exn) :
  below_one c = true -> quantity (0 <? gap) gap c = Raise e -> overflows e.
Proof.
  intros Hc. unfold quantity. destruct (0 <? gap) eqn:Hgap; [|intros H; discriminate H].
  intros H. apply rbind_Raise in H as [H|(? & _ & H)]; [|discriminate H].
  apply round_up_overflows in H; [exact H | now apply div_fraction_gt0].
Qed.

Lemma low_quantity_overflows (X : option float) (low c : float) (e : exn) :
  normal_positive low = true -> below_one c = true ->
  low_quantity X low c = Raise e -> overflows e.
Proof.
  intros Hlow Hc. unfold low_quantity, quantity.
  destruct X as [x|]; [|intros H; discriminate H].
  destruct (Float.truthy x && (x <? low)) eqn:Hf; [|intros H; discriminate H].
  apply andb_prop in Hf as [_ Hlt].
  intros H. apply rbind_Raise in H as [H|(? & _ & H)]; [|discriminate H].
  apply round_up_overflows in H; [exact H|].
  apply div_fraction_gt0; [exact Hc | now apply sub_threshold_gt0].
Qed.

(** For a supported crop a call raises nothing but an OverflowError
    with one of its two texts. *)
Lemma supported_overflows (inputs : gmap string raw) (crop_name : string) (e : exn) :
  In (Str.lower crop_name) supported_crops ->
  call inputs crop_name = Raise e -> overflows e.
Proof.
  intros Hin. rewrite call_engine. unfold engine.
  destruct (baseline_npk !! Str.lower crop_name) as [base|] eqn:Hb;
    [|apply baseline_lookup_None in Hb; contradiction].
  destruct fractions_below_one as (F46 & F60 & F18 & F21 & F11 & F50).
  destruct thresholds_normal as (T10 & T06 & T05).
  intros H. apply rbind_Raise in H as [H|(rd & _ & H)].
  - unfold interpret_all in H.
    repeat (apply rbind_Raise in H as [H|(? & _ & H)];
            [apply interpreted_overflows in H; [exact H | eexists; reflexivity]|]).
    discriminate.
  - apply rbind_Raise in H as [H|(? & _ & H)]; [|discriminate H].
    unfold evaluate in H. destruct (gaps base rd) as [[need_N need_P2O5] need_K2O].
    apply rbind_Raise in H as [H|(? & _ & H)]; [now apply quantity_overflows in H|].
    apply rbind_Raise in H as [H|(? & _ & H)].
    { unfold credit in H. destruct x; [|discriminate H].
      apply rbind_Raise in H as [H|(? & _ & H)]; [|discriminate H].
      now apply of_int_overflows in H. }
    apply rbind_Raise in H as [H|(? & _ & H)]; [now apply quantity_overflows in H|].
    apply rbind_Raise in H as [H|(? & _ & H)]; [now apply quantity_overflows in H|].
    repeat (apply rbind_Raise in H as [H|(? & _ & H)]; [now apply low_quantity_overflows in H|]).
    discriminate.
Qed.

(** The answers of the endpoint.  A crop that is missing or not a string,
    an unsupported crop, and readings that are not an object are
    answered 400 with the text of the Python error; for a supported crop
    the answer is 200 with what the engine returned, or 400 with one of
    the two texts of an OverflowError. *)
Theorem recommend_answers (data : gmap string json) :
  let crop := default (JScalar RNone) (data !! "crop") in
  let inputs := default (JObject ∅) (data !! "inputs") in
  match crop with
  | JScalar (RStr crop_name) =>
      if bool_decide (In (Str.lower crop_name) supported_crops) then
        match inputs with
        | JObject fields =>
            (exists messages fert_plan,
               call fields crop_name = Ok (messages, fert_plan)
               /\ recommend data = (Recommendation messages fert_plan, 200%Z))
            \/ (exists msg, In msg overflow_texts
                  /\ call fields crop_name = Raise (OverflowError msg)
                  /\ recommend data = (Error msg, 400%Z))
        | _ =>
            recommend data
            = (Error ("'" +:+ type_name inputs +:+ "' object has no attribute 'get'"), 400%Z)
        end
      else
        recommend data = (Error ("Unsupported crop: " +:+ Str.lower crop_name), 400%Z)
  | _ =>
      recommend data
      = (Error ("'" +:+ type_name crop +:+ "' object has no attribute 'lower'"), 400%Z)
  end.
Proof.
  cbv zeta. unfold recommend.
  destruct (default (JScalar RNone) (data !! "crop")) as [[| | | |crop_name]| |];
    try reflexivity.
  cbn [recommend_for_farmer_on].
  destruct (bool_decide_reflect (In (Str.lower crop_name) supported_crops)) as [Hin|Hin].
  - assert (Hb : is_Some (baseline_npk !! Str.lower crop_name)).
    { destruct (baseline_npk !! Str.lower crop_name) eqn:E; [eauto|].
      apply baseline_lookup_None in E. contradiction. }
    destruct (default (JObject ∅) (data !! "inputs")) as [v|fields|].
    + rewrite bool_decide_eq_true_2 by exact Hb. reflexivity.
    + destruct (call fields crop_name) as [[messages fert_plan]|e] eqn:E.
      * left. eauto.
      * right. destruct (supported_overflows _ _ _ Hin E) as (msg & Hmsg & ->). eauto.
    + rewrite bool_decide_eq_true_2 by exact Hb. reflexivity.
  - assert (Hb : ~ is_Some (baseline_npk !! Str.lower crop_name)).
    { apply baseline_lookup_None in Hin. rewrite Hin. intros [? [=]]. }
    destruct (default (JObject ∅) (data !! "inputs")) as [v|fields|].
    + rewrite bool_decide_eq_false_2 by exact Hb. reflexivity.
    + now rewrite (unsupported_raises _ _ Hin).
    + rewrite bool_decide_eq_false_2 by exact Hb. reflexivity.
Qed.

(** The endpoint answers a request for a supported crop whose readings
    are not negative with status 200 and the plan of the engine. *)
Theorem recommend_physical (data : gmap string json) (crop_name : string)
    (fields : gmap string raw) (rd : readings) :
  data !! "crop" = Some (JScalar (RStr crop_name)) ->
  default (JObject ∅) (data !! "inputs") = JObject fields ->
  In (Str.lower crop_name) supported_crops ->
  interpret_all fields = Ok rd -> physical rd = true ->
  exists messages fert_plan,
    call fields crop_name = Ok (messages, fert_plan)
    /\ recommend data = (Recommendation messages fert_plan, 200%Z).
Proof.
  intros Hcrop Hinputs Hin Hrd Hphys.
  assert (H : exists messages fert_plan, call fields crop_name = Ok (messages, fert_plan)).
  { rewrite call_engine. unfold engine.
    destruct (baseline_npk !! Str.lower crop_name) as [base|] eqn:Hbase;
      [|apply baseline_lookup_None in Hbase; contradiction].
    rewrite Hrd. cbn [rbind].
    destruct (evaluate_physical _ base rd Hbase Hphys) as (o & ->). cbn [rbind]. eauto. }
  destruct H as (messages & fert_plan & H).
  exists messages, fert_plan. split; [exact H|].
  unfold recommend. rewrite Hinputs, Hcrop. cbn [default from_option id recommend_for_farmer_on].
  now rewrite H.
Qed.

Lemma recommend_physical_wheat :
  exists messages fert_plan,
    call scenario_inputs "Wheat" = Ok (messages, fert_plan)
    /\ recommend wheat_request = (Recommendation messages fert_plan, 200%Z).
Proof.
  refine (recommend_physical wheat_request "Wheat" scenario_inputs
            (Readings (Some 100) (Some 5) (Some 50) None None None None None None
               (Some 0.3) (Some 7) (Some 1)) _ _ _ _ _).
  - vm_compute. reflexivity.
  - vm_compute. reflexivity.
  - vm_compute. tauto.
  - vm_compute. reflexivity.
  - vm_compute. reflexivity.
Defined.

(** ** File names *)

Lemma rsplit1_no_sep (sep : ascii) (s : string) :
  has_char sep s = false -> rsplit1 sep s = [s].
Proof.
  induction s as [|c s IH]; cbn; [reflexivity|].
  intros H. apply orb_false_elim in H as [Hc Hs]. now rewrite (IH Hs), Hc.
Qed.

Lemma rsplit1_sep (sep : ascii) (s : string) :
  has_char sep s = true ->
  exists a b, rsplit1 sep s = [a; b] /\ s = a +:+ String sep b /\ has_char sep b = false.
Proof.
  induction s as [|c s IH]; cbn; [discriminate|].
  destruct (has_char sep s) eqn:Hs.
  - intros _. destruct (IH eq_refl) as (a & b & -> & -> & Hb).
    exists (String c a), b. repeat split. exact Hb.
  - rewrite (rsplit1_no_sep sep s Hs), orb_false_r. intros Hc. rewrite Hc.
    apply Ascii.eqb_eq in Hc. subst c. exists EmptyString, s. repeat split. exact Hs.
Qed.

Lemma rsplit1_app (sep : ascii) (a b : string) :
  has_char sep b = false -> rsplit1 sep (a +:+ String sep b) = [a; b].
Proof.
  intros Hb. induction a as [|c a IH].
  - change (EmptyString +:+ String sep b) with (String sep b). cbn [rsplit1].
    now rewrite (rsplit1_no_sep sep b Hb), Ascii.eqb_refl.
  - change (String c a +:+ String sep b) with (String c (a +:+ String sep b)).
    cbn [rsplit1]. now rewrite IH.
Qed.

Lemma has_char_app (sep : ascii) (a b : string) : has_char sep (a +:+ String sep b) = true.
Proof.
  induction a as [|c a IH].
  - change (EmptyString +:+ String sep b) with (String sep b). cbn [has_char].
    now rewrite Ascii.eqb_refl.
  - change (String c a +:+ String sep b) with (String c (a +:+ String sep b)).
    cbn [has_char]. rewrite IH. apply orb_true_r.
Qed.

Lemma elem_of_ALLOWED_EXTENSIONS (ext : string) :
  ext ∈ ALLOWED_EXTENSIONS <-> In ext ["png"; "jpg"; "jpeg"; "webp"].
Proof.
  unfold ALLOWED_EXTENSIONS. rewrite !elem_of_union, !elem_of_singleton. cbn [In].
  intuition congruence.
Qed.

(** [allowed_file] raises nothing, and accepts a name exactly when the
    text after its last dot is, in lower case, one of png, jpg, jpeg,
    webp: whatever the case of the extension and whatever precedes the
    last dot. *)
Theorem allowed_file_spec (filename : string) :
  exists b, allowed_file filename = Some b
    /\ (b = true <->
        exists stem ext, filename = stem +:+ String "." ext
          /\ has_char "." ext = false
          /\ In (Str.lower ext) ["png"; "jpg"; "jpeg"; "webp"]).
Proof.
  unfold allowed_file. destruct (has_char "." filename) eqn:Hdot.
  - destruct (rsplit1_sep "." filename Hdot) as (a & b & Hsplit & -> & Hb).
    rewrite Hsplit. cbn [lookup list_lookup]. eexists. split; [reflexivity|].
    rewrite bool_decide_eq_true, elem_of_ALLOWED_EXTENSIONS. split.
    + intros H. exists a, b. auto.
    + intros (stem & ext & Heq & Hext & H).
      pose proof (rsplit1_app "." stem ext Hext) as Hs. rewrite <- Heq, Hsplit in Hs.
      injection Hs as _ ->. exact H.
  - exists false. split; [reflexivity|]. split; [discriminate|].
    intros (stem & ext & -> & _). now rewrite has_char_app in Hdot.
Qed.


(** ** Binary64 arithmetic: the sign of a difference and of a product *)

Section Order.
Local Open Scope Z_scope.

(** The mantissa of a float above the subnormal range has all its digits. *)
Lemma bounded_canonical (m : positive) (e : Z) :
  bounded prec emax m e = true ->
  emin <= e /\ Zpos m < 2 ^ prec /\ (emin < e -> 2 ^ (prec - 1) <= Zpos m).
Proof.
  unfold bounded, canonical_mantissa. intros H.
  apply andb_prop in H as [H _]. apply Z.eqb_eq in H.
  pose proof (digits2_pos_bounds m) as [B1 B2].
  assert (Hd : Zpos (digits2_pos m) <= prec) by (unfold fexp in H; lia).
  split; [unfold fexp in H; lia|]. split.
  - eapply Z.lt_le_trans; [exact B2|]. apply Z.pow_le_mono_r; lia.
  - intros He. assert (Zpos (digits2_pos m) = prec) by (unfold fexp in H; lia).
    now replace (prec - 1) with (Zpos (digits2_pos m) - 1) by lia.
Qed.

Lemma pow2_ge_2 (n : Z) : 0 < n -> 2 <= 2 ^ n.
Proof. intros H. change 2 with (2 ^ 1) at 1. apply Z.pow_le_mono_r; lia. Qed.

(** A difference rounds to a positive float only if it is positive. *)
Lemma SFsub_positive_lt (x y : spec_float) :
  valid_binary x = true -> valid_binary y = true ->
  signed_nonzero false (SFsub prec emax x y) -> SFltb y x = true.
Proof.
  intros Hx Hy.
  destruct x as [sx|sx| |sx mx ex], y as [sy|sy| |sy my ey]; cbn [SFsub];
    try (destruct sx); try (destruct sy); cbn; try contradiction; try discriminate;
    try reflexivity.
  all: cbn [valid_binary] in Hx, Hy;
    apply bounded_canonical in Hx as (Hex & Bx & Nx);
    apply bounded_canonical in Hy as (Hey & By & Ny);
    rewrite !shl_align_value by lia; unfold prec in *;
    change (2 ^ (53 - 1)) with 4503599627370496 in *;
    change (2 ^ 53) with 9007199254740992 in *.
  all: match goal with |- signed_nonzero false (binary_normalize _ _ ?D _ _) -> _ =>
         destruct D as [|p|p] eqn:HD; cbn [binary_normalize signed_nonzero];
           [contradiction | intros _ | intros H; apply binary_round_signed in H; discriminate H]
       end.
  all: try reflexivity.
  all: assert (Hpx : 0 < 2 ^ (ex - Z.min ex ey)) by (apply Z.pow_pos_nonneg; lia);
    assert (Hpy : 0 < 2 ^ (ey - Z.min ex ey)) by (apply Z.pow_pos_nonneg; lia).
  all: unfold SFltb, SFcompare;
    destruct (Z.compare_spec ey ex) as [Heq|Hlt|Hgt]; try reflexivity; try (exfalso; nia).
  - subst ey. rewrite Z.min_id, Z.sub_diag in HD. change (2 ^ 0) with 1 in HD.
    change (Pos.compare_cont Eq my mx) with (my ?= mx)%positive.
    destruct (Pos.compare_spec my mx); cbn; try reflexivity; lia.
  - exfalso. rewrite Z.min_r in HD by lia. rewrite Z.sub_diag in HD. change (2 ^ 0) with 1 in HD.
    pose proof (pow2_ge_2 (ex - ey) ltac:(lia)). specialize (Nx ltac:(lia)). nia.
  - subst ey. rewrite Z.min_id, Z.sub_diag in HD. change (2 ^ 0) with 1 in HD.
    change (Pos.compare_cont Eq my mx) with (my ?= mx)%positive.
    destruct (Pos.compare_spec my mx); cbn; try reflexivity; lia.
  - exfalso. rewrite Z.min_l in HD by lia. rewrite Z.sub_diag in HD. change (2 ^ 0) with 1 in HD.
    pose proof (pow2_ge_2 (ey - ex) ltac:(lia)). specialize (Ny ltac:(lia)). nia.
Qed.
End Order.

Section Exponent.
Local Open Scope Z_scope.

Lemma shr_fexp_exponent (m e : Z) (l : location) :
  e <= snd (shr_fexp prec emax m e l)
  /\ fexp prec emax (Zdigits2 m + e) <= snd (shr_fexp prec emax m e l).
Proof.
  unfold shr_fexp, shr.
  destruct (fexp prec emax (Zdigits2 m + e) - e) as [|n|n] eqn:Hn; cbn [snd]; lia.
Qed.

(** Rounding does not lower the exponent below that of the first digit
    less the precision. *)
Lemma binary_round_aux_exponent (s s' : bool) (m e : Z) (l : location) (m' : positive) (e' : Z) :
  binary_round_aux prec emax s m e l = S754_finite s' m' e' ->
  Zdigits2 m + e - prec <= e'.
Proof.
  unfold binary_round_aux.
  pose proof (shr_fexp_exponent m e l) as [_ H1].
  destruct (shr_fexp prec emax m e l) as [mrs' e1]. cbn [snd] in H1.
  pose proof (shr_fexp_exponent (round_nearest_even (shr_m mrs') (loc_of_shr_record mrs')) e1
                loc_Exact) as [H2 _].
  destruct (shr_fexp prec emax _ e1 loc_Exact) as [mrs'' e2]. cbn [snd] in H2.
  destruct (shr_m mrs''); try discriminate.
  destruct (e2 <=? emax - prec); [|discriminate].
  intros [= _ _ <-]. unfold fexp in H1. lia.
Qed.

Lemma binary_round_exponent (s s' : bool) (m : positive) (e : Z) (m' : positive) (e' : Z) :
  binary_round prec emax s m e = S754_finite s' m' e' ->
  Zpos (digits2_pos m) + e - prec <= e'.
Proof.
  unfold binary_round.
  pose proof (digits2_pos_shl_align m e (fexp prec emax (Zpos (digits2_pos m) + e))) as H.
  destruct (shl_align m e _) as [mz ez]. cbn [fst snd] in H.
  intros Hr. apply binary_round_aux_exponent in Hr. cbn [Zdigits2] in Hr. lia.
Qed.

(** A positive difference [b - y], for a normal [b], is not far below [b]. *)
Lemma SFsub_exponent (mb : positive) (eb : Z) (y : spec_float) (m : positive) (e : Z) :
  bounded prec emax mb eb = true -> Zpos (digits2_pos mb) = prec ->
  valid_binary y = true ->
  SFsub prec emax (S754_finite false mb eb) y = S754_finite false m e ->
  eb - prec <= e.
Proof.
  intros Hb Hn Hy.
  apply bounded_canonical in Hb as (Heb & Bb & _).
  pose proof (digits2_pos_bounds mb) as [Nb _]. rewrite Hn in Nb.
  destruct y as [sy|sy| |sy my ey]; cbn [SFsub]; try discriminate.
  - intros [= <- <-]. unfold prec. lia.
  - cbn [valid_binary] in Hy. apply bounded_canonical in Hy as (Hey & By & _).
    rewrite !shl_align_value by lia. cbn [cond_Zopp].
    destruct (Zpos mb * 2 ^ (eb - Z.min eb ey)
              - cond_Zopp sy (Zpos my * 2 ^ (ey - Z.min eb ey))) as [|p|p] eqn:HD;
      cbn [binary_normalize]; try discriminate.
    + intros Hr. apply binary_round_exponent in Hr.
      assert (eb <= Zpos (digits2_pos p) + Z.min eb ey); [|lia].
      assert (Hd : 0 < Zpos (digits2_pos p)) by lia.
      destruct (Z.le_gt_cases (eb - 1) (Z.min eb ey)) as [Hc|Hc]; [lia|].
      assert (Hez : Z.min eb ey = ey) by lia. rewrite Hez in *. rewrite Z.sub_diag in *.
      change (2 ^ 0) with 1 in *.
      pose proof (digits2_pos_bounds p) as [_ Bp].
      assert (Hpow : 2 ^ (eb - ey) = 2 * 2 ^ (eb - ey - 1)).
      { rewrite <- Z.pow_succ_r by lia. f_equal. lia. }
      assert (H1 : 2 ^ (prec - 1) * 2 ^ (eb - ey - 1) <= Zpos p).
      { assert (0 < 2 ^ (eb - ey - 1)) by (apply Z.pow_pos_nonneg; lia).
        change (2 ^ prec) with (2 * 2 ^ (prec - 1)) in *.
        assert (2 <= 2 ^ (eb - ey - 1)) by (apply pow2_ge_2; lia).
        rewrite Hpow in HD.
        set (X := 2 ^ (prec - 1)) in *. set (P := 2 ^ (eb - ey - 1)) in *.
        assert (X * P <= Zpos mb * P) by nia. assert (2 * X <= X * P) by nia.
        destruct sy; cbn [cond_Zopp] in HD; lia. }
      rewrite <- Z.pow_add_r in H1 by (unfold prec; lia).
      destruct (Z.le_gt_cases (eb - ey) (Zpos (digits2_pos p))) as [|Hgt]; [lia|].
      assert (2 ^ Zpos (digits2_pos p) <= 2 ^ (prec - 1 + (eb - ey - 1)))
        by (apply Z.pow_le_mono_r; unfold prec; lia).
      lia.
    + intros Hr.
      assert (Hs : signed_nonzero false (binary_round prec emax true p (Z.min eb ey)))
        by now rewrite Hr.
      apply binary_round_signed in Hs. discriminate Hs.
Qed.

(** A product of two floats well above the subnormal range is not
    rounded to zero. *)
Lemma SFmul_nonzero (sx sy : bool) (mx my : positive) (ex ey : Z) :
  emin <= ex + ey ->
  signed_nonzero (xorb sx sy)
    (SFmul prec emax (S754_finite sx mx ex) (S754_finite sy my ey)).
Proof. intros H. cbn [SFmul]. apply binary_round_aux_nonzero; [lia | assumption]. Qed.

End Exponent.

(** [(b - y) * c] is positive for [y < b]: for a baseline [b] and a
    factor [c] that are normal and at least one half. *)
Lemma sub_mul_gt0 (b y c : float) :
  normal_positive b = true -> positive_from 0 b = true ->
  normal_positive c = true -> positive_from 0 c = true ->
  (y <? b) = true -> (0 <? Float.max 0 (b - y) * c) = true.
Proof.
  intros Nb Fb Nc Fc Hlt.
  pose proof (sub_threshold_gt0 b y Nb Hlt) as Hd.
  unfold Float.max. rewrite Hd. apply gt0_spec. rewrite mul_spec. unfold SF64mul.
  unfold normal_positive, positive_from in *.
  pose proof (Prim2SF_valid b) as Vb. pose proof (Prim2SF_valid y) as Vy.
  apply gt0_spec in Hd. rewrite sub_spec in *. unfold SF64sub in *.
  destruct (Prim2SF b) as [| | |[|] mb eb] eqn:Eb; try discriminate.
  destruct (Prim2SF c) as [| | |[|] mc ec] eqn:Ec; try discriminate.
  apply Z.eqb_eq in Nb, Nc. apply Z.leb_le in Fb, Fc. cbn [valid_binary] in Vb.
  destruct (SFsub prec emax (S754_finite false mb eb) (Prim2SF y)) as [|[|]| |[|] m e] eqn:Ed;
    cbn [signed_nonzero] in Hd; try contradiction; try discriminate; [reflexivity|].
  apply SFsub_exponent in Ed; try assumption.
  apply (SFmul_nonzero false false). unfold emin, prec, emax in *. lia.
Qed.

(** A product by a positive float is positive only if the other factor is. *)
Lemma mul_gt0_inv (g c : float) (mc : positive) (ec : Z) :
  Prim2SF c = S754_finite false mc ec -> (0 <? g * c) = true -> (0 <? g) = true.
Proof.
  intros Hc H. apply gt0_spec in H. apply gt0_spec. rewrite mul_spec, Hc in H.
  unfold SF64mul in H.
  destruct (Prim2SF g) as [s|[|]| |s m e]; cbn [SFmul signed_nonzero xorb] in *;
    try contradiction; try discriminate; try reflexivity.
  apply binary_round_aux_signed in H. now destruct s.
Qed.

(** [0 < b - y] only if [y < b]. *)
Lemma sub_gt0_lt (b y : float) : (0 <? b - y) = true -> (y <? b) = true.
Proof.
  intros H. apply gt0_spec in H. rewrite sub_spec in H. rewrite FloatAxioms.ltb_spec.
  apply SFsub_positive_lt; auto using Prim2SF_valid.
Qed.

Lemma max_gt0 (d : float) : (0 <? Float.max 0 d) = (0 <? d).
Proof. unfold Float.max. destruct (0 <? d) eqn:E; [exact E | reflexivity]. Qed.

(** Above a float that is not negative are positive floats only. *)
Lemma lt_not_negative (y g : float) : (y <? 0) = false -> (y <? g) = true -> (0 <? g) = true.
Proof.
  rewrite !FloatAxioms.ltb_spec. change (Prim2SF 0) with (S754_zero false).
  destruct (Prim2SF y) as [?|[|]| |[|] ? ?], (Prim2SF g) as [?|[|]| |[|] ? ?];
    cbv beta iota delta [SFltb SFcompare]; congruence.
Qed.


(** ** Binary64 arithmetic: a rounded value is a float of the format *)

Section Valid.
Local Open Scope Z_scope.

Lemma Zdigits2_mono (m m' : Z) : 0 < m -> m <= m' -> Zdigits2 m <= Zdigits2 m'.
Proof.
  intros Hm Hle. pose proof (Zdigits2_bounds m Hm) as [B _].
  pose proof (Zdigits2_bounds m' ltac:(lia)) as [_ B'].
  pose proof (Zdigits2_pos m' ltac:(lia)).
  destruct (Z.le_gt_cases (Zdigits2 m) (Zdigits2 m')) as [|Hgt]; [assumption|].
  assert (2 ^ Zdigits2 m' <= 2 ^ (Zdigits2 m - 1)) by (apply Z.pow_le_mono_r; lia). lia.
Qed.

Lemma fexp_mono (a b : Z) : a <= b -> fexp prec emax a <= fexp prec emax b.
Proof. unfold fexp. lia. Qed.

(** Shifting [n] digits out leaves the others. *)
Lemma Zdigits2_shift (m n : Z) :
  0 <= n -> 0 < m / 2 ^ n -> Zdigits2 (m / 2 ^ n) = Zdigits2 m - n.
Proof.
  intros Hn Hq. assert (Hp : 0 < 2 ^ n) by (apply Z.pow_pos_nonneg; lia).
  assert (Hm : 0 < m).
  { destruct (Z.lt_trichotomy m 0) as [H|[->|H]]; [|rewrite Z.div_0_l in Hq; lia|assumption].
    assert (m / 2 ^ n < 0) by (apply Z.div_lt_upper_bound; lia). lia. }
  pose proof (Zdigits2_bounds m Hm) as [B1 B2].
  pose proof (Z.mul_div_le m (2 ^ n) Hp) as Hle.
  assert (Hdn : n < Zdigits2 m).
  { destruct (Z.lt_ge_cases n (Zdigits2 m)) as [|Hge]; [assumption|].
    assert (2 ^ Zdigits2 m <= 2 ^ n) by (apply Z.pow_le_mono_r; [lia | lia]).
    rewrite Z.div_small in Hq by lia. lia. }
  remember (m / 2 ^ n) as q eqn:Eq. destruct q as [|q|q]; try lia.
  cbn [Zdigits2]. apply digits2_pos_unique.
  assert (E1 : 2 ^ (Zdigits2 m - n - 1) * 2 ^ n = 2 ^ (Zdigits2 m - 1)).
  { rewrite <- Z.pow_add_r by lia. f_equal. lia. }
  assert (E2 : 2 ^ (Zdigits2 m - n) * 2 ^ n = 2 ^ Zdigits2 m).
  { rewrite <- Z.pow_add_r by lia. f_equal. lia. }
  split.
  - rewrite Eq. apply Z.div_le_lower_bound; [assumption|]. lia.
  - assert (0 < 2 ^ (Zdigits2 m - n)) by (apply Z.pow_pos_nonneg; lia). nia.
Qed.

(** What [shr_fexp] returns is not above its canonical exponent, and
    stays so when the mantissa is rounded up. *)
Lemma shr_fexp_canonical (m e : Z) (l : location) (m' : Z) :
  0 < m -> e <= fexp prec emax (Zdigits2 m + e) ->
  shr_m (fst (shr_fexp prec emax m e l)) <= m' -> 0 < m' ->
  snd (shr_fexp prec emax m e l) <= fexp prec emax (Zdigits2 m' + snd (shr_fexp prec emax m e l)).
Proof.
  intros Hm He. unfold shr_fexp, shr.
  pose proof (Zdigits2_pos m Hm) as Hd.
  destruct (fexp prec emax (Zdigits2 m + e) - e) as [|n|n] eqn:Hn; cbn [fst snd];
    rewrite ?shr_record_of_loc_m.
  - intros Hle Hm'. etransitivity; [exact He|]. apply fexp_mono.
    pose proof (Zdigits2_mono m m' Hm Hle). lia.
  - rewrite iter_pos_shr_1_m by (rewrite shr_record_of_loc_m; lia).
    rewrite shr_record_of_loc_m. intros Hle Hm'.
    replace (e + Zpos n) with (fexp prec emax (Zdigits2 m + e)) by lia.
    pose proof (Zdigits2_pos m' Hm') as Hd'.
    destruct (Z.eq_dec (m / 2 ^ Zpos n) 0) as [E|E].
    + assert (Zdigits2 m <= Zpos n).
      { destruct (Z.le_gt_cases (Zdigits2 m) (Zpos n)) as [|Hgt]; [assumption|].
        pose proof (Zdigits2_bounds m Hm) as [B _].
        assert (2 ^ Zpos n <= 2 ^ (Zdigits2 m - 1)) by (apply Z.pow_le_mono_r; lia).
        assert (0 < m / 2 ^ Zpos n); [|lia].
        apply Z.div_str_pos. split; [apply Z.pow_pos_nonneg; lia | lia]. }
      unfold fexp in *. lia.
    + assert (Hq : 0 < m / 2 ^ Zpos n).
      { assert (0 <= m / 2 ^ Zpos n) by (apply Z.div_pos; [lia | apply Z.pow_pos_nonneg; lia]).
        lia. }
      pose proof (Zdigits2_shift m (Zpos n) ltac:(lia) Hq) as Hs.
      pose proof (Zdigits2_mono _ m' Hq Hle).
      unfold fexp in *. lia.
  - lia.
Qed.

(** A rounded value is a float of the format. *)
Lemma binary_round_aux_valid (s : bool) (m e : Z) (l : location) :
  0 < m -> e <= fexp prec emax (Zdigits2 m + e) ->
  valid_binary (binary_round_aux prec emax s m e l) = true.
Proof.
  intros Hm He. unfold binary_round_aux.
  pose proof (shr_fexp_canonical m e l) as H1.
  assert (H0 : 0 <= shr_m (fst (shr_fexp prec emax m e l))).
  { unfold shr_fexp, shr. destruct (fexp prec emax (Zdigits2 m + e) - e); cbn [fst];
      rewrite ?iter_pos_shr_1_m, ?shr_record_of_loc_m; rewrite ?shr_record_of_loc_m; try lia.
    apply Z.div_pos; [lia | apply Z.pow_pos_nonneg; lia]. }
  destruct (shr_fexp prec emax m e l) as [mrs' e1]. cbn [fst snd] in H1, H0.
  pose proof (round_nearest_even_ge (shr_m mrs') (loc_of_shr_record mrs')) as Hr.
  set (m1 := round_nearest_even (shr_m mrs') (loc_of_shr_record mrs')) in *.
  destruct (Z.eq_dec m1 0) as [E0|E0].
  { rewrite E0. unfold shr_fexp, shr. cbn [Zdigits2].
    destruct (fexp prec emax (0 + e1) - e1); cbn [shr_record_of_loc];
      rewrite ?iter_pos_shr_1_m by (cbn; lia); reflexivity. }
  assert (Hm1 : 0 < m1) by lia.
  specialize (H1 m1 Hm He Hr Hm1).
  unfold shr_fexp at 1. unfold shr.
  destruct (fexp prec emax (Zdigits2 m1 + e1) - e1) as [|n|n] eqn:Hn;
    cbn [shr_record_of_loc shr_m]; try lia.
  - destruct m1 as [|p|p]; try lia.
    destruct (Z.leb_spec e1 (emax - prec)); [|reflexivity].
    cbn [valid_binary]. unfold bounded, canonical_mantissa.
    apply andb_true_intro. split; [apply Z.eqb_eq | apply Z.leb_le]; cbn [Zdigits2] in *; lia.
  - rewrite iter_pos_shr_1_m by (cbn; lia). cbn [shr_m].
    destruct (m1 / 2 ^ Zpos n) as [|q|q] eqn:Eq; try reflexivity.
    destruct (Z.leb_spec (e1 + Zpos n) (emax - prec)); [|reflexivity].
    cbn [valid_binary]. unfold bounded, canonical_mantissa.
    apply andb_true_intro. split; [apply Z.eqb_eq | apply Z.leb_le; assumption].
    pose proof (Zdigits2_shift m1 (Zpos n) ltac:(lia) ltac:(lia)) as Hs.
    rewrite Eq in Hs. cbn [Zdigits2] in Hs. rewrite Hs.
    replace (Zdigits2 m1 - Zpos n + (e1 + Zpos n)) with (Zdigits2 m1 + e1) by lia. lia.
Qed.

Lemma binary_round_valid (s : bool) (m : positive) (e : Z) :
  valid_binary (binary_round prec emax s m e) = true.
Proof.
  unfold binary_round.
  pose proof (digits2_pos_shl_align m e (fexp prec emax (Zpos (digits2_pos m) + e))) as H.
  assert (He : snd (shl_align m e (fexp prec emax (Zpos (digits2_pos m) + e)))
               <= fexp prec emax (Zpos (digits2_pos m) + e)).
  { unfold shl_align. destruct (fexp prec emax (Zpos (digits2_pos m) + e) - e) eqn:E;
      cbn [snd]; lia. }
  destruct (shl_align m e _) as [mz ez]. cbn [fst snd] in H, He.
  apply binary_round_aux_valid; [lia|]. cbn [Zdigits2]. now rewrite H.
Qed.

End Valid.

(** [float(n)] of a positive integer is a positive float. *)
Lemma of_int_positive (n : Z) (x : float) :
  (1 <= n)%Z -> Float.of_int n = Ok x -> exists m e, Prim2SF x = S754_finite false m e.
Proof.
  intros Hn. unfold Float.of_int.
  pose proof (binary_normalize_positive n 0 ltac:(lia) ltac:(vm_compute; discriminate)) as Hs.
  assert (Hv : valid_binary (binary_normalize prec emax n 0 false) = true).
  { destruct n; cbn [binary_normalize]; try reflexivity; apply binary_round_valid. }
  destruct (binary_normalize prec emax n 0 false) as [|[|]| |[|] m e] eqn:E;
    cbn [signed_nonzero] in Hs; try contradiction; try discriminate.
  intros Hx. assert (Ex : x = SF2Prim (S754_finite false m e)) by congruence.
  rewrite Ex, Prim2SF_SF2Prim by exact Hv. eauto.
Qed.


(** ** The entries for nitrogen, phosphorus and potassium *)

Lemma baseline_normal (crop : string) (base_N base_P2O5 base_K2O : float) :
  baseline_npk !! crop = Some (base_N, base_P2O5, base_K2O) ->
  (normal_positive base_N = true /\ positive_from 0 base_N = true)
  /\ (normal_positive base_P2O5 = true /\ positive_from 0 base_P2O5 = true)
  /\ (normal_positive base_K2O = true /\ positive_from 0 base_K2O = true).
Proof.
  unfold baseline_npk. intros H. apply elem_of_list_to_map_2 in H.
  apply list_elem_of_In in H. cbn in H.
  repeat (destruct H as [[= _ <- <- <-]|H]; [repeat split; vm_compute; reflexivity|]).
  contradiction.
Qed.

(** A gap, scaled or not, is positive exactly when the reading is below
    the baseline. *)
Lemma scaled_gap_gt0 (b y c : float) (scaled : bool) :
  normal_positive b = true -> positive_from 0 b = true ->
  normal_positive c = true -> positive_from 0 c = true ->
  (0 <? (if scaled then Float.max 0 (b - y) * c else Float.max 0 (b - y))) = (y <? b).
Proof.
  intros Nb Fb Nc Fc. apply Bool.eq_iff_eq_true. split.
  - intros H. apply sub_gt0_lt. rewrite <- max_gt0. destruct scaled; [|exact H].
    unfold normal_positive in Nc. destruct (Prim2SF c) as [| | |[|] mc ec] eqn:Ec; try discriminate.
    now apply (mul_gt0_inv _ c mc ec).
  - intros H. destruct scaled; [now apply sub_mul_gt0|].
    rewrite max_gt0. now apply sub_threshold_gt0.
Qed.

Lemma scaled_gt0_inv (g c : float) (scaled : bool) :
  normal_positive c = true ->
  (0 <? (if scaled then g * c else g)) = true -> (0 <? g) = true.
Proof.
  intros Nc H. destruct scaled; [|exact H].
  unfold normal_positive in Nc. destruct (Prim2SF c) as [| | |[|] mc ec] eqn:Ec; try discriminate.
  now apply (mul_gt0_inv _ c mc ec).
Qed.

(** The nitrogen credit of a quantity of DAP of at least one is not
    negative. *)
Lemma credit_Ok_not_negative (dap : option Z) (N_from_dap : float) :
  (forall n, dap = Some n -> (1 <= n)%Z) -> credit dap = Ok N_from_dap ->
  (N_from_dap <? 0) = false.
Proof.
  intros Hn. destruct dap as [n|]; cbn [credit]; [|now intros [= <-]].
  intros H. apply rbind_Ok in H as (x & Hx & H).
  assert (E : N_from_dap = x * 0.18) by congruence. subst N_from_dap.
  apply of_int_positive in Hx as (m & e & Hx); [|now apply Hn].
  eapply mul_not_negative; [exact Hx | vm_compute; reflexivity].
Qed.

(** For a call that returns: DAP is in the plan exactly when the
    phosphorus reading, taken as 0 when it is absent or zero, is below
    the baseline of the crop, and MOP exactly when the potassium reading
    is; urea is in the plan only when the nitrogen reading is below the
    baseline (not whenever it is: the nitrogen of the DAP can cover the
    gap). *)
Theorem shortage_entries (inputs : gmap string raw) (crop_name : string)
    (messages : list string) (fert_plan : plan) :
  call inputs crop_name = Ok (messages, fert_plan) ->
  exists base_N base_P2O5 base_K2O rd,
    baseline_npk !! Str.lower crop_name = Some (base_N, base_P2O5, base_K2O)
    /\ interpret_all inputs = Ok rd
    /\ (is_Some (fert_plan !! "DAP_kg/ha") <-> (or_zero (rd_P rd) <? base_P2O5) = true)
    /\ (is_Some (fert_plan !! "MOP_kg/ha") <-> (or_zero (rd_K rd) <? base_K2O) = true)
    /\ (is_Some (fert_plan !! "Urea_kg/ha") -> (or_zero (rd_N rd) <? base_N) = true).
Proof.
  intros H. apply call_Ok in H as (base & rd & o & Hbase & Hrd & Ho & -> & ->).
  destruct base as [[base_N base_P2O5] base_K2O].
  exists base_N, base_P2O5, base_K2O, rd. split; [exact Hbase|]. split; [exact Hrd|].
  apply baseline_normal in Hbase as ((NN & FN) & (NP & FP) & (NK & FK)).
  apply evaluate_Ok in Ho as (cr & Hdap & Hc & Hurea & Hmop & _).
  destruct (plan_of_entries o) as (-> & -> & -> & _).
  destruct fractions_below_one as (F46 & _).
  assert (N08 : normal_positive 0.8 = true) by (vm_compute; reflexivity).
  assert (F08 : positive_from 0 0.8 = true) by (vm_compute; reflexivity).
  assert (N11 : normal_positive 1.1 = true) by (vm_compute; reflexivity).
  assert (Hcr : (cr <? 0) = false).
  { apply (credit_Ok_not_negative (o_dap o)); [|exact Hc].
    intros n Hn. rewrite Hn in Hdap. now apply gap_entry in Hdap as (_ & _ & _ & ?). }
  assert (EP : snd (fst (gaps (base_N, base_P2O5, base_K2O) rd))
               = if saline (rd_EC rd)
                 then Float.max 0 (base_P2O5 - or_zero (rd_P rd)) * 0.8
                 else Float.max 0 (base_P2O5 - or_zero (rd_P rd))).
  { unfold gaps. now destruct (saline (rd_EC rd)). }
  assert (EK : snd (gaps (base_N, base_P2O5, base_K2O) rd)
               = if saline (rd_EC rd)
                 then Float.max 0 (base_K2O - or_zero (rd_K rd)) * 0.8
                 else Float.max 0 (base_K2O - or_zero (rd_K rd))).
  { unfold gaps. now destruct (saline (rd_EC rd)). }
  assert (EN : fst (fst (gaps (base_N, base_P2O5, base_K2O) rd))
               = let need_N := Float.max 0 (base_N - or_zero (rd_N rd)) in
                 let need_N := if is_low (rd_OC rd) 0.5 then need_N * 1.1 else need_N in
                 if saline (rd_EC rd) then need_N * 0.8 else need_N).
  { unfold gaps. now destruct (saline (rd_EC rd)). }
  rewrite EP in Hdap. rewrite EK in Hmop. rewrite EN in Hurea. cbv zeta in Hurea.
  apply quantity_fires in Hdap, Hmop, Hurea.
  rewrite scaled_gap_gt0 in Hdap, Hmop by assumption.
  split; [exact Hdap|]. split; [exact Hmop|].
  intros Hu. apply Hurea in Hu. unfold remaining in Hu. rewrite max_gt0 in Hu.
  apply sub_gt0_lt in Hu. apply (lt_not_negative _ _ Hcr) in Hu.
  apply scaled_gt0_inv in Hu; [|exact N08]. apply scaled_gt0_inv in Hu; [|exact N11].
  rewrite max_gt0 in Hu. now apply sub_gt0_lt.
Qed.

Lemma shortage_entries_scenario :
  exists base_N base_P2O5 base_K2O rd,
    baseline_npk !! Str.lower "wheat" = Some (base_N, base_P2O5, base_K2O)
    /\ interpret_all scenario_inputs = Ok rd
    /\ (is_Some (scenario_plan !! "DAP_kg/ha") <-> (or_zero (rd_P rd) <? base_P2O5) = true)
    /\ (is_Some (scenario_plan !! "MOP_kg/ha") <-> (or_zero (rd_K rd) <? base_K2O) = true)
    /\ (is_Some (scenario_plan !! "Urea_kg/ha") -> (or_zero (rd_N rd) <? base_N) = true).
Proof.
  apply (shortage_entries scenario_inputs "wheat" scenario_messages scenario_plan).
  vm_compute. reflexivity.
Defined.


(** ** Readings of zero, in general *)

Lemma or_zero_nonzero (X : option float) : or_zero (nonzero X) = or_zero X.
Proof. destruct X as [x|]; cbn; [|reflexivity]. destruct (Float.truthy x) eqn:E; cbn; now rewrite ?E. Qed.

Lemma holds_nonzero (X : option float) (test : float -> bool) :
  holds (nonzero X) test = holds X test.
Proof. destruct X as [x|]; cbn; [|reflexivity]. destruct (Float.truthy x) eqn:E; cbn; now rewrite ?E. Qed.

Lemma low_quantity_nonzero (X : option float) (low c : float) :
  low_quantity (nonzero X) low c = low_quantity X low c.
Proof. destruct X as [x|]; cbn; [|reflexivity]. destruct (Float.truthy x) eqn:E; cbn; now rewrite ?E. Qed.

Lemma gaps_without_zeros (base : float * float * float) (rd : readings) :
  gaps base (without_zeros rd) = gaps base rd.
Proof.
  unfold gaps, is_low, saline. destruct base as [[base_N base_P2O5] base_K2O].
  cbn [without_zeros rd_N rd_P rd_K rd_OC rd_EC].
  now rewrite !or_zero_nonzero, !holds_nonzero.
Qed.

Lemma evaluate_without_zeros (base : float * float * float) (rd : readings) :
  evaluate base (without_zeros rd) = evaluate base rd.
Proof.
  unfold evaluate. rewrite gaps_without_zeros. unfold is_low, saline.
  cbn [without_zeros rd_S rd_Zn rd_B rd_OC rd_Fe rd_Cu rd_Mn rd_pH rd_EC].
  now rewrite !low_quantity_nonzero, !holds_nonzero.
Qed.

Lemma seen_Ok (inputs inputs' : gmap string raw) (key : string) :
  seen inputs key = seen inputs' key ->
  match interpreted inputs key, interpreted inputs' key with
  | Ok X, Ok X' => nonzero X = nonzero X'
  | Raise e, Raise e' => e = e'
  | _, _ => False
  end.
Proof.
  unfold seen. destruct (interpreted inputs key), (interpreted inputs' key); cbn; congruence.
Qed.

(** A reading of zero counts as an absent reading: two requests get the
    same answer when each of the twelve readings is interpreted alike in
    both, or is a zero in one and a zero or absent in the other. *)
Theorem zero_counts_as_absent (inputs inputs' : gmap string raw) (crop_name : string) :
  (forall key, In key reading_names -> seen inputs key = seen inputs' key) ->
  call inputs crop_name = call inputs' crop_name.
Proof.
  intros H. rewrite !call_engine. unfold engine.
  destruct (baseline_npk !! Str.lower crop_name) as [base|]; [|reflexivity].
  assert (E : match interpret_all inputs, interpret_all inputs' with
              | Ok rd, Ok rd' => without_zeros rd = without_zeros rd'
              | Raise e, Raise e' => e = e'
              | _, _ => False
              end).
  { unfold interpret_all.
    repeat match goal with
    | |- context [rbind (interpreted inputs ?k) _] =>
        let Hk := fresh in
        pose proof (seen_Ok inputs inputs' k (H k ltac:(cbn; tauto))) as Hk;
        destruct (interpreted inputs k), (interpreted inputs' k); cbn [rbind];
        [|contradiction|contradiction|exact Hk]
    end.
    unfold without_zeros. cbn. congruence. }
  destruct (interpret_all inputs) as [rd|e], (interpret_all inputs') as [rd'|e'];
    try contradiction; cbn [rbind]; [|now subst].
  now rewrite <- (evaluate_without_zeros base rd), E, evaluate_without_zeros.
Qed.

Lemma zero_counts_as_absent_micro :
  call zero_micro_inputs "wheat" = call ∅ "wheat".
Proof.
  apply zero_counts_as_absent. intros key Hkey. cbn in Hkey.
  repeat (destruct Hkey as [<-|Hkey]; [vm_compute; reflexivity|]). contradiction.
Defined.

(** ** Letter case and surrounding whitespace *)
































(** ** Integers written as strings *)

Section Numerals.
Local Open Scope Z_scope.

Lemma digitpart_tail_uint (d : Decimal.uint) :
  Float.digitpart_tail (NilEmpty.string_of_uint d) = (digits_of_uint d, EmptyString).
Proof.
  induction d; cbn [NilEmpty.string_of_uint Float.digitpart_tail digits_of_uint];
    [reflexivity|..];
    match goal with
    | |- context [Float.digit_of ?c] =>
        let v := eval vm_compute in (Float.digit_of c) in
        change (Float.digit_of c) with v
    end; cbv iota; now rewrite IHd.
Qed.

Lemma digitpart_uint (d : Decimal.uint) :
  Float.digitpart (NilEmpty.string_of_uint d) = (digits_of_uint d, EmptyString).
Proof.
  destruct d; cbn [NilEmpty.string_of_uint Float.digitpart digits_of_uint];
    [reflexivity|..];
    match goal with
    | |- context [Float.digit_of ?c] =>
        let v := eval vm_compute in (Float.digit_of c) in
        change (Float.digit_of c) with v
    end; cbv iota; now rewrite digitpart_tail_uint.
Qed.

Lemma fold_digits_acc (d : Decimal.uint) (acc : positive) :
  fold_left (fun a k => 10 * a + k) (digits_of_uint d) (Zpos acc)
  = Zpos (Pos.of_uint_acc d acc).
Proof.
  revert acc. induction d; intros acc; cbn [digits_of_uint fold_left Pos.of_uint_acc];
    [reflexivity|..];
    match goal with
    | |- fold_left _ _ ?a = Zpos (Pos.of_uint_acc _ ?b) =>
        replace a with (Zpos b) by lia
    end; apply IHd.
Qed.

Lemma of_digits_uint (d : Decimal.uint) : Float.of_digits (digits_of_uint d) = Z.of_uint d.
Proof.
  unfold Float.of_digits, Z.of_uint.
  induction d; cbn [digits_of_uint fold_left Pos.of_uint]; [reflexivity|exact IHd|..];
    match goal with
    | |- fold_left _ _ ?a = Z.of_N (N.pos (Pos.of_uint_acc _ ?b)) =>
        change a with (Zpos b)
    end; apply fold_digits_acc.
Qed.

Lemma rstrip_uint (d : Decimal.uint) :
  Str.rstrip (NilEmpty.string_of_uint d) = NilEmpty.string_of_uint d.
Proof.
  induction d; cbn [NilEmpty.string_of_uint Str.rstrip]; [reflexivity|..];
    rewrite IHd; destruct (NilEmpty.string_of_uint d); reflexivity.
Qed.

Lemma strip_uint (d : Decimal.uint) :
  Str.strip (NilEmpty.string_of_uint d) = NilEmpty.string_of_uint d.
Proof.
  unfold Str.strip.
  assert (H : Str.lstrip (NilEmpty.string_of_uint d) = NilEmpty.string_of_uint d)
    by (destruct d; reflexivity).
  rewrite H. apply rstrip_uint.
Qed.

Lemma strip_neg_uint (d : Decimal.uint) :
  Str.strip (String "-" (NilEmpty.string_of_uint d)) = String "-" (NilEmpty.string_of_uint d).
Proof.
  unfold Str.strip. change (Str.lstrip (String "-" ?s)) with (String "-" s).
  cbn [Str.rstrip]. rewrite rstrip_uint. destruct (NilEmpty.string_of_uint d); reflexivity.
Qed.

Lemma c_rstrip_uint (d : Decimal.uint) :
  Float.rstrip (NilEmpty.string_of_uint d) = NilEmpty.string_of_uint d.
Proof.
  induction d; cbn [NilEmpty.string_of_uint Float.rstrip]; [reflexivity|..];
    rewrite IHd; destruct (NilEmpty.string_of_uint d); reflexivity.
Qed.

Lemma c_strip_uint (d : Decimal.uint) :
  Float.strip (NilEmpty.string_of_uint d) = NilEmpty.string_of_uint d.
Proof.
  unfold Float.strip.
  assert (H : Float.lstrip (NilEmpty.string_of_uint d) = NilEmpty.string_of_uint d)
    by (destruct d; reflexivity).
  rewrite H. apply c_rstrip_uint.
Qed.

Lemma c_strip_neg_uint (d : Decimal.uint) :
  Float.strip (String "-" (NilEmpty.string_of_uint d)) = String "-" (NilEmpty.string_of_uint d).
Proof.
  unfold Float.strip. change (Float.lstrip (String "-" ?s)) with (String "-" s).
  cbn [Float.rstrip]. rewrite c_rstrip_uint. destruct (NilEmpty.string_of_uint d); reflexivity.
Qed.

(** [float(s)] of the decimal numeral of a number. *)
Lemma of_string_uint (neg : bool) (d : Decimal.uint) :
  d <> Decimal.Nil ->
  Float.of_string (if neg then String "-" (NilEmpty.string_of_uint d)
                   else NilEmpty.string_of_uint d)
  = Some (SF2Prim (Float.round_decimal neg (Z.of_uint d) 0)).
Proof.
  intros Hd. unfold Float.of_string.
  assert (Hsign : Float.sign_of (Float.strip (if neg then String "-" (NilEmpty.string_of_uint d)
                                              else NilEmpty.string_of_uint d))
                  = (neg, NilEmpty.string_of_uint d)).
  { destruct neg; [now rewrite c_strip_neg_uint|]. rewrite c_strip_uint.
    destruct d; reflexivity. }
  rewrite Hsign.
  assert (Hword : forall w, (String.length w <> 0)%nat ->
            Float.digit_of (match w with String c _ => c | EmptyString => "0"%char end) = None ->
            String.eqb (Str.lower (NilEmpty.string_of_uint d)) w = false).
  { intros w Hw Hc. destruct d; try contradiction; destruct w as [|c w]; try reflexivity;
      cbn [NilEmpty.string_of_uint Str.lower String.eqb];
      destruct c as [[] [] [] [] [] [] [] []]; try reflexivity; discriminate Hc. }
  rewrite !Hword by (cbn; first [lia | reflexivity]). cbn [orb].
  unfold Float.decimal. rewrite digitpart_uint. cbn [Float.exponent app length].
  rewrite app_nil_r. rewrite <- of_digits_uint.
  destruct (digits_of_uint d) eqn:E; [destruct d; try contradiction; discriminate E|].
  reflexivity.
Qed.

Lemma in_tuple_uint (neg : bool) (d : Decimal.uint) (t : list string) :
  d <> Decimal.Nil ->
  Forall (fun w => Float.digit_of (match w with String c _ => c | EmptyString => "0"%char end) = None
                   /\ match w with String "-" _ => False | _ => True end) t ->
  in_tuple (Str.lower (Str.strip (if neg then String "-" (NilEmpty.string_of_uint d)
                                  else NilEmpty.string_of_uint d))) t = false.
Proof.
  intros Hd Ht. unfold in_tuple.
  assert (E : Str.strip (if neg then String "-" (NilEmpty.string_of_uint d)
                         else NilEmpty.string_of_uint d)
              = if neg then String "-" (NilEmpty.string_of_uint d) else NilEmpty.string_of_uint d).
  { destruct neg; [apply strip_neg_uint | apply strip_uint]. }
  rewrite E. induction Ht as [|w t [Hw Hw'] _ IH]; [reflexivity|]. cbn [existsb].
  rewrite IH, orb_false_r.
  destruct neg.
  - destruct w as [|c w]; [reflexivity|]. cbn [Str.lower String.eqb].
    destruct c as [[] [] [] [] [] [] [] []]; try reflexivity; contradiction.
  - destruct d; try contradiction; destruct w as [|c w]; try reflexivity;
      cbn [NilEmpty.string_of_uint Str.lower String.eqb];
      destruct c as [[] [] [] [] [] [] [] []]; try reflexivity; discriminate Hw.
Qed.

End Numerals.

(** A reading given as the decimal numeral of an integer, in a string,
    is read as the integer is. *)
Theorem integer_as_string (n : Z) (low high : float) (x : float) :
  interpret (RInt n) low high = Ok (Some x) ->
  interpret (RStr (Str.of_int n)) low high = Ok (Some x).
Proof.
  cbn [interpret]. intros H. apply rbind_Ok in H as (y & Hy & [= <-]).
  unfold Float.of_int in Hy.
  assert (E : exists (neg : bool) (d : Decimal.uint), d <> Decimal.Nil
            /\ Str.of_int n = (if neg then String "-" (NilEmpty.string_of_uint d)
                               else NilEmpty.string_of_uint d)
            /\ Float.round_decimal neg (Z.of_uint d) 0 = binary_normalize prec emax n 0 false).
  { destruct n as [|p|p].
    - exists false, (Decimal.D0 Decimal.Nil). repeat split. discriminate.
    - exists false, (Pos.to_uint p). pose proof (Unsigned.to_uint_nonnil p) as Hnil.
      split; [exact Hnil|]. split.
      + unfold Str.of_int. cbn [Z.to_int NilZero.string_of_int]. unfold NilZero.string_of_uint.
        now destruct (Pos.to_uint p).
      + unfold Z.of_uint. rewrite Unsigned.of_to. cbn [Z.of_N Float.round_decimal].
        cbn [Z.leb Z.compare Z.pow Z.pow_pos Pos.iter]. now rewrite Z.mul_1_r.
    - exists true, (Pos.to_uint p). pose proof (Unsigned.to_uint_nonnil p) as Hnil.
      split; [exact Hnil|]. split.
      + unfold Str.of_int. cbn [Z.to_int NilZero.string_of_int]. unfold NilZero.string_of_uint.
        now destruct (Pos.to_uint p).
      + unfold Z.of_uint. rewrite Unsigned.of_to. cbn [Z.of_N Float.round_decimal].
        cbn [Z.leb Z.compare Z.pow Z.pow_pos Pos.iter]. now rewrite Z.mul_1_r. }
  destruct E as (neg & d & Hd & -> & Hr).
  unfold interpret. cbn [str].
  rewrite !in_tuple_uint; try assumption;
    try (repeat constructor; try reflexivity; exact I).
  rewrite of_string_uint by assumption. rewrite Hr.
  destruct (binary_normalize prec emax n 0 false); try discriminate Hy; congruence.
Qed.

Lemma integer_as_string_100 : interpret (RStr "100") 280 500 = Ok (Some 100).
Proof. apply (integer_as_string 100 280 500 100). vm_compute. reflexivity. Defined.

(** ** [float(n)] for every integer *)

Section OfInt.
Local Open Scope Z_scope.







End OfInt.



(** C8, the claim as stated fails: for wheat with enough nitrogen and
    phosphorus and potassium at the float just below 10 the plan has
    50 kg/ha of MOP, and the exact requirement 40 - K over the content
    fraction (0.6, or the float the code holds for it) is more than
    50. *)
Lemma C8_quantity_below_exact_quotient :
  call below_ten_inputs "wheat"
  = Ok (["Apply 50 kg/ha MOP because potassium is below recommended level for wheat."],
        {["MOP_kg/ha" := 50%Z]})
  /\ (inject_Z 50 < (inject_Z 40 - Float.to_Q below_ten) / (6 # 10))%Q
  /\ (inject_Z 50 < (inject_Z 40 - Float.to_Q below_ten) / Float.to_Q 0.60)%Q.
Proof. repeat split; vm_compute; reflexivity. Qed.
